(** * BerberBook: the data-access layer, embedded and verified

    The development follows the repository file by file:

    - [lib/db.ts]: the connection manager ([initPool],
      [ensureDatabaseConnection]), the mock pool ([createMockPool]), the
      retrying query executor ([query]) and the schema functions
      ([initDatabase], [resetDatabase], [migrateDatabase]);
    - [app/layout.tsx]: [initializeDatabaseWithMigrations];
    - [app/api/db-check], [app/api/db-reset], [app/api/db-init],
      [app/api/dashboard-stats]: the [GET] handlers;
    - [lib/actions.ts]: the actions that read one row, create, update and
      delete customers, services, appointments and products, the payment of
      an appointment, [createProductSale], [getSaleById] and
      [getDashboardStats].

    The SQL engine is outside the repository.  It is modelled twice, at the two
    levels the code talks to it: a catalog (which tables, columns and primary
    keys exist), used by the migrator, and a row store with the six tables of
    [initDatabase], their column types, their serial keys and their foreign
    keys, used by the actions.  The statements of one action run one after
    the other on the pool, so that BEGIN, COMMIT and ROLLBACK bracket the
    statements between them; a statement that fails closes its session, and
    the transaction that was open on it is rolled back.

    Values are taken as the columns hold them: ids, stocks and quantities are
    INTEGER and are integers; prices and totals are DECIMAL(10, 2) and are
    kept as an exact number of hundredths; a DATE is the text YYYY-MM-DD and a
    TIME the text HH:MM:SS.  A value that its column does not take is
    refused.  The time zone of the Node process decides what [toISOString]
    makes of a DATE; it is a parameter of the actions that format one. *)

From Stdlib Require Import ZArith String List Bool Lia.
From Stdlib Require Import DecimalString.
From stdpp Require Import base option gmap strings.
Import ListNotations.

Local Open Scope string_scope.
Local Open Scope Z_scope.
Local Open Scope list_scope.

(* ===================================================================== *)
(** * Part I: definitions                                                 *)
(* ===================================================================== *)

(** ** JavaScript values the code inspects *)

(** [s.includes(needle)] *)
Fixpoint includes (s needle : string) : bool :=
  if String.prefix needle s then true
  else match s with
       | EmptyString => false
       | String _ s' => includes s' needle
       end.

(** Truthiness of a string: only the empty string is falsy. *)
Definition truthy (s : string) : bool :=
  match s with
  | EmptyString => false
  | String _ _ => true
  end.

(** What a [throw] carries: an [Error] object with its message, or [null]
    (the initial value of [lastError] in [query]). *)
Inductive Exn : Type :=
| JsError (message : string)
| JsNull.

(** The result of awaiting an async function. *)
Inductive Outcome (A : Type) : Type :=
| Returned (a : A)
| Thrown (e : Exn).
Arguments Returned {A} a.
Arguments Thrown {A} e.

(** The promise of [pool.query]: node-postgres rejects with an [Error]. *)
Inductive PoolReply (A : Type) : Type :=
| Resolved (res : A)
| Rejected (message : string).
Arguments Resolved {A} res.
Arguments Rejected {A} message.

(** ** lib/db.ts: [query] *)

(** What one call of [query] does to the outside: calls of [pool.query] and
    the [setTimeout] delays between them, in milliseconds. *)
Inductive Event : Type :=
| Attempt
| Sleep (ms : Z).

Definition maxRetries : Z := 3.

(** [error.message && (... includes ...)] *)
Definition isRetriableError (message : string) : bool :=
  truthy message
  && (includes message "Connection terminated"
      || includes message "timeout"
      || includes message "connection").

Section QueryExecutor.

Context {State : Type} {Stmt : Type -> Type}.

(** [!pool] *)
Variable pool_is_null : State -> bool.
(** [await initPool()], on the executor's state *)
Variable init_pool : State -> bool * State.
(** [await pool.query(text, params)]: a statement carries its parameters. *)
Variable pool_query : forall A, Stmt A -> State -> PoolReply A * State.

(** The [while (currentRetry < maxRetries)] loop.  [variant] is the loop
    variant [maxRetries - currentRetry]; when it reaches zero the condition
    is false and the statement after the loop, [throw lastError], runs. *)
Fixpoint query_loop {A} (variant : nat) (text : Stmt A) (currentRetry : Z)
    (lastError : Exn) (st : State) (log : list Event)
  : Outcome A * State * list Event :=
  match variant with
  | O => (Thrown lastError, st, log)
  | S variant' =>
      if currentRetry <? maxRetries then
        match pool_query A text st with
        | (Resolved res, st') => (Returned res, st', log ++ [Attempt])
        | (Rejected message, st') =>
            if isRetriableError message && (currentRetry <? maxRetries - 1)
            then
              let currentRetry := currentRetry + 1 in
              let delay := 1000 * 2 ^ (currentRetry - 1) in
              query_loop variant' text currentRetry (JsError message) st'
                (log ++ [Attempt; Sleep delay])
            else (Thrown (JsError message), st', log ++ [Attempt])
        end
      else (Thrown lastError, st, log)
  end.

Definition query {A} (text : Stmt A) (st : State)
  : Outcome A * State * list Event :=
  if pool_is_null st then
    let (initialized, st1) := init_pool st in
    if negb initialized then
      (Thrown (JsError "Database connection failed: Pool not initialized"),
       st1, [])
    else query_loop (Z.to_nat maxRetries) text 0 JsNull st1 []
  else query_loop (Z.to_nat maxRetries) text 0 JsNull st [].

(** The reply of the [k]-th call of [pool.query] (counting from 0) when the
    same statement is issued again and again from [st], and the state the
    pool is left in. *)
Fixpoint nth_attempt {A} (text : Stmt A) (k : nat) (st : State)
  : PoolReply A * State :=
  match k with
  | O => pool_query A text st
  | S k' => nth_attempt text k' (snd (pool_query A text st))
  end.

End QueryExecutor.

(** The outside view of a call that retried [n] times. *)
Definition retry_log (n : nat) : list Event :=
  match n with
  | 0%nat => [Attempt]
  | 1%nat => [Attempt; Sleep 1000; Attempt]
  | _ => [Attempt; Sleep 1000; Attempt; Sleep 2000; Attempt]
  end.

(** What [query] hands back for the last reply of the pool. *)
Definition outcome_of_reply {A} (r : PoolReply A) : Outcome A :=
  match r with
  | Resolved res => Returned res
  | Rejected message => Thrown (JsError message)
  end.

(** The spec's words: a message "containing connection/timeout indicators". *)
Definition contains (s needle : string) : Prop :=
  exists pre post, s = pre +:+ needle +:+ post.

Definition transient (message : string) : Prop :=
  contains message "Connection terminated"
  \/ contains message "timeout"
  \/ contains message "connection".

(** Example pool for the executor: the statement [SELECT 1] against a pool
    that loses its connection on the first two calls. *)
Inductive ProbeStmt : Type -> Type :=
| SelectOne : ProbeStmt Z.

Definition flaky_pool (A : Type) (text : ProbeStmt A) (calls : nat)
  : PoolReply A * nat :=
  match text in ProbeStmt T return PoolReply T * nat with
  | SelectOne =>
      if (calls <? 2)%nat
      then (Rejected "Connection terminated unexpectedly", S calls)
      else (Resolved 1, S calls)
  end.

(** The pool is ready for a statement when it exists or [initPool] reports
    success; [after_init] is the state the first [pool.query] then sees. *)
Definition pool_ready {State} (pool_is_null : State -> bool)
    (init_pool : State -> bool * State) (st : State) : bool :=
  if pool_is_null st then fst (init_pool st) else true.

Definition after_init {State} (pool_is_null : State -> bool)
    (init_pool : State -> bool * State) (st : State) : State :=
  if pool_is_null st then snd (init_pool st) else st.

(** ** lib/db.ts: the connection manager *)

(** What [initPool] finds when it runs. *)
Record Env : Type := {
  (** [typeof window !== "undefined"] *)
  in_browser : bool;
  (** the dynamic [import("pg")] resolves *)
  pg_available : bool;
  (** [process.env.DATABASE_URL] *)
  DATABASE_URL : option string;
  (** [new pg.Pool(...)] or [pool.on(...)] throws *)
  pool_constructor_throws : bool;
  (** the verification query [SELECT NOW()] resolves *)
  server_reachable : bool
}.

(** The module variable [pool] holds [null], the object built by
    [createMockPool], or a [pg.Pool]. *)
Inductive Pool : Type :=
| MockPool
| PgPool (connectionString : string).

Definition createMockPool : Pool := MockPool.

(** [initPool]: the flag it returns and the new value of [pool]. *)
Definition initPool (env : Env) (pool : option Pool) : bool * option Pool :=
  if in_browser env then (true, Some createMockPool)
  else if negb (pg_available env) then (true, Some createMockPool)
  else
    match DATABASE_URL env with
    | None => (false, pool)
    | Some url =>
        if negb (truthy url) then (false, pool)
        else if pool_constructor_throws env then (true, Some createMockPool)
        else if server_reachable env then (true, Some (PgPool url))
        else (false, Some (PgPool url))
    end.

(** [ensureDatabaseConnection].  [initPool] has no throwing path, so the
    [catch] of the source has nothing to catch. *)
Definition ensureDatabaseConnection (env : Env) (pool : option Pool)
  : bool * option Pool :=
  match pool with
  | None => initPool env pool
  | Some _ => (true, pool)
  end.

(** The ways the spec lists for a real pooled connection not to come about. *)
Definition no_real_pool (env : Env) : Prop :=
  in_browser env = true
  \/ pg_available env = false
  \/ DATABASE_URL env = None.

(** ** The administrative endpoints *)

Inductive Json : Type :=
| JString (s : string)
| JBool (b : bool).

(** [NextResponse.json(body, { status })]; the status is 200 when the second
    argument is left out. *)
Record Response : Type := {
  http_status : Z;
  body : list (string * Json)
}.

Definition json (body : list (string * Json)) (status : option Z) : Response :=
  {| http_status := match status with Some code => code | None => 200 end;
     body := body |}.

(** [error instanceof Error ? error.message : fallback] *)
Definition message_or (error : Exn) (fallback : string) : string :=
  match error with
  | JsError message => message
  | JsNull => fallback
  end.

(** A payload that embeds an error. *)
Definition error_payload (r : Response) : Prop :=
  exists message,
    body r = [("status", JString "error"); ("message", JString message)].

(** app/api/db-check/route.ts *)
Module DbCheck.

Section Handler.
(** [new URL(s).hostname], or [None] when the constructor throws. *)
Variable hostname : string -> option string.

Definition GET (DATABASE_URL : option string) : Response :=
  match DATABASE_URL with
  | None =>
      json [("status", JString "error");
            ("message",
             JString "Supabase DATABASE_URL environment variable not set")]
        (Some 200)
  | Some url =>
      if negb (truthy url) then
        json [("status", JString "error");
              ("message",
               JString "Supabase DATABASE_URL environment variable not set")]
          (Some 200)
      else
        let databaseInfo :=
          match hostname url with
          | Some host => host +:+ " (Supabase)"
          | None => "unknown"
          end in
        json [("status", JString "ok");
              ("message", JString "Supabase URL is valid");
              ("database", JString databaseInfo)]
          None
  end.
End Handler.

End DbCheck.

(** app/api/db-reset/route.ts *)
Module DbReset.

Section Handler.
Context {World : Type}.
Variable resetDatabase : World -> Outcome bool * World.
Variable seedInitialData : World -> Outcome bool * World.

Definition caught (error : Exn) : Response :=
  json [("status", JString "error");
        ("message",
         JString (message_or error
                    "Unknown error resetting Supabase database"))]
    (Some 200).

Definition GET (w : World) : Response * World :=
  match resetDatabase w with
  | (Thrown error, w1) => (caught error, w1)
  | (Returned false, w1) =>
      (json [("status", JString "error");
             ("message", JString "Failed to reset Supabase database")]
         (Some 200), w1)
  | (Returned true, w1) =>
      match seedInitialData w1 with
      | (Thrown error, w2) => (caught error, w2)
      | (Returned false, w2) =>
          (json [("status", JString "error");
                 ("message",
                  JString "Failed to seed initial data in Supabase")]
             (Some 200), w2)
      | (Returned true, w2) =>
          (json [("status", JString "success");
                 ("message",
                  JString "Supabase database reset and seeded successfully")]
             None, w2)
      end
  end.
End Handler.

End DbReset.

(** app/api/db-init/route.ts *)
Module DbInit.

Section Handler.
Context {World : Type}.
Variable ensureDatabaseConnection : World -> Outcome bool * World.
Variable initDatabase : World -> Outcome bool * World.
Variable migrateDatabase : World -> Outcome bool * World.
Variable seedInitialData : World -> Outcome bool * World.

Definition caught (error : Exn) : Response :=
  json [("success", JBool false);
        ("message",
         JString (message_or error "Unknown error initializing database"))]
    (Some 500).

Definition failed (message : string) : Response :=
  json [("success", JBool false); ("message", JString message)] (Some 500).

Definition GET (w : World) : Response * World :=
  match ensureDatabaseConnection w with
  | (Thrown error, w1) => (caught error, w1)
  | (Returned false, w1) => (failed "Failed to connect to database", w1)
  | (Returned true, w1) =>
      match initDatabase w1 with
      | (Thrown error, w2) => (caught error, w2)
      | (Returned false, w2) =>
          (failed "Failed to initialize database tables", w2)
      | (Returned true, w2) =>
          match migrateDatabase w2 with
          | (Thrown error, w3) => (caught error, w3)
          | (Returned false, w3) =>
              (failed "Failed to migrate database schema", w3)
          | (Returned true, w3) =>
              match seedInitialData w3 with
              | (Thrown error, w4) => (caught error, w4)
              | (Returned seeded, w4) =>
                  (json [("success", JBool true);
                         ("message",
                          JString "Database initialized, migrated, and seeded successfully");
                         ("seeded", JBool seeded)]
                     None, w4)
              end
          end
      end
  end.

(** The three steps whose failure the handler reports. *)
Definition setup_succeeds (w : World) : bool :=
  match ensureDatabaseConnection w with
  | (Returned true, w1) =>
      match initDatabase w1 with
      | (Returned true, w2) =>
          match migrateDatabase w2 with
          | (Returned true, w3) =>
              match seedInitialData w3 with
              | (Returned _, _) => true
              | (Thrown _, _) => false
              end
          | _ => false
          end
      | _ => false
      end
  | _ => false
  end.
End Handler.

End DbInit.

(** The connection manager as the first step of db-init: the world is the
    module variable [pool]. *)
Definition connect (env : Env) (pool : option Pool)
  : Outcome bool * option Pool :=
  let (connected, pool') := ensureDatabaseConnection env pool in
  (Returned connected, pool').

(** A server with the driver installed and no [DATABASE_URL]. *)
Definition env_without_url : Env :=
  {| in_browser := false;
     pg_available := true;
     DATABASE_URL := None;
     pool_constructor_throws := false;
     server_reachable := true |}.

(** A browser. *)
Definition env_browser : Env :=
  {| in_browser := true;
     pg_available := false;
     DATABASE_URL := None;
     pool_constructor_throws := false;
     server_reachable := false |}.

(** db-reset has done its work when both steps return [true]. *)
Definition reset_succeeds {World : Type}
    (resetDatabase seedInitialData : World -> Outcome bool * World)
    (w : World) : bool :=
  match resetDatabase w with
  | (Returned true, w1) =>
      match seedInitialData w1 with
      | (Returned true, _) => true
      | _ => false
      end
  | _ => false
  end.

(** A step that succeeds and leaves the world alone. *)
Definition succeed {World : Type} (w : World) : Outcome bool * World :=
  (Returned true, w).

(** ** Async functions over a mutable world *)

(** An async function that reads and writes a world [W]: awaiting it gives a
    value or a thrown error, and the world it leaves behind. *)
Definition Async (W A : Type) : Type := W -> Outcome A * W.

Definition ret {W A} (a : A) : Async W A := fun w => (Returned a, w).

Definition throw {W A} (e : Exn) : Async W A := fun w => (Thrown e, w).

Definition bind {W A B} (m : Async W A) (k : A -> Async W B) : Async W B :=
  fun w =>
    match m w with
    | (Returned a, w') => k a w'
    | (Thrown e, w') => (Thrown e, w')
    end.

(** [try { m } catch (error) { handler(error) }] *)
Definition try_catch {W A} (m : Async W A) (handler : Exn -> Async W A)
  : Async W A :=
  fun w =>
    match m w with
    | (Returned a, w') => (Returned a, w')
    | (Thrown e, w') => handler e w'
    end.

Notation "'await' x <- m ; k" := (bind m (fun x => k))
  (at level 10, x name, m at level 100, k at level 200, only parsing).

(** ** lib/db.ts: the schema migrator *)

Module Catalog.

(** The statements of [initDatabase] and [migrateDatabase].  A table is
    given by its column names and the tables its columns reference; every
    table these statements create has [id SERIAL PRIMARY KEY], and every
    reference is [INTEGER REFERENCES table(id)]. *)
Inductive Sql : Type :=
| SelectTest
| SelectColumn (table_name column_name : string)
| SelectTable (table_name : string)
| AlterTableAddColumns (table : string) (columns : list string)
| CreateTableIfNotExists (table : string) (columns : list string)
    (references : list string)
| CreateOrReplaceFunction (name : string).

Inductive Stmt : Type -> Type :=
| Text (sql : Sql) : Stmt (list string).

(** The catalog of the database, and the statements the server has
    received, oldest first.  [keys] are the tables whose column [id] is an
    integer primary key, which is what [INTEGER REFERENCES table(id)] asks
    of the table it names. *)
Record t : Type := {
  tables : gmap string (gset string);
  keys : gset string;
  functions : gset string;
  journal : list Sql
}.

Definition has_table (db : t) (table : string) : bool :=
  match tables db !! table with
  | Some _ => true
  | None => false
  end.

Definition has_column (db : t) (table column : string) : bool :=
  match tables db !! table with
  | Some columns => bool_decide (column ∈ columns)
  | None => false
  end.

(** Whether [INTEGER REFERENCES table(id)] can be declared. *)
Definition has_key (db : t) (table : string) : bool :=
  bool_decide (table ∈ keys db).

Inductive SqlError : Type :=
| UndefinedTable
| DuplicateColumn
| InvalidForeignKey.

Definition sqlerrm (e : SqlError) : string :=
  match e with
  | UndefinedTable => "relation does not exist"
  | DuplicateColumn => "column of relation already exists"
  | InvalidForeignKey =>
      "there is no unique constraint matching given keys for referenced table"
  end.

(** The effect of a statement on the catalog and the rows it returns. *)
Definition apply (sql : Sql) (db : t)
  : SqlError + list string * gmap string (gset string) * gset string :=
  match sql with
  | SelectTest => inr (["1"], tables db, functions db)
  | SelectColumn table column =>
      inr (if has_column db table column then [column] else [],
           tables db, functions db)
  | SelectTable table =>
      inr (if has_table db table then [table] else [],
           tables db, functions db)
  | AlterTableAddColumns table columns =>
      match tables db !! table with
      | None => inl UndefinedTable
      | Some old =>
          if existsb (has_column db table) columns then inl DuplicateColumn
          else inr ([], <[table := old ∪ list_to_set columns]> (tables db),
                    functions db)
      end
  | CreateTableIfNotExists table columns references =>
      if has_table db table then inr ([], tables db, functions db)
      else if negb (forallb (has_table db) references) then inl UndefinedTable
      else if negb (forallb (has_key db) references) then inl InvalidForeignKey
      else inr ([], <[table := list_to_set columns]> (tables db),
                functions db)
  | CreateOrReplaceFunction name =>
      inr ([], tables db, {[name]} ∪ functions db)
  end.

(** The primary keys after a statement that went through: a table that is
    created has one. *)
Definition keys_after (sql : Sql) (db : t) : gset string :=
  match sql with
  | CreateTableIfNotExists table _ _ =>
      if has_table db table then keys db else {[table]} ∪ keys db
  | _ => keys db
  end.

(** [pool.query] of a pg pool connected to this database. *)
Definition exec (A : Type) (text : Stmt A) (db : t) : PoolReply A * t :=
  match text in Stmt T return PoolReply T * t with
  | Text sql =>
      match apply sql db with
      | inr (rows, tables', functions') =>
          (Resolved rows,
           {| tables := tables'; keys := keys_after sql db;
              functions := functions'; journal := journal db ++ [sql] |})
      | inl e =>
          (Rejected (sqlerrm e),
           {| tables := tables db; keys := keys db;
              functions := functions db; journal := journal db ++ [sql] |})
      end
  end.

(** [query] of lib/db.ts with the pool in place ([!pool] is false). *)
Definition query (sql : Sql) : Async t (list string) :=
  fun db =>
    let '(out, db', _) :=
      query (fun _ => false) (fun db => (true, db)) exec (Text sql) db in
    (out, db').

Definition customers_columns : list string :=
  ["id"; "name"; "phone"; "email"; "visits"; "last_visit"; "created_at"].
Definition services_columns : list string :=
  ["id"; "name"; "duration"; "price"; "description"; "created_at"].
Definition appointments_columns : list string :=
  ["id"; "customer_id"; "service_id"; "date"; "time"; "duration"; "status";
   "notes"; "payment_status"; "payment_method"; "created_at"].
Definition products_columns : list string :=
  ["id"; "name"; "category"; "price"; "stock"; "description"; "created_at"].
Definition sales_columns : list string :=
  ["id"; "appointment_id"; "customer_id"; "total"; "payment_method"; "date";
   "created_at"].
Definition sale_items_columns : list string :=
  ["id"; "sale_id"; "item_id"; "item_type"; "name"; "price"; "quantity";
   "created_at"].

Definition create_products : Sql :=
  CreateTableIfNotExists "products" products_columns [].
Definition create_sales : Sql :=
  CreateTableIfNotExists "sales" sales_columns ["appointments"; "customers"].
Definition create_sale_items : Sql :=
  CreateTableIfNotExists "sale_items" sale_items_columns ["sales"].

(** [rows.length === 0] *)
Definition empty (rows : list string) : bool := (length rows =? 0)%nat.

(** The body of the [try] block of [initDatabase]. *)
Definition initialization : Async t unit :=
  await testResult <- query SelectTest;
  await _ <- query (CreateTableIfNotExists "customers" customers_columns []);
  await _ <- query (CreateTableIfNotExists "services" services_columns []);
  await _ <- query (CreateTableIfNotExists "appointments"
                      appointments_columns ["customers"; "services"]);
  await _ <- query create_products;
  await _ <- query create_sales;
  await _ <- query create_sale_items;
  ret tt.

Definition initDatabase (db : t) : bool * t :=
  match initialization db with
  | (Returned _, db') => (true, db')
  | (Thrown _, db') => (false, db')
  end.

(** The body of the [try] block of [migrateDatabase]. *)
Definition migration : Async t unit :=
  await paymentStatusExists <-
    query (SelectColumn "appointments" "payment_status");
  await _ <-
    (if empty paymentStatusExists
     then query (AlterTableAddColumns "appointments" ["payment_status"])
     else ret []);
  await paymentMethodExists <-
    query (SelectColumn "appointments" "payment_method");
  await _ <-
    (if empty paymentMethodExists
     then query (AlterTableAddColumns "appointments" ["payment_method"])
     else ret []);
  await productsTableExists <- query (SelectTable "products");
  await _ <-
    (if empty productsTableExists then query create_products else ret []);
  await salesTableExists <- query (SelectTable "sales");
  await _ <-
    (if empty salesTableExists then query create_sales else ret []);
  await saleItemsTableExists <- query (SelectTable "sale_items");
  await _ <-
    (if empty saleItemsTableExists then query create_sale_items
     else
       await itemIdExists <- query (SelectColumn "sale_items" "item_id");
       if empty itemIdExists
       then query (AlterTableAddColumns "sale_items"
                     ["item_id"; "item_type"; "name"; "quantity"])
       else ret []);
  await _ <- query (CreateOrReplaceFunction "public.init_sale_items_table");
  ret tt.

(** [migrateDatabase], with the pool in place. *)
Definition migrateDatabase (db : t) : bool * t :=
  match migration db with
  | (Returned _, db') => (true, db')
  | (Thrown _, db') => (false, db')
  end.

(** The statements a run sends to the server. *)
Definition issued (run : t -> bool * t) (db : t) : list Sql :=
  drop (length (journal db)) (journal (snd (run db))).

Definition is_alter_or_create (sql : Sql) : bool :=
  match sql with
  | AlterTableAddColumns _ _ | CreateTableIfNotExists _ _ _
  | CreateOrReplaceFunction _ => true
  | _ => false
  end.

Definition is_table_change (sql : Sql) : bool :=
  match sql with
  | AlterTableAddColumns _ _ | CreateTableIfNotExists _ _ _ => true
  | _ => false
  end.

Definition is_read (sql : Sql) : bool :=
  match sql with
  | SelectTest | SelectColumn _ _ | SelectTable _ => true
  | _ => false
  end.

(** An empty database. *)
Definition blank : t :=
  {| tables := ∅; keys := ∅; functions := ∅; journal := [] |}.

(** The tables that [initDatabase] and [migrateDatabase] reference. *)
Definition referenced : list string :=
  ["customers"; "services"; "appointments"; "sales"].

(** Each referenced table that is there already has its primary key. *)
Definition referable (db : t) : bool :=
  forallb (fun table => negb (has_table db table) || has_key db table)
    referenced.

(** The statements of a run on a migrated schema. *)
Definition rerun_statements : list Sql :=
  [SelectColumn "appointments" "payment_status";
   SelectColumn "appointments" "payment_method";
   SelectTable "products";
   SelectTable "sales";
   SelectTable "sale_items";
   SelectColumn "sale_items" "item_id";
   CreateOrReplaceFunction "public.init_sale_items_table"].

End Catalog.

(** A catalog on which every check of the migrator finds what it looks for. *)
Definition migrated (db : Catalog.t) : Prop :=
  Catalog.has_column db "appointments" "payment_status" = true
  /\ Catalog.has_column db "appointments" "payment_method" = true
  /\ Catalog.has_table db "products" = true
  /\ Catalog.has_table db "sales" = true
  /\ Catalog.has_table db "sale_items" = true
  /\ Catalog.has_column db "sale_items" "item_id" = true.

(** The migrator only adds: [db'] has every table and column of [db]. *)
Definition extends (db db' : Catalog.t) : Prop :=
  (forall table, Catalog.has_table db table = true ->
                 Catalog.has_table db' table = true)
  /\ (forall table column, Catalog.has_column db table column = true ->
                           Catalog.has_column db' table column = true).

(** A database of the first release: no payment columns on appointments, no
    products, and sale items with the old column set. *)
Definition first_release : Catalog.t :=
  {| Catalog.keys :=
       list_to_set ["customers"; "services"; "appointments"; "sales";
                    "sale_items"];
     Catalog.tables :=
       {[ "customers" := list_to_set Catalog.customers_columns;
          "services" := list_to_set Catalog.services_columns;
          "appointments" :=
            list_to_set ["id"; "customer_id"; "service_id"; "date"; "time";
                         "duration"; "status"; "notes"; "created_at"];
          "sales" := list_to_set Catalog.sales_columns;
          "sale_items" :=
            list_to_set ["id"; "sale_id"; "service_id"; "price";
                         "created_at"] ]};
     Catalog.functions := ∅;
     Catalog.journal := [] |}.

(** ** The six tables of [initDatabase]

    One record per table, one field per column ([created_at] is left out: no
    action reads it).  DECIMAL(10, 2) values are hundredths; a DATE is its
    text YYYY-MM-DD and a TIME its text HH:MM:SS. *)

Record Customer : Type := {
  c_id : Z;
  c_name : string;
  c_phone : string;
  c_email : string;
  c_visits : Z;
  c_last_visit : option string
}.

Record Service : Type := {
  s_id : Z;
  s_name : string;
  s_duration : Z;
  s_price : Z;
  s_description : string
}.

Record Appointment : Type := {
  a_id : Z;
  a_customer_id : Z;
  a_service_id : Z;
  a_date : string;
  a_time : string;
  a_duration : Z;
  a_status : string;
  a_notes : string;
  a_payment_status : string;
  a_payment_method : option string
}.

Record Product : Type := {
  p_id : Z;
  p_name : string;
  p_category : string;
  p_price : Z;
  p_stock : Z;
  p_description : string
}.

(** ["card" | "cash"] *)
Inductive PaymentMethod : Type :=
| card
| cash.

Record Sale : Type := {
  sale_id : Z;
  sale_appointment_id : option Z;
  sale_customer_id : option Z;
  sale_total : Z;
  sale_payment_method : PaymentMethod;
  sale_date : string
}.

Record SaleItem : Type := {
  si_id : Z;
  si_sale_id : Z;
  si_item_id : option Z;
  si_item_type : string;
  si_name : string;
  si_price : Z;
  si_quantity : Z
}.

(** ** What a column takes

    The values of a row as the server stores them.  VARCHAR(n) takes at most
    [n] characters, and cuts off the spaces in excess; INTEGER is 32 bits
    wide; DECIMAL(10, 2) stays below 10^8; a SERIAL key is numbered by a
    sequence that ends at 2^31 - 1.

    DATE and TIME are read from a text.  The application sends ISO 8601,
    YYYY-MM-DD and HH:MM: this is the spelling the model reads, with the
    days of the calendar and the times of the day, and it refuses every
    other text.  The server also reads other spellings of a date and of a
    time where the model refuses them, so a refusal by the model that rests
    on the spelling alone says nothing about the server.  A DATE is kept as its text YYYY-MM-DD, which is how the
    server writes it, and a TIME as HH:MM:SS. *)

(** A number in a template literal. *)
Definition string_of_Z (z : Z) : string := NilZero.string_of_int (Z.to_int z).

Module Column.

(** The bytes 10xxxxxx continue a character of a UTF-8 text. *)
Definition continuation (a : Ascii.ascii) : bool :=
  let n := Ascii.N_of_ascii a in
  (128 <=? n)%N && (n <? 192)%N.

(** [char_length(s)] *)
Fixpoint char_length (s : string) : Z :=
  match s with
  | EmptyString => 0
  | String a rest => (if continuation a then 0 else 1) + char_length rest
  end.

(** The first [n] characters of a text, and what follows them. *)
Fixpoint split_chars (n : nat) (s : string) : string * string :=
  match s with
  | EmptyString => (EmptyString, EmptyString)
  | String a rest =>
      if continuation a then
        let (kept, excess) := split_chars n rest in (String a kept, excess)
      else
        match n with
        | O => (EmptyString, s)
        | S m =>
            let (kept, excess) := split_chars m rest in (String a kept, excess)
        end
  end.

Fixpoint spaces (s : string) : bool :=
  match s with
  | EmptyString => true
  | String a rest => Ascii.eqb a (Ascii.ascii_of_nat 32) && spaces rest
  end.

(** The value a VARCHAR(n) column stores for a text, if it takes it. *)
Definition varchar (n : nat) (s : string) : option string :=
  let (kept, excess) := split_chars n s in
  if spaces excess then Some kept else None.

(** INTEGER *)
Definition integer (z : Z) : bool :=
  (-2147483648 <=? z) && (z <=? 2147483647).

(** DECIMAL(10, 2), in hundredths *)
Definition decimal (hundredths : Z) : bool :=
  Z.abs hundredths <? 10000000000.

(** Whether the sequence of a SERIAL key has a next value: its values run
    from 1 to 2^31 - 1. *)
Definition serial (next : Z) : bool := (1 <=? next) && (next <=? 2147483647).

(** Whether a column takes the text, and what it stores of a text that it
    takes. *)
Definition fits (n : nat) (s : string) : bool :=
  spaces (snd (split_chars n s)).

Definition kept (n : nat) (s : string) : string := fst (split_chars n s).

(** The value of a decimal digit. *)
Definition digit (a : Ascii.ascii) : option Z :=
  let n := Z.of_N (Ascii.N_of_ascii a) in
  if (48 <=? n) && (n <=? 57) then Some (n - 48) else None.

(** The number that a text of digits writes, after the digits read so
    far. *)
Fixpoint number (read : Z) (s : string) : option Z :=
  match s with
  | EmptyString => Some read
  | String a rest =>
      match digit a with
      | Some d => number (10 * read + d) rest
      | None => None
      end
  end.

(** The [n] digits from position [i] on. *)
Definition field (i n : nat) (s : string) : option Z :=
  let text := String.substring i n s in
  if (String.length text =? n)%nat then number 0 text else None.

Definition sign_at (i : nat) (sign : Ascii.ascii) (s : string) : bool :=
  match String.get i s with
  | Some a => Ascii.eqb a sign
  | None => false
  end.

Definition hyphen : Ascii.ascii := Ascii.ascii_of_nat 45.
Definition colon : Ascii.ascii := Ascii.ascii_of_nat 58.

Definition leap (year : Z) : bool :=
  ((year mod 4 =? 0) && negb (year mod 100 =? 0)) || (year mod 400 =? 0).

Definition days_in_month (year month : Z) : Z :=
  if month =? 2 then (if leap year then 29 else 28)
  else if (month =? 4) || (month =? 6) || (month =? 9) || (month =? 11)
       then 30 else 31.

(** Year, month and day of a text YYYY-MM-DD. *)
Definition read_day (s : string) : option (Z * Z * Z) :=
  if (String.length s =? 10)%nat && sign_at 4 hyphen s && sign_at 7 hyphen s
  then
    match field 0 4 s, field 5 2 s, field 8 2 s with
    | Some year, Some month, Some day => Some (year, month, day)
    | _, _, _ => None
    end
  else None.

(** DATE: a day of the calendar, from the year 1 on. *)
Definition date (s : string) : bool :=
  match read_day s with
  | Some (year, month, day) =>
      (1 <=? year) && (1 <=? month) && (month <=? 12) && (1 <=? day)
      && (day <=? days_in_month year month)
  | None => false
  end.

(** TIME: HH:MM or HH:MM:SS, stored as HH:MM:SS. *)
Definition time (s : string) : option string :=
  if sign_at 2 colon s then
    match field 0 2 s, field 3 2 s with
    | Some hour, Some minute =>
        if (hour <=? 23) && (minute <=? 59) then
          if (String.length s =? 5)%nat then Some (s +:+ ":00")
          else if (String.length s =? 8)%nat && sign_at 5 colon s then
            match field 6 2 s with
            | Some second => if second <=? 59 then Some s else None
            | None => None
            end
          else None
        else None
    | _, _ => None
    end
  else None.

Definition is_time (s : string) : bool :=
  match time s with
  | Some _ => true
  | None => false
  end.

Definition clock (s : string) : string :=
  match time s with
  | Some stored => stored
  | None => s
  end.

(** A number in [width] digits, with zeros in front. *)
Definition digits (width : nat) (n : Z) : string :=
  let text := string_of_Z n in
  String.concat "" (repeat "0" (width - String.length text)) +:+ text.

Definition write_day (year month day : Z) : string :=
  digits 4 year +:+ "-" +:+ digits 2 month +:+ "-" +:+ digits 2 day.

(** The day before a day. *)
Definition previous_day (s : string) : string :=
  match read_day s with
  | Some (year, month, day) =>
      if 1 <? day then write_day year month (day - 1)
      else if 1 <? month
           then write_day year (month - 1) (days_in_month year (month - 1))
           else write_day (year - 1) 12 31
  | None => s
  end.

End Column.

(** ** A DATE in the hands of the application

    node-postgres turns a DATE into a JavaScript [Date]: the midnight that
    begins the day in the time zone of the Node process.  In the rows of the
    model the text YYYY-MM-DD stands for that [Date].  Where the code formats
    it with [toISOString().split('T')[0]], it gets the day of that moment in
    UTC, which is the day before when the process runs ahead of UTC. *)

(** The time zone of the process: whether its clock is ahead of UTC at the
    midnight that begins a day (east of Greenwich). *)
Definition TimeZone : Type := string -> bool.

(** [value instanceof Date ? value.toISOString().split('T')[0] : value] on
    a DATE column. *)
Definition toISOString_day (ahead_of_utc : TimeZone) (day : string) : string :=
  if ahead_of_utc day then Column.previous_day day else day.

(** A process on UTC, and one in Istanbul (UTC+3). *)
Definition utc : TimeZone := fun _ => false.
Definition istanbul : TimeZone := fun _ => true.

(** ** The row store

    The tables, in the order in which the server returns the rows of a
    SELECT without ORDER BY.  The model keeps the place of a row that an
    UPDATE rewrites; the server may move it, so that what LIMIT 1 returns on
    one state is known, and what it returns after an UPDATE is not.

    [pool.query] takes a client from the pool for one statement.  The
    statements of an action run one after the other, so that each finds the
    client the one before gave back, and BEGIN, COMMIT and ROLLBACK bracket
    the statements between them.  When a statement fails, [pool.query] gives
    the client back with the error and the pool closes it: the server rolls
    back the transaction that was open on it, and the next statement runs on
    a new session. *)

Module Store.

Record Tables : Type := {
  customers : list Customer;
  services : list Service;
  appointments : list Appointment;
  products : list Product;
  sales : list Sale;
  sale_items : list SaleItem
}.

(** The next value of each SERIAL key. *)
Record Sequences : Type := {
  customers_id_seq : Z;
  services_id_seq : Z;
  appointments_id_seq : Z;
  products_id_seq : Z;
  sales_id_seq : Z;
  sale_items_id_seq : Z
}.

(** The transaction block of the session: none, or one in progress with
    the tables as they were at BEGIN. *)
Inductive Txn : Type :=
| Idle
| Open (snapshot : Tables).

Record Db : Type := {
  tables : Tables;
  seqs : Sequences;
  txn : Txn
}.

Inductive Command : Type :=
| BEGIN
| COMMIT
| ROLLBACK.

(** The statements of lib/actions.ts that the modelled actions send, with
    their parameters.  The index is the type of [rows], or of [rows[0]] for
    an INSERT ... RETURNING. *)
Inductive Data : Type -> Type :=
| SelectCustomerById (id : Z) : Data (list Customer)
| SelectCustomerLimit1 : Data (list Customer)
| SelectServiceById (id : Z) : Data (list Service)
| SelectServiceLimit1 : Data (list Service)
| SelectAppointmentById (id : Z) : Data (list Appointment)
| SelectProductById (id : Z) : Data (list Product)
| InsertAppointment (customer_id service_id : Z) (date time : string)
    (duration : Z) (status notes payment_status : string) : Data Appointment
| UpdateCustomerVisit (last_visit : string) (id : Z) : Data unit
| UpdateProductStock (quantity id : Z) : Data unit
| InsertSale (customer_id total : Z) (payment_method : PaymentMethod)
    (date : string) : Data Sale
| InsertSaleItem (sale item_id : Z) (item_type name : string)
    (price quantity : Z) : Data SaleItem
| InsertSaleItemLegacy (sale service_id price : Z) : Data SaleItem
| DeleteCustomer (id : Z) : Data unit
| DeleteService (id : Z) : Data unit
| DeleteAppointment (id : Z) : Data unit
| DeleteProduct (id : Z) : Data unit.

Inductive Stmt : Type -> Type :=
| Session (c : Command) : Stmt unit
| Sql {A : Type} (d : Data A) : Stmt A.

Inductive SqlError : Type :=
| UndefinedColumn
| InvalidDatetime
| IntegerOutOfRange
| ValueTooLong
| NumericFieldOverflow
| SequenceExhausted
| UniqueViolation
| ForeignKeyViolation.

Definition sqlerrm (e : SqlError) : string :=
  match e with
  | UndefinedColumn => "column of relation does not exist"
  | InvalidDatetime => "date/time field value out of range"
  | IntegerOutOfRange => "integer out of range"
  | ValueTooLong => "value too long for type character varying"
  | NumericFieldOverflow => "numeric field overflow"
  | SequenceExhausted => "nextval: reached maximum value of sequence"
  | UniqueViolation => "duplicate key value violates unique constraint"
  | ForeignKeyViolation =>
      "insert or update on table violates foreign key constraint"
  end.

Definition has_customer (t : Tables) (id : Z) : bool :=
  existsb (fun c => c_id c =? id) (customers t).
Definition has_service (t : Tables) (id : Z) : bool :=
  existsb (fun s => s_id s =? id) (services t).
Definition has_sale (t : Tables) (id : Z) : bool :=
  existsb (fun s => sale_id s =? id) (sales t).

(** [UPDATE customers SET last_visit = $1, visits = visits + 1] on a row *)
Definition visit (last_visit : string) (c : Customer) : Customer :=
  {| c_id := c_id c; c_name := c_name c; c_phone := c_phone c;
     c_email := c_email c; c_visits := c_visits c + 1;
     c_last_visit := Some last_visit |}.

(** [UPDATE products SET stock = stock - $1] on a row *)
Definition take (quantity : Z) (p : Product) : Product :=
  {| p_id := p_id p; p_name := p_name p; p_category := p_category p;
     p_price := p_price p; p_stock := p_stock p - quantity;
     p_description := p_description p |}.

(** ON DELETE SET NULL on [sales.customer_id] and [sales.appointment_id] *)
Definition forget_customer (id : Z) (s : Sale) : Sale :=
  {| sale_id := sale_id s; sale_appointment_id := sale_appointment_id s;
     sale_customer_id :=
       match sale_customer_id s with
       | Some c => if c =? id then None else Some c
       | None => None
       end;
     sale_total := sale_total s;
     sale_payment_method := sale_payment_method s;
     sale_date := sale_date s |}.

Definition forget_appointments (dead : list Z) (s : Sale) : Sale :=
  {| sale_id := sale_id s;
     sale_appointment_id :=
       match sale_appointment_id s with
       | Some a => if existsb (Z.eqb a) dead then None else Some a
       | None => None
       end;
     sale_customer_id := sale_customer_id s;
     sale_total := sale_total s;
     sale_payment_method := sale_payment_method s;
     sale_date := sale_date s |}.

(** Deleting the appointments picked by [dead], with the SET NULL on the
    sales that point to them. *)
Definition delete_appointments (dead : Appointment -> bool) (t : Tables)
  : Tables :=
  let gone := map a_id (List.filter dead (appointments t)) in
  {| customers := customers t;
     services := services t;
     appointments := List.filter (fun a => negb (dead a)) (appointments t);
     products := products t;
     sales := map (forget_appointments gone) (sales t);
     sale_items := sale_items t |}.

(** What the server refuses when it reads a statement and its parameters,
    before it runs the statement: a column that does not exist, a number
    that is no INTEGER, a text that is no date or no time, and a text or a
    number that the column of an INSERT does not take.  A parameter that
    only picks rows by their key is not looked at: in the model a key that
    is no INTEGER picks no row. *)
Definition refused {A : Type} (d : Data A) : option SqlError :=
  match d with
  | InsertAppointment customer_id service_id date time duration status
      notes payment_status =>
      if negb (Column.integer customer_id && Column.integer service_id)
      then Some IntegerOutOfRange
      else if negb (Column.date date && Column.is_time time)
      then Some InvalidDatetime
      else if negb (Column.integer duration) then Some IntegerOutOfRange
      else if negb (Column.fits 50 status && Column.fits 50 payment_status)
      then Some ValueTooLong
      else None
  | UpdateCustomerVisit last_visit id =>
      if negb (Column.date last_visit) then Some InvalidDatetime else None
  | UpdateProductStock quantity id =>
      if negb (Column.integer quantity) then Some IntegerOutOfRange else None
  | InsertSale customer_id total payment_method date =>
      if negb (Column.integer customer_id) then Some IntegerOutOfRange
      else if negb (Column.date date) then Some InvalidDatetime
      else if negb (Column.decimal total) then Some NumericFieldOverflow
      else None
  | InsertSaleItem sale item_id item_type name price quantity =>
      if negb (Column.integer sale && Column.integer item_id
               && Column.integer quantity)
      then Some IntegerOutOfRange
      else if negb (Column.fits 50 item_type && Column.fits 255 name)
      then Some ValueTooLong
      else if negb (Column.decimal price) then Some NumericFieldOverflow
      else None
  | InsertSaleItemLegacy _ _ _ => Some UndefinedColumn
  | _ => None
  end.

(** The effect of a statement that the server runs, on the tables and the
    sequences, and what it returns.  An INSERT takes its key from the
    sequence first, and the sequence keeps what it gave when the key or a
    reference is refused afterwards. *)
Definition run {A : Type} (d : Data A) (t : Tables) (q : Sequences)
  : SqlError * Sequences + A * Tables * Sequences :=
  match d in Data T return SqlError * Sequences + T * Tables * Sequences with
  | SelectCustomerById id =>
      inr (List.filter (fun c => c_id c =? id) (customers t), t, q)
  | SelectCustomerLimit1 => inr (firstn 1 (customers t), t, q)
  | SelectServiceById id =>
      inr (List.filter (fun s => s_id s =? id) (services t), t, q)
  | SelectServiceLimit1 => inr (firstn 1 (services t), t, q)
  | SelectAppointmentById id =>
      inr (List.filter (fun a => a_id a =? id) (appointments t), t, q)
  | SelectProductById id =>
      inr (List.filter (fun p => p_id p =? id) (products t), t, q)
  | InsertAppointment customer_id service_id date time duration status
      notes payment_status =>
      let row :=
        {| a_id := appointments_id_seq q;
           a_customer_id := customer_id;
           a_service_id := service_id;
           a_date := date;
           a_time := Column.clock time;
           a_duration := duration;
           a_status := Column.kept 50 status;
           a_notes := notes;
           a_payment_status := Column.kept 50 payment_status;
           a_payment_method := None |} in
      let q' :=
        {| customers_id_seq := customers_id_seq q;
           services_id_seq := services_id_seq q;
           appointments_id_seq := appointments_id_seq q + 1;
           products_id_seq := products_id_seq q;
           sales_id_seq := sales_id_seq q;
           sale_items_id_seq := sale_items_id_seq q |} in
      if negb (Column.serial (appointments_id_seq q))
      then inl (SequenceExhausted, q)
      else if existsb (fun a => a_id a =? appointments_id_seq q)
                (appointments t)
      then inl (UniqueViolation, q')
      else if has_customer t customer_id && has_service t service_id then
        inr (row,
             {| customers := customers t;
                services := services t;
                appointments := appointments t ++ [row];
                products := products t;
                sales := sales t;
                sale_items := sale_items t |},
             q')
      else inl (ForeignKeyViolation, q')
  | UpdateCustomerVisit last_visit id =>
      if existsb (fun c => (c_id c =? id)
                           && negb (Column.integer (c_visits c + 1)))
           (customers t)
      then inl (IntegerOutOfRange, q)
      else
        inr (tt,
             {| customers :=
                  map (fun c => if c_id c =? id then visit last_visit c else c)
                    (customers t);
                services := services t;
                appointments := appointments t;
                products := products t;
                sales := sales t;
                sale_items := sale_items t |},
             q)
  | UpdateProductStock quantity id =>
      if existsb (fun p => (p_id p =? id)
                           && negb (Column.integer (p_stock p - quantity)))
           (products t)
      then inl (IntegerOutOfRange, q)
      else
        inr (tt,
             {| customers := customers t;
                services := services t;
                appointments := appointments t;
                products :=
                  map (fun p => if p_id p =? id then take quantity p else p)
                    (products t);
                sales := sales t;
                sale_items := sale_items t |},
             q)
  | InsertSale customer_id total payment_method date =>
      let row :=
        {| sale_id := sales_id_seq q;
           sale_appointment_id := None;
           sale_customer_id := Some customer_id;
           sale_total := total;
           sale_payment_method := payment_method;
           sale_date := date |} in
      let q' :=
        {| customers_id_seq := customers_id_seq q;
           services_id_seq := services_id_seq q;
           appointments_id_seq := appointments_id_seq q;
           products_id_seq := products_id_seq q;
           sales_id_seq := sales_id_seq q + 1;
           sale_items_id_seq := sale_items_id_seq q |} in
      if negb (Column.serial (sales_id_seq q))
      then inl (SequenceExhausted, q)
      else if existsb (fun s => sale_id s =? sales_id_seq q) (sales t)
      then inl (UniqueViolation, q')
      else if has_customer t customer_id then
        inr (row,
             {| customers := customers t;
                services := services t;
                appointments := appointments t;
                products := products t;
                sales := sales t ++ [row];
                sale_items := sale_items t |},
             q')
      else inl (ForeignKeyViolation, q')
  | InsertSaleItem sale item_id item_type name price quantity =>
      let row :=
        {| si_id := sale_items_id_seq q;
           si_sale_id := sale;
           si_item_id := Some item_id;
           si_item_type := Column.kept 50 item_type;
           si_name := Column.kept 255 name;
           si_price := price;
           si_quantity := quantity |} in
      let q' :=
        {| customers_id_seq := customers_id_seq q;
           services_id_seq := services_id_seq q;
           appointments_id_seq := appointments_id_seq q;
           products_id_seq := products_id_seq q;
           sales_id_seq := sales_id_seq q;
           sale_items_id_seq := sale_items_id_seq q + 1 |} in
      if negb (Column.serial (sale_items_id_seq q))
      then inl (SequenceExhausted, q)
      else if existsb (fun item => si_id item =? sale_items_id_seq q)
                (sale_items t)
      then inl (UniqueViolation, q')
      else if has_sale t sale then
        inr (row,
             {| customers := customers t;
                services := services t;
                appointments := appointments t;
                products := products t;
                sales := sales t;
                sale_items := sale_items t ++ [row] |},
             q')
      else inl (ForeignKeyViolation, q')
  | InsertSaleItemLegacy _ _ _ => inl (UndefinedColumn, q)
  | DeleteCustomer id =>
      let t1 := delete_appointments (fun a => a_customer_id a =? id) t in
      inr (tt,
           {| customers :=
                List.filter (fun c => negb (c_id c =? id)) (customers t1);
              services := services t1;
              appointments := appointments t1;
              products := products t1;
              sales := map (forget_customer id) (sales t1);
              sale_items := sale_items t1 |},
           q)
  | DeleteService id =>
      let t1 := delete_appointments (fun a => a_service_id a =? id) t in
      inr (tt,
           {| customers := customers t1;
              services :=
                List.filter (fun s => negb (s_id s =? id)) (services t1);
              appointments := appointments t1;
              products := products t1;
              sales := sales t1;
              sale_items := sale_items t1 |},
           q)
  | DeleteAppointment id =>
      inr (tt, delete_appointments (fun a => a_id a =? id) t, q)
  | DeleteProduct id =>
      inr (tt,
           {| customers := customers t;
              services := services t;
              appointments := appointments t;
              products :=
                List.filter (fun p => negb (p_id p =? id)) (products t);
              sales := sales t;
              sale_items := sale_items t |},
           q)
  end.

(** The effect of a data statement, or the error and the sequences it
    leaves. *)
Definition apply {A : Type} (d : Data A) (t : Tables) (q : Sequences)
  : SqlError * Sequences + A * Tables * Sequences :=
  match refused d with
  | Some e => inl (e, q)
  | None => run d t q
  end.

(** BEGIN, COMMIT and ROLLBACK.  A BEGIN inside a block and a COMMIT or
    ROLLBACK outside one only raise a warning. *)
Definition control (c : Command) (db : Db) : PoolReply unit * Db :=
  match c, txn db with
  | BEGIN, Idle =>
      (Resolved tt,
       {| tables := tables db; seqs := seqs db;
          txn := Open (tables db) |})
  | BEGIN, Open _ => (Resolved tt, db)
  | COMMIT, Idle => (Resolved tt, db)
  | COMMIT, Open _ =>
      (Resolved tt, {| tables := tables db; seqs := seqs db; txn := Idle |})
  | ROLLBACK, Idle => (Resolved tt, db)
  | ROLLBACK, Open snapshot =>
      (Resolved tt, {| tables := snapshot; seqs := seqs db; txn := Idle |})
  end.

(** The tables after the session is closed: what its transaction block did
    is undone. *)
Definition rolled_back (db : Db) : Tables :=
  match txn db with
  | Idle => tables db
  | Open snapshot => snapshot
  end.

(** A data statement inside or outside a transaction block.  An error
    closes the session: the block, if there is one, is rolled back, and the
    sequences keep what they gave. *)
Definition data {A : Type} (d : Data A) (db : Db) : PoolReply A * Db :=
  match apply d (tables db) (seqs db) with
  | inr (a, t', q') =>
      (Resolved a, {| tables := t'; seqs := q'; txn := txn db |})
  | inl (e, q') =>
      (Rejected (sqlerrm e),
       {| tables := rolled_back db; seqs := q'; txn := Idle |})
  end.

(** [pool.query] of a pg pool connected to this database. *)
Definition exec (A : Type) (text : Stmt A) (db : Db) : PoolReply A * Db :=
  match text in Stmt T return PoolReply T * Db with
  | Session c => control c db
  | Sql d => data d db
  end.

(** [query] of lib/db.ts with the pool in place ([!pool] is false). *)
Definition query {A : Type} (text : Stmt A) : Async Db A :=
  fun db =>
    let '(out, db', _) :=
      query (fun _ => false) (fun db => (true, db)) exec text db in
    (out, db').

End Store.

(** ** lib/actions.ts

    Every action starts with [await ensureDatabaseConnection()]; the actions
    below run with the pool in place.  [revalidatePath] touches the page
    cache only and is left out. *)

(** [{ success, message }] *)
Record ActionResult : Type := {
  success : bool;
  message : string
}.

Definition deleteCustomer (id : Z) : Async Store.Db ActionResult :=
  try_catch
    (await checkResult <-
       Store.query (Store.Sql (Store.SelectCustomerById id));
     if (length checkResult =? 0)%nat then
       ret {| success := false;
              message := "Customer with ID " +:+ string_of_Z id
                         +:+ " not found. The customer may have been deleted already." |}
     else
       (await _ <- Store.query (Store.Sql (Store.DeleteCustomer id));
        ret {| success := true; message := "Customer deleted successfully" |}))
    (fun error =>
       ret {| success := false;
              message := "Müşteri silinirken bir hata oluştu." |}).

Definition deleteService (id : Z) : Async Store.Db ActionResult :=
  try_catch
    (await checkResult <-
       Store.query (Store.Sql (Store.SelectServiceById id));
     if (length checkResult =? 0)%nat then
       ret {| success := false;
              message := "Service with ID " +:+ string_of_Z id
                         +:+ " not found. The service may have been deleted already." |}
     else
       (await _ <- Store.query (Store.Sql (Store.DeleteService id));
        ret {| success := true; message := "Service deleted successfully" |}))
    (fun error =>
       ret {| success := false;
              message := "Hizmet silinirken bir hata oluştu." |}).

Definition deleteAppointment (id : Z) : Async Store.Db ActionResult :=
  try_catch
    (await checkResult <-
       Store.query (Store.Sql (Store.SelectAppointmentById id));
     if (length checkResult =? 0)%nat then
       ret {| success := false;
              message := "Appointment with ID " +:+ string_of_Z id
                         +:+ " not found. The appointment may have been deleted already." |}
     else
       (await _ <- Store.query (Store.Sql (Store.DeleteAppointment id));
        ret {| success := true;
               message := "Appointment deleted successfully" |}))
    (fun error =>
       ret {| success := false;
              message := "Randevu silinirken bir hata oluştu." |}).

Definition deleteProduct (id : Z) : Async Store.Db ActionResult :=
  try_catch
    (await checkResult <-
       Store.query (Store.Sql (Store.SelectProductById id));
     if (length checkResult =? 0)%nat then
       ret {| success := false;
              message := "Product with ID " +:+ string_of_Z id
                         +:+ " not found. The product may have been deleted already." |}
     else
       (await _ <- Store.query (Store.Sql (Store.DeleteProduct id));
        ret {| success := true; message := "Product deleted successfully" |}))
    (fun error =>
       ret {| success := false;
              message := "Ürün silinirken bir hata oluştu." |}).

(** The entity types that have a delete action. *)
Inductive Entity : Type :=
| CustomerEntity
| ServiceEntity
| AppointmentEntity
| ProductEntity.

Definition deleteEntity (entity : Entity)
  : Z -> Async Store.Db ActionResult :=
  match entity with
  | CustomerEntity => deleteCustomer
  | ServiceEntity => deleteService
  | AppointmentEntity => deleteAppointment
  | ProductEntity => deleteProduct
  end.

(** Whether a row of the entity has the id. *)
Definition has_row (entity : Entity) (t : Store.Tables) (id : Z) : bool :=
  match entity with
  | CustomerEntity => existsb (fun c => c_id c =? id) (Store.customers t)
  | ServiceEntity => existsb (fun s => s_id s =? id) (Store.services t)
  | AppointmentEntity => existsb (fun a => a_id a =? id) (Store.appointments t)
  | ProductEntity => existsb (fun p => p_id p =? id) (Store.products t)
  end.

(** [NewAppointment].  A field that is left out is falsy: [0] or [""]. *)
Record NewAppointment : Type := {
  customer_id : Z;
  service_id : Z;
  date : string;
  time : string;
  duration : Z;
  status : string;
  notes : string
}.

(** The appointment [createAppointment] returns: the inserted row with the
    two names added. *)
Record AppointmentView : Type := {
  row : Appointment;
  customer_name : string;
  service_name : string
}.

Definition createAppointment (appointment : NewAppointment)
  : Async Store.Db AppointmentView :=
  try_catch
    (await customerResult <-
       Store.query (Store.Sql (Store.SelectCustomerById (customer_id appointment)));
     await serviceResult <-
       Store.query (Store.Sql (Store.SelectServiceById (service_id appointment)));
     await resolvedCustomer <-
       match customerResult with
       | [] =>
           await firstCustomerResult <-
             Store.query (Store.Sql Store.SelectCustomerLimit1);
           match firstCustomerResult with
           | first :: _ => ret (c_id first, c_name first)
           | [] => ret (customer_id appointment, "Unknown Customer")
           end
       | found :: _ => ret (customer_id appointment, c_name found)
       end;
     await resolvedService <-
       match serviceResult with
       | [] =>
           await firstServiceResult <-
             Store.query (Store.Sql Store.SelectServiceLimit1);
           match firstServiceResult with
           | first :: _ => ret (s_id first, s_name first)
           | [] => ret (service_id appointment, "Unknown Service")
           end
       | found :: _ => ret (service_id appointment, s_name found)
       end;
     let (actualCustomerId, customerName) := resolvedCustomer in
     let (actualServiceId, serviceName) := resolvedService in
     await result <-
       Store.query
         (Store.Sql
            (Store.InsertAppointment actualCustomerId actualServiceId
               (date appointment) (time appointment)
               (if duration appointment =? 0 then 30 else duration appointment)
               (if truthy (status appointment) then status appointment
                else "onaylandı")
               (if truthy (notes appointment) then notes appointment else "")
               "unpaid"));
     await _ <-
       (if (0 <? length customerResult)%nat
        then Store.query
               (Store.Sql
                  (Store.UpdateCustomerVisit (date appointment)
                     actualCustomerId))
        else ret tt);
     ret {| row := result;
            customer_name := customerName;
            service_name := serviceName |})
    (fun error => throw (JsError "Randevu oluşturulurken bir hata oluştu.")).

(** [{ productId, quantity }] *)
Record Item : Type := {
  productId : Z;
  quantity : Z
}.

(** An entry of [validatedItems]: [{ product, quantity }] *)
Record ValidatedItem : Type := {
  vi_product : Product;
  vi_quantity : Z
}.

(** The sale [createProductSale] returns. *)
Record SaleView : Type := {
  sv_sale : Sale;
  sv_customer_name : string;
  sv_items : list SaleItem
}.

(** [{ success, message, sale? }] *)
Record SaleResult : Type := {
  sr_success : bool;
  sr_message : string;
  sr_sale : option SaleView
}.

(** [{ ...item, quantity: parseInt(item.quantity || '1') }] *)
Definition view_item (item : SaleItem) : SaleItem :=
  {| si_id := si_id item; si_sale_id := si_sale_id item;
     si_item_id := si_item_id item; si_item_type := si_item_type item;
     si_name := si_name item; si_price := si_price item;
     si_quantity := if si_quantity item =? 0 then 1 else si_quantity item |}.

Definition failure (message : string) : SaleResult :=
  {| sr_success := false; sr_message := message; sr_sale := None |}.

(** The first loop of [createProductSale].  [inl] is a [return] out of the
    function from inside the loop. *)
Fixpoint validate_items (items : list Item) (total : Z)
    (validatedItems : list ValidatedItem)
  : Async Store.Db (SaleResult + Z * list ValidatedItem) :=
  match items with
  | [] => ret (inr (total, validatedItems))
  | item :: rest =>
      await productResult <-
        Store.query (Store.Sql (Store.SelectProductById (productId item)));
      match productResult with
      | [] =>
          await _ <- Store.query (Store.Session Store.ROLLBACK);
          ret (inl (failure ("Product with ID " +:+ string_of_Z (productId item)
                             +:+ " not found.")))
      | product :: _ =>
          if p_stock product <? quantity item then
            await _ <- Store.query (Store.Session Store.ROLLBACK);
            ret (inl (failure ("Not enough stock for " +:+ p_name product
                               +:+ ". Available: "
                               +:+ string_of_Z (p_stock product))))
          else
            validate_items rest
              (total + p_price product * quantity item)
              (validatedItems
               ++ [{| vi_product := product; vi_quantity := quantity item |}])
      end
  end.

(** The insert of one sale item, with the fallback to the old column set. *)
Definition insert_item (sale : Sale) (item : ValidatedItem)
    (saleItems : list SaleItem)
  : Async Store.Db (SaleResult + list SaleItem) :=
  try_catch
    (await saleItem <-
       Store.query
         (Store.Sql
            (Store.InsertSaleItem (sale_id sale) (p_id (vi_product item))
               "product" (p_name (vi_product item))
               (p_price (vi_product item)) (vi_quantity item)));
     ret (inr (saleItems ++ [saleItem])))
    (fun error =>
       match error with
       | JsNull =>
           throw (JsError "Cannot read properties of null (reading 'message')")
       | JsError message =>
           if truthy message && includes message "column"
              && includes message "does not exist"
           then
             try_catch
               (await saleItem <-
                  Store.query
                    (Store.Sql
                       (Store.InsertSaleItemLegacy (sale_id sale)
                          (p_id (vi_product item))
                          (p_price (vi_product item) * vi_quantity item)));
                ret (inr (saleItems ++ [saleItem])))
               (fun fallbackError =>
                  await _ <- Store.query (Store.Session Store.ROLLBACK);
                  ret (inl (failure
                              "Error creating sale item: database schema mismatch")))
           else
             await _ <- Store.query (Store.Session Store.ROLLBACK);
             ret (inl (failure ("Error creating sale item: " +:+ message)))
       end).

(** The second loop of [createProductSale]. *)
Fixpoint insert_items (sale : Sale) (validatedItems : list ValidatedItem)
    (saleItems : list SaleItem)
  : Async Store.Db (SaleResult + list SaleItem) :=
  match validatedItems with
  | [] => ret (inr saleItems)
  | item :: rest =>
      await inserted <- insert_item sale item saleItems;
      match inserted with
      | inl early => ret (inl early)
      | inr saleItems' =>
          await _ <-
            Store.query
              (Store.Sql
                 (Store.UpdateProductStock (vi_quantity item)
                    (p_id (vi_product item))));
          insert_items sale rest saleItems'
      end
  end.

(** [createProductSale]; [today] is [new Date().toISOString().split('T')[0]]. *)
Definition createProductSale (today : string) (customerId : Z)
    (items : list Item) (paymentMethod : PaymentMethod)
  : Async Store.Db SaleResult :=
  try_catch
    (await _ <- Store.query (Store.Session Store.BEGIN);
     await customerResult <-
       Store.query (Store.Sql (Store.SelectCustomerById customerId));
     match customerResult with
     | [] =>
         await _ <- Store.query (Store.Session Store.ROLLBACK);
         ret (failure "Customer not found.")
     | customer :: _ =>
         await validation <- validate_items items 0 [];
         match validation with
         | inl early => ret early
         | inr (total, validatedItems) =>
             await sale <-
               Store.query
                 (Store.Sql
                    (Store.InsertSale customerId total paymentMethod today));
             await inserted <- insert_items sale validatedItems [];
             match inserted with
             | inl early => ret early
             | inr saleItems =>
                 await _ <-
                   Store.query
                     (Store.Sql (Store.UpdateCustomerVisit today customerId));
                 await _ <- Store.query (Store.Session Store.COMMIT);
                 ret {| sr_success := true;
                        sr_message := "Sale created successfully";
                        sr_sale :=
                          Some {| sv_sale := sale;
                                  sv_customer_name := c_name customer;
                                  sv_items := map view_item saleItems |} |}
             end
         end
     end)
    (fun error =>
       await _ <- Store.query (Store.Session Store.ROLLBACK);
       ret (failure "Satış oluşturulurken bir hata oluştu.")).

(** ** A small shop, for the examples *)

Definition ahmet : Customer :=
  {| c_id := 1; c_name := "Ahmet Yılmaz"; c_phone := "555-1234";
     c_email := "ahmet@example.com"; c_visits := 12;
     c_last_visit := Some "2025-03-15" |}.

Definition ayse : Customer :=
  {| c_id := 2; c_name := "Ayşe Demir"; c_phone := "555-5678";
     c_email := "ayse@example.com"; c_visits := 8;
     c_last_visit := Some "2025-03-20" |}.

Definition haircut : Service :=
  {| s_id := 1; s_name := "Saç Kesimi"; s_duration := 30; s_price := 10000;
     s_description := "Standart saç kesimi ve şekillendirme" |}.

Definition wax : Product :=
  {| p_id := 1; p_name := "Saç Şekillendirici Wax";
     p_category := "Saç Şekillendirici"; p_price := 12000; p_stock := 5;
     p_description := "Profesyonel saç şekillendirici wax, güçlü tutuş sağlar." |}.

Definition beard_oil : Product :=
  {| p_id := 2; p_name := "Sakal Bakım Yağı"; p_category := "Sakal Bakımı";
     p_price := 8500; p_stock := 10;
     p_description := "Sakalı yumuşatan ve besleyen doğal içerikli bakım yağı." |}.

Definition shop_sequences : Store.Sequences :=
  {| Store.customers_id_seq := 3;
     Store.services_id_seq := 2;
     Store.appointments_id_seq := 1;
     Store.products_id_seq := 3;
     Store.sales_id_seq := 1;
     Store.sale_items_id_seq := 1 |}.

Definition shop : Store.Db :=
  {| Store.tables :=
       {| Store.customers := [ahmet; ayse];
          Store.services := [haircut];
          Store.appointments := [];
          Store.products := [wax; beard_oil];
          Store.sales := [];
          Store.sale_items := [] |};
     Store.seqs := shop_sequences;
     Store.txn := Store.Idle |}.

(** A razor at 40 000 000.00, five in stock. *)
Definition golden_razor : Product :=
  {| p_id := 3; p_name := "Altın Ustura"; p_category := "Tıraş";
     p_price := 4000000000; p_stock := 5;
     p_description := "Altın kaplama ustura." |}.

(** The shop with the razor on its shelf. *)
Definition shop_with_razor : Store.Db :=
  {| Store.tables :=
       {| Store.customers := [ahmet; ayse];
          Store.services := [haircut];
          Store.appointments := [];
          Store.products := [wax; beard_oil; golden_razor];
          Store.sales := [];
          Store.sale_items := [] |};
     Store.seqs :=
       {| Store.customers_id_seq := 3;
          Store.services_id_seq := 2;
          Store.appointments_id_seq := 1;
          Store.products_id_seq := 4;
          Store.sales_id_seq := 1;
          Store.sale_items_id_seq := 1 |};
     Store.txn := Store.Idle |}.


(** A booking for a customer id that is not in the table. *)
Definition walk_in : NewAppointment :=
  {| customer_id := 99; service_id := 1; date := "2025-03-28";
     time := "10:00"; duration := 0; status := ""; notes := "" |}.

(** ** What a checkout computes

    Closed forms of the two loops of [createProductSale], used to state what
    the action leaves in the tables; [validate_items_checked],
    [insert_items_stored] and [insert_items_returned] relate them to the
    loops. *)

(** [rows[0]] of [SELECT * FROM customers WHERE id = $1] *)
Definition customer_by_id (t : Store.Tables) (id : Z) : option Customer :=
  head (List.filter (fun c => c_id c =? id) (Store.customers t)).

(** [rows[0]] of [SELECT * FROM products WHERE id = $1] *)
Definition product_by_id (t : Store.Tables) (id : Z) : option Product :=
  head (List.filter (fun p => p_id p =? id) (Store.products t)).

(** The validation loop on tables that do not change while it runs: the
    message of the first item that fails, or the validated items. *)
Fixpoint checked (t : Store.Tables) (items : list Item)
  : string + list ValidatedItem :=
  match items with
  | [] => inr []
  | item :: rest =>
      match product_by_id t (productId item) with
      | None =>
          inl ("Product with ID " +:+ string_of_Z (productId item)
               +:+ " not found.")
      | Some product =>
          if p_stock product <? quantity item then
            inl ("Not enough stock for " +:+ p_name product
                 +:+ ". Available: " +:+ string_of_Z (p_stock product))
          else
            match checked t rest with
            | inl message => inl message
            | inr validated =>
                inr ({| vi_product := product; vi_quantity := quantity item |}
                     :: validated)
            end
      end
  end.

Definition order_total (validated : list ValidatedItem) : Z :=
  fold_right (fun item sum => p_price (vi_product item) * vi_quantity item + sum)
    0 validated.

(** The rows the second loop adds to [sale_items], keys counted from [next]. *)
Fixpoint items_for (sale : Z) (next : Z) (validated : list ValidatedItem)
  : list SaleItem :=
  match validated with
  | [] => []
  | item :: rest =>
      {| si_id := next;
         si_sale_id := sale;
         si_item_id := Some (p_id (vi_product item));
         si_item_type := "product";
         si_name := Column.kept 255 (p_name (vi_product item));
         si_price := p_price (vi_product item);
         si_quantity := vi_quantity item |}
      :: items_for sale (next + 1) rest
  end.

(** The products table after the stock updates of the second loop. *)
Definition stock_after (validated : list ValidatedItem) (ps : list Product)
  : list Product :=
  fold_left
    (fun ps item =>
       map (fun p => if p_id p =? p_id (vi_product item)
                     then Store.take (vi_quantity item) p else p) ps)
    validated ps.

(** The tables and sequences after a checkout that goes through. *)
Definition sold (today : string) (customerId : Z) (paymentMethod : PaymentMethod)
    (validated : list ValidatedItem) (t : Store.Tables) (q : Store.Sequences)
  : Sale * Store.Tables * Store.Sequences :=
  let sale :=
    {| sale_id := Store.sales_id_seq q;
       sale_appointment_id := None;
       sale_customer_id := Some customerId;
       sale_total := order_total validated;
       sale_payment_method := paymentMethod;
       sale_date := today |} in
  (sale,
   {| Store.customers :=
        map (fun c => if c_id c =? customerId then Store.visit today c else c)
          (Store.customers t);
      Store.services := Store.services t;
      Store.appointments := Store.appointments t;
      Store.products := stock_after validated (Store.products t);
      Store.sales := Store.sales t ++ [sale];
      Store.sale_items :=
        Store.sale_items t
        ++ items_for (Store.sales_id_seq q) (Store.sale_items_id_seq q)
             validated |},
   {| Store.customers_id_seq := Store.customers_id_seq q;
      Store.services_id_seq := Store.services_id_seq q;
      Store.appointments_id_seq := Store.appointments_id_seq q;
      Store.products_id_seq := Store.products_id_seq q;
      Store.sales_id_seq := Store.sales_id_seq q + 1;
      Store.sale_items_id_seq :=
        Store.sale_items_id_seq q + Z.of_nat (length validated) |}).

(** The sale items that reference a sale. *)
Definition items_of (sale : Sale) (t : Store.Tables) : list SaleItem :=
  List.filter (fun item => si_sale_id item =? sale_id sale) (Store.sale_items t).

(** The quantity a list of items asks of one product. *)
Definition requested (id : Z) (items : list Item) : Z :=
  fold_right
    (fun item sum => if productId item =? id then quantity item + sum else sum)
    0 items.

(** One stock update of the second loop, seen from a row. *)
Definition take_for (item : ValidatedItem) (p : Product) : Product :=
  if p_id p =? p_id (vi_product item)
  then Store.take (vi_quantity item) p else p.

(** Whether the server takes the statements of the second loop: each sale
    item is taken by its columns and gets a key that is not in use, and each
    stock stays an INTEGER.  [its] and [ps] are the sale items and the
    products as the loop finds them, [next] is the next key. *)
Fixpoint items_accepted (sale next : Z) (its : list SaleItem)
    (ps : list Product) (validated : list ValidatedItem) : bool :=
  match validated with
  | [] => true
  | item :: rest =>
      let product := vi_product item in
      Column.integer sale && Column.integer (p_id product)
      && Column.integer (vi_quantity item)
      && Column.fits 255 (p_name product)
      && Column.decimal (p_price product)
      && Column.serial next
      && negb (existsb (fun other => si_id other =? next) its)
      && negb (existsb
                 (fun p => (p_id p =? p_id product)
                           && negb (Column.integer
                                      (p_stock p - vi_quantity item)))
                 ps)
      && items_accepted sale (next + 1)
           (its ++ items_for sale next [item]) (map (take_for item) ps) rest
  end.

(** Whether the server takes the statements of a checkout that has passed
    its validation: the sale, its items and the visit. *)
Definition sale_accepted (today : string) (customerId : Z)
    (validated : list ValidatedItem) (t : Store.Tables) (q : Store.Sequences)
  : bool :=
  Column.integer customerId && Column.date today
  && Column.decimal (order_total validated)
  && Column.serial (Store.sales_id_seq q)
  && negb (existsb (fun s => sale_id s =? Store.sales_id_seq q)
             (Store.sales t))
  && items_accepted (Store.sales_id_seq q) (Store.sale_items_id_seq q)
       (Store.sale_items t) (Store.products t) validated
  && negb (existsb
             (fun c => (c_id c =? customerId)
                       && negb (Column.integer (c_visits c + 1)))
             (Store.customers t)).

(** An async function keeps a property of the database, whatever it returns
    or throws. *)
Definition preserves {A : Type} (P : Store.Db -> Prop)
    (m : Async Store.Db A) : Prop :=
  forall db, P db -> P (snd (m db)).

(** The database a checkout leaves when it does not go through: the
    transaction block is rolled back, and the sequences may have moved. *)
Definition not_sold (db : Store.Db) (q : Store.Sequences) : Store.Db :=
  {| Store.tables := Store.rolled_back db; Store.seqs := q;
     Store.txn := Store.Idle |}.

(** ** lib/db.ts: [initDatabase] and [resetDatabase] in closed form *)

(** [CREATE TABLE IF NOT EXISTS] on the catalog. *)
Definition ensure_table (table : string) (columns : list string)
    (tables : gmap string (gset string)) : gmap string (gset string) :=
  match tables !! table with
  | Some _ => tables
  | None => <[table := list_to_set columns]> tables
  end.

(** The six statements of [initDatabase], in their order. *)
Definition initialized (tables : gmap string (gset string))
  : gmap string (gset string) :=
  ensure_table "sale_items" Catalog.sale_items_columns
    (ensure_table "sales" Catalog.sales_columns
       (ensure_table "products" Catalog.products_columns
          (ensure_table "appointments" Catalog.appointments_columns
             (ensure_table "services" Catalog.services_columns
                (ensure_table "customers" Catalog.customers_columns tables))))).

(** The primary keys after [CREATE TABLE IF NOT EXISTS]. *)
Definition ensure_key (table : string) (tables : gmap string (gset string))
    (keys : gset string) : gset string :=
  match tables !! table with
  | Some _ => keys
  | None => {[table]} ∪ keys
  end.

(** The primary keys after [initDatabase]: those that were there, and one
    for each of the six tables that was missing. *)
Definition initialized_keys (tables : gmap string (gset string))
    (keys : gset string) : gset string :=
  let t1 := ensure_table "customers" Catalog.customers_columns tables in
  let t2 := ensure_table "services" Catalog.services_columns t1 in
  let t3 := ensure_table "appointments" Catalog.appointments_columns t2 in
  let t4 := ensure_table "products" Catalog.products_columns t3 in
  let t5 := ensure_table "sales" Catalog.sales_columns t4 in
  ensure_key "sale_items" t5
    (ensure_key "sales" t4
       (ensure_key "products" t3
          (ensure_key "appointments" t2
             (ensure_key "services" t1
                (ensure_key "customers" tables keys))))).

(** A catalog with a customers table that has no primary key. *)
Definition customers_without_key : Catalog.t :=
  {| Catalog.tables := {[ "customers" := list_to_set ["name"] ]};
     Catalog.keys := ∅;
     Catalog.functions := ∅;
     Catalog.journal := [] |}.

(** The tables of the application and their columns in [initDatabase]. *)
Definition schema : list (string * list string) :=
  [("customers", Catalog.customers_columns);
   ("services", Catalog.services_columns);
   ("appointments", Catalog.appointments_columns);
   ("products", Catalog.products_columns);
   ("sales", Catalog.sales_columns);
   ("sale_items", Catalog.sale_items_columns)].

(** An async function on the catalog that only adds tables and columns. *)
Definition additive {A : Type} (m : Async Catalog.t A) : Prop :=
  forall db, extends db (snd (m db)).

(** [resetDatabase]: the catalog, and the tables dropped so far. *)
Module Reset.

Record World : Type := {
  catalog : Catalog.t;
  dropped : list string
}.

Inductive Stmt : Type -> Type :=
| DropTableIfExistsCascade (table : string) : Stmt (list string).

(** [DROP TABLE IF EXISTS t CASCADE]: the table goes with its key, if it is
    there; the cascade removes the constraints that point to it, which the
    catalog does not record. *)
Definition exec (A : Type) (text : Stmt A) (w : World) : PoolReply A * World :=
  match text in Stmt T return PoolReply T * World with
  | DropTableIfExistsCascade table =>
      (Resolved [],
       {| catalog :=
            {| Catalog.tables := delete table (Catalog.tables (catalog w));
               Catalog.keys := Catalog.keys (catalog w) ∖ {[table]};
               Catalog.functions := Catalog.functions (catalog w);
               Catalog.journal := Catalog.journal (catalog w) |};
          dropped := dropped w ++ [table] |})
  end.

Definition query {A : Type} (text : Stmt A) : Async World A :=
  fun w =>
    let '(out, w', _) :=
      query (fun _ => false) (fun w => (true, w)) exec text w in
    (out, w').

(** [await initDatabase()] inside [resetDatabase]. *)
Definition initDatabase : Async World bool :=
  fun w =>
    let (ok, c) := Catalog.initDatabase (catalog w) in
    (Returned ok, {| catalog := c; dropped := dropped w |}).

(** The body of the [try] block of [resetDatabase]. *)
Definition resetting : Async World unit :=
  await _ <- query (DropTableIfExistsCascade "sale_items");
  await _ <- query (DropTableIfExistsCascade "sales");
  await _ <- query (DropTableIfExistsCascade "appointments");
  await _ <- query (DropTableIfExistsCascade "products");
  await _ <- query (DropTableIfExistsCascade "services");
  await _ <- query (DropTableIfExistsCascade "customers");
  await initialized <- initDatabase;
  if negb initialized
  then throw (JsError "Failed to recreate database tables")
  else ret tt.

(** [resetDatabase], with the pool in place. *)
Definition resetDatabase (w : World) : bool * World :=
  match resetting w with
  | (Returned _, w') => (true, w')
  | (Thrown _, w') => (false, w')
  end.

End Reset.

(** A database that holds the old schema and a table of its own. *)
Definition first_release_with_notes : Catalog.t :=
  {| Catalog.tables :=
       <["notes" := (list_to_set ["id"; "body"])]> (Catalog.tables first_release);
     Catalog.keys := {["notes"]} ∪ Catalog.keys first_release;
     Catalog.functions := ∅;
     Catalog.journal := [] |}.

(** ** lib/db.ts: [createMockPool] *)

Module Mock.

(** The values that go through the mock: query parameters and row fields. *)
Inductive JsValue : Type :=
| JsUndefined
| JsNullValue
| JsString (s : string)
| JsNumber (n : Z).

(** Truthiness, for [a || b]. *)
Definition js_truthy (v : JsValue) : bool :=
  match v with
  | JsUndefined | JsNullValue => false
  | JsString s => truthy s
  | JsNumber n => negb (n =? 0)
  end.

Definition js_or (a b : JsValue) : JsValue := if js_truthy a then a else b.

(** [params?.[i]] *)
Definition param (params : option (list JsValue)) (i : nat) : JsValue :=
  match params with
  | Some values => nth i values JsUndefined
  | None => JsUndefined
  end.

(** [text.toLowerCase()] on the letters A to Z; the texts are SQL. *)
Definition lower (c : Ascii.ascii) : Ascii.ascii :=
  let n := Ascii.nat_of_ascii c in
  if ((65 <=? n) && (n <=? 90))%nat then Ascii.ascii_of_nat (n + 32) else c.

Fixpoint toLowerCase (s : string) : string :=
  match s with
  | EmptyString => EmptyString
  | String c rest => String (lower c) (toLowerCase rest)
  end.

Record MockCustomer : Type := {
  mc_id : Z;
  mc_name : JsValue;
  mc_phone : JsValue;
  mc_email : JsValue;
  mc_visits : Z;
  mc_last_visit : JsValue
}.

Record MockService : Type := {
  ms_id : Z;
  ms_name : JsValue;
  ms_duration : JsValue;
  ms_price : JsValue;
  ms_description : JsValue
}.

(** [mockData]; its [appointments] array stays empty and is never read. *)
Record MockData : Type := {
  customers : list MockCustomer;
  services : list MockService
}.

Inductive Row : Type :=
| CustomerRow (c : MockCustomer)
| ServiceRow (s : MockService).

Record QueryResult : Type := {
  rows : list Row;
  rowCount : Z
}.

Definition mockCustomers : list MockCustomer :=
  [{| mc_id := 1; mc_name := JsString "Ahmet Yılmaz";
      mc_phone := JsString "555-1234";
      mc_email := JsString "ahmet@example.com"; mc_visits := 12;
      mc_last_visit := JsString "2025-03-15" |};
   {| mc_id := 2; mc_name := JsString "Ayşe Demir";
      mc_phone := JsString "555-5678";
      mc_email := JsString "ayse@example.com"; mc_visits := 8;
      mc_last_visit := JsString "2025-03-20" |}].

Definition mockServices : list MockService :=
  [{| ms_id := 1; ms_name := JsString "Saç Kesimi"; ms_duration := JsNumber 30;
      ms_price := JsNumber 100;
      ms_description := JsString "Standart saç kesimi" |};
   {| ms_id := 2; ms_name := JsString "Sakal Tıraşı";
      ms_duration := JsNumber 20; ms_price := JsNumber 50;
      ms_description := JsString "Sakal şekillendirme" |}].

(** The data a new mock pool starts with. *)
Definition mockData : MockData :=
  {| customers := mockCustomers; services := mockServices |}.

(** The [query] method of the mock pool. *)
Definition query (text : string) (params : option (list JsValue))
    (data : MockData) : QueryResult * MockData :=
  if includes (toLowerCase text) "select * from customers" then
    ({| rows := map CustomerRow (customers data);
        rowCount := Z.of_nat (length (customers data)) |}, data)
  else if includes (toLowerCase text) "select * from services" then
    ({| rows := map ServiceRow (services data);
        rowCount := Z.of_nat (length (services data)) |}, data)
  else if includes (toLowerCase text) "insert into customers" then
    let newId := Z.of_nat (length (customers data)) + 1 in
    let newCustomer :=
      {| mc_id := newId;
         mc_name := js_or (param params 0) (JsString "New Customer");
         mc_phone := js_or (param params 1) (JsString "");
         mc_email := js_or (param params 2) (JsString "");
         mc_visits := 0;
         mc_last_visit := JsNullValue |} in
    ({| rows := [CustomerRow newCustomer]; rowCount := 1 |},
     {| customers := customers data ++ [newCustomer];
        services := services data |})
  else if includes (toLowerCase text) "insert into services" then
    let newId := Z.of_nat (length (services data)) + 1 in
    let newService :=
      {| ms_id := newId;
         ms_name := js_or (param params 0) (JsString "New Service");
         ms_duration := js_or (param params 1) (JsNumber 30);
         ms_price := js_or (param params 2) (JsNumber 0);
         ms_description := js_or (param params 3) (JsString "") |} in
    ({| rows := [ServiceRow newService]; rowCount := 1 |},
     {| customers := customers data;
        services := services data ++ [newService] |})
  else ({| rows := []; rowCount := 0 |}, data).

(** A session with the mock pool: the queries sent, one after the other. *)
Fixpoint session (queries : list (string * option (list JsValue)))
    (data : MockData) : MockData :=
  match queries with
  | [] => data
  | (text, params) :: rest => session rest (snd (query text params data))
  end.

(** The keys 1, 2, ..., n. *)
Definition numbered (ids : list Z) : Prop :=
  forall i id, nth_error ids i = Some id -> id = Z.of_nat i + 1.

(** The texts [createCustomer] and [getCustomers] of lib/actions.ts send. *)
Definition insert_customer_text : string :=
  "INSERT INTO customers (name, phone, email, visits, last_visit) VALUES ($1, $2, $3, $4, $5) RETURNING *".

Definition select_customers_text : string :=
  "SELECT * FROM customers ORDER BY name".

End Mock.

(** ** lib/actions.ts: the statements of the other actions

    The create, update, payment and reporting actions run on the same row
    store and the same session.  A value is checked whether or not a row is
    written then; a key and a reference are checked on the rows that are
    written.  Dates are the texts YYYY-MM-DD, which are equal and ordered as
    the days are. *)

Module Crud.

(** The columns, as in [Column]. *)
Abbreviation continuation := Column.continuation (only parsing).
Abbreviation char_length := Column.char_length (only parsing).
Abbreviation split_chars := Column.split_chars (only parsing).
Abbreviation spaces := Column.spaces (only parsing).
Abbreviation varchar := Column.varchar (only parsing).
Abbreviation integer := Column.integer (only parsing).
Abbreviation decimal := Column.decimal (only parsing).

(** A row of [appointments a LEFT JOIN customers c LEFT JOIN services s]
    with the columns [a.*, c.name, s.name, s.price]. *)
Record PricedAppointment : Type := {
  pa_row : Appointment;
  pa_customer_name : option string;
  pa_service_name : option string;
  pa_service_price : option Z
}.

(** The same join with the columns [a.*, c.name, s.name]. *)
Record NamedAppointment : Type := {
  na_row : Appointment;
  na_customer_name : option string;
  na_service_name : option string
}.

(** A row of [sales s LEFT JOIN customers c] with the columns
    [s.*, c.name]. *)
Record NamedSale : Type := {
  ns_row : Sale;
  ns_customer_name : option string
}.

(** A parameter of a statement whose text is built at run time. *)
Inductive Value : Type :=
| Number (n : Z)
| Text (s : string).

(** The statements, with their parameters.  The index is the type of
    [rows], or of [rows[0]] for an INSERT ... RETURNING.
    [UpdateAppointment] is the statement that [updateAppointment] builds,
    [UPDATE appointments SET c1 = $n1, ... WHERE id = $k RETURNING *]: each
    SET clause is given by its column and the number of its placeholder. *)
Inductive Data : Type -> Type :=
| InsertCustomer (name phone email : string) (visits : Z)
    (last_visit : option string) : Data Customer
| UpdateCustomer (name phone email : option string) (id : Z)
  : Data (list Customer)
| InsertService (name : string) (duration price : Z) (description : string)
  : Data Service
| UpdateService (name : option string) (duration price : option Z)
    (description : option string) (id : Z) : Data (list Service)
| InsertProduct (name category : string) (price stock : Z)
    (description : string) : Data Product
| UpdateProduct (name category : option string) (price stock : option Z)
    (description : option string) (id : Z) : Data (list Product)
| SelectAppointmentNamed (id : Z) : Data (list NamedAppointment)
| SelectAppointmentPriced (id : Z) : Data (list PricedAppointment)
| UpdateAppointment (clauses : list (string * nat)) (values : list Value)
    (where_id : nat) : Data (list Appointment)
| UpdateAppointmentPaid (payment_method : PaymentMethod) (id : Z) : Data unit
| InsertServiceSale (customer_id : Z) (date : string) (total : Z)
    (payment_method : PaymentMethod) : Data Z
| InsertServiceSaleItem (sale item_id : Z) (name : string) (price : Z)
  : Data unit
| SelectSaleNamed (id : Z) : Data (list NamedSale)
| SelectSaleItems (sale : Z) : Data (list SaleItem)
| CountAppointmentsByStatus (date : string) : Data (list (string * Z))
| CountAppointments : Data (list Z)
| CountCustomers : Data (list Z)
| CountCustomersSeenSince (date : string) : Data (list Z).

Inductive SqlError : Type :=
| ValueTooLong
| IntegerOutOfRange
| NumericFieldOverflow
| SyntaxError
| MissingParameter
| InvalidInput
| Other (e : Store.SqlError).

Definition sqlerrm (e : SqlError) : string :=
  match e with
  | ValueTooLong => "value too long for type character varying"
  | IntegerOutOfRange => "value is out of range for type integer"
  | NumericFieldOverflow => "numeric field overflow"
  | SyntaxError => "syntax error at or near"
  | MissingParameter => "there is no parameter"
  | InvalidInput => "invalid input syntax for type"
  | Other e => Store.sqlerrm e
  end.

(** [COALESCE($n, column)] assigned to a VARCHAR column: the value the
    column gets from a row, if the parameter fits. *)
Definition coalesce_varchar (width : nat) (parameter : option string)
  : option (string -> string) :=
  match parameter with
  | None => Some (fun old => old)
  | Some value =>
      match varchar width value with
      | Some stored => Some (fun _ => stored)
      | None => None
      end
  end.

(** [COALESCE($n, column)] on a column without a width. *)
Definition coalesce {V : Type} (parameter : option V) (old : V) : V :=
  match parameter with
  | Some value => value
  | None => old
  end.

Definition in_range (check : Z -> bool) (parameter : option Z) : bool :=
  match parameter with
  | Some value => check value
  | None => true
  end.

(** The right-hand side of a LEFT JOIN for one row of the left-hand side. *)
Definition left_join {R : Type} (matches : list R) : list (option R) :=
  match matches with
  | [] => [None]
  | _ => map Some matches
  end.

(** [appointments a LEFT JOIN customers c ON a.customer_id = c.id
     LEFT JOIN services s ON a.service_id = s.id WHERE a.id = $1] *)
Definition joined (t : Store.Tables) (id : Z)
  : list (Appointment * option Customer * option Service) :=
  flat_map
    (fun a =>
       flat_map
         (fun c =>
            map (fun s => (a, c, s))
              (left_join
                 (List.filter (fun s => s_id s =? a_service_id a)
                    (Store.services t))))
         (left_join
            (List.filter (fun c => c_id c =? a_customer_id a)
               (Store.customers t))))
    (List.filter (fun a => a_id a =? id) (Store.appointments t)).

(** ['card'] and ['cash'] *)
Definition payment_text (m : PaymentMethod) : string :=
  match m with
  | card => "card"
  | cash => "cash"
  end.

(** [SET payment_status = 'paid', payment_method = $1] on a row *)
Definition pay (m : PaymentMethod) (a : Appointment) : Appointment :=
  {| a_id := a_id a; a_customer_id := a_customer_id a;
     a_service_id := a_service_id a; a_date := a_date a; a_time := a_time a;
     a_duration := a_duration a; a_status := a_status a;
     a_notes := a_notes a; a_payment_status := "paid";
     a_payment_method := Some (payment_text m) |}.

(** The groups of [GROUP BY status], in the order the statuses first
    appear. *)
Fixpoint groups (statuses : list string) : list string :=
  match statuses with
  | [] => []
  | s :: rest =>
      s :: List.filter (fun other => negb (String.eqb other s)) (groups rest)
  end.

(** [COUNT( * )] of the rows a condition picks. *)
Definition count_rows {R : Type} (pick : R -> bool) (rows : list R) : Z :=
  Z.of_nat (length (List.filter pick rows)).

(** [$n] among the parameters; the placeholders count from 1. *)
Definition placeholder (values : list Value) (n : nat) : option Value :=
  match n with
  | O => None
  | S i => nth_error values i
  end.

(** [SET column = value] on a row of [appointments], column by column. *)
Definition set_customer_id (v : Z) (a : Appointment) : Appointment :=
  {| a_id := a_id a; a_customer_id := v; a_service_id := a_service_id a;
     a_date := a_date a; a_time := a_time a; a_duration := a_duration a;
     a_status := a_status a; a_notes := a_notes a;
     a_payment_status := a_payment_status a;
     a_payment_method := a_payment_method a |}.

Definition set_service_id (v : Z) (a : Appointment) : Appointment :=
  {| a_id := a_id a; a_customer_id := a_customer_id a; a_service_id := v;
     a_date := a_date a; a_time := a_time a; a_duration := a_duration a;
     a_status := a_status a; a_notes := a_notes a;
     a_payment_status := a_payment_status a;
     a_payment_method := a_payment_method a |}.

Definition set_date (v : string) (a : Appointment) : Appointment :=
  {| a_id := a_id a; a_customer_id := a_customer_id a;
     a_service_id := a_service_id a; a_date := v; a_time := a_time a;
     a_duration := a_duration a; a_status := a_status a;
     a_notes := a_notes a; a_payment_status := a_payment_status a;
     a_payment_method := a_payment_method a |}.

Definition set_time (v : string) (a : Appointment) : Appointment :=
  {| a_id := a_id a; a_customer_id := a_customer_id a;
     a_service_id := a_service_id a; a_date := a_date a; a_time := v;
     a_duration := a_duration a; a_status := a_status a;
     a_notes := a_notes a; a_payment_status := a_payment_status a;
     a_payment_method := a_payment_method a |}.

Definition set_duration (v : Z) (a : Appointment) : Appointment :=
  {| a_id := a_id a; a_customer_id := a_customer_id a;
     a_service_id := a_service_id a; a_date := a_date a; a_time := a_time a;
     a_duration := v; a_status := a_status a; a_notes := a_notes a;
     a_payment_status := a_payment_status a;
     a_payment_method := a_payment_method a |}.

Definition set_status (v : string) (a : Appointment) : Appointment :=
  {| a_id := a_id a; a_customer_id := a_customer_id a;
     a_service_id := a_service_id a; a_date := a_date a; a_time := a_time a;
     a_duration := a_duration a; a_status := v; a_notes := a_notes a;
     a_payment_status := a_payment_status a;
     a_payment_method := a_payment_method a |}.

Definition set_notes (v : string) (a : Appointment) : Appointment :=
  {| a_id := a_id a; a_customer_id := a_customer_id a;
     a_service_id := a_service_id a; a_date := a_date a; a_time := a_time a;
     a_duration := a_duration a; a_status := a_status a; a_notes := v;
     a_payment_status := a_payment_status a;
     a_payment_method := a_payment_method a |}.

Definition set_payment_status (v : string) (a : Appointment) : Appointment :=
  {| a_id := a_id a; a_customer_id := a_customer_id a;
     a_service_id := a_service_id a; a_date := a_date a; a_time := a_time a;
     a_duration := a_duration a; a_status := a_status a;
     a_notes := a_notes a; a_payment_status := v;
     a_payment_method := a_payment_method a |}.

Definition set_payment_method (v : string) (a : Appointment) : Appointment :=
  {| a_id := a_id a; a_customer_id := a_customer_id a;
     a_service_id := a_service_id a; a_date := a_date a; a_time := a_time a;
     a_duration := a_duration a; a_status := a_status a;
     a_notes := a_notes a; a_payment_status := a_payment_status a;
     a_payment_method := Some v |}.

(** A number for an INTEGER column. *)
Definition number (value : Value) (set : Z -> Appointment -> Appointment)
  : SqlError + (Appointment -> Appointment) :=
  match value with
  | Number n => if integer n then inr (set n) else inl IntegerOutOfRange
  | Text _ => inl InvalidInput
  end.

(** A number for an INTEGER column that references a table; [written]
    tells whether the statement writes a row. *)
Definition reference (value : Value) (found : Z -> bool) (written : bool)
    (set : Z -> Appointment -> Appointment)
  : SqlError + (Appointment -> Appointment) :=
  match value with
  | Number n =>
      if negb (integer n) then inl IntegerOutOfRange
      else if found n || negb written then inr (set n)
      else inl (Other Store.ForeignKeyViolation)
  | Text _ => inl InvalidInput
  end.

(** A text for a TEXT column. *)
Definition text (value : Value) (set : string -> Appointment -> Appointment)
  : SqlError + (Appointment -> Appointment) :=
  match value with
  | Text s => inr (set s)
  | Number _ => inl InvalidInput
  end.

(** A text for a DATE and for a TIME column. *)
Definition day (value : Value) (set : string -> Appointment -> Appointment)
  : SqlError + (Appointment -> Appointment) :=
  match value with
  | Text s => if Column.date s then inr (set s) else inl InvalidInput
  | Number _ => inl InvalidInput
  end.

Definition hour (value : Value) (set : string -> Appointment -> Appointment)
  : SqlError + (Appointment -> Appointment) :=
  match value with
  | Text s =>
      match Column.time s with
      | Some stored => inr (set stored)
      | None => inl InvalidInput
      end
  | Number _ => inl InvalidInput
  end.

(** A text for a VARCHAR(50) column. *)
Definition text50 (value : Value) (set : string -> Appointment -> Appointment)
  : SqlError + (Appointment -> Appointment) :=
  match value with
  | Text s =>
      match varchar 50 s with
      | Some stored => inr (set stored)
      | None => inl ValueTooLong
      end
  | Number _ => inl InvalidInput
  end.

(** One SET clause [column = $n] of an UPDATE of [appointments]: what it
    does to a row.  The fields of the caller are typed, so that a number
    comes for a number column and a text for a text column. *)
Definition assignment (t : Store.Tables) (written : bool)
    (values : list Value) (clause : string * nat)
  : SqlError + (Appointment -> Appointment) :=
  let (column, n) := clause in
  match placeholder values n with
  | None => inl MissingParameter
  | Some value =>
      if String.eqb column "customer_id" then
        reference value (Store.has_customer t) written set_customer_id
      else if String.eqb column "service_id" then
        reference value (Store.has_service t) written set_service_id
      else if String.eqb column "date" then day value set_date
      else if String.eqb column "time" then hour value set_time
      else if String.eqb column "duration" then number value set_duration
      else if String.eqb column "status" then text50 value set_status
      else if String.eqb column "notes" then text value set_notes
      else if String.eqb column "payment_status" then
        text50 value set_payment_status
      else if String.eqb column "payment_method" then
        text50 value set_payment_method
      else inl (Other Store.UndefinedColumn)
  end.

(** The SET clauses of a statement, from left to right. *)
Fixpoint assignments (t : Store.Tables) (written : bool)
    (values : list Value) (clauses : list (string * nat))
  : SqlError + (Appointment -> Appointment) :=
  match clauses with
  | [] => inr (fun a => a)
  | clause :: rest =>
      match assignment t written values clause with
      | inl e => inl e
      | inr set =>
          match assignments t written values rest with
          | inl e => inl e
          | inr sets => inr (fun a => sets (set a))
          end
      end
  end.

(** The effect of a statement on the tables and sequences, and what it
    returns, or the error and the sequences it leaves: as in [Store.run], an
    INSERT takes its key from the sequence before the key and the references
    are looked at. *)
Definition apply {A : Type} (d : Data A) (t : Store.Tables)
    (q : Store.Sequences)
  : SqlError * Store.Sequences + A * Store.Tables * Store.Sequences :=
  match d in Data T
        return SqlError * Store.Sequences
               + T * Store.Tables * Store.Sequences with
  | InsertCustomer name phone email visits last_visit =>
      match varchar 255 name, varchar 50 phone, varchar 255 email with
      | Some name, Some phone, Some email =>
          if integer visits then
            let row :=
              {| c_id := Store.customers_id_seq q; c_name := name;
                 c_phone := phone; c_email := email; c_visits := visits;
                 c_last_visit := last_visit |} in
            let q' :=
              {| Store.customers_id_seq := Store.customers_id_seq q + 1;
                 Store.services_id_seq := Store.services_id_seq q;
                 Store.appointments_id_seq := Store.appointments_id_seq q;
                 Store.products_id_seq := Store.products_id_seq q;
                 Store.sales_id_seq := Store.sales_id_seq q;
                 Store.sale_items_id_seq := Store.sale_items_id_seq q |} in
            if existsb (fun c => c_id c =? Store.customers_id_seq q)
                 (Store.customers t)
            then inl (Other Store.UniqueViolation, q')
            else
              inr (row,
                   {| Store.customers := Store.customers t ++ [row];
                      Store.services := Store.services t;
                      Store.appointments := Store.appointments t;
                      Store.products := Store.products t;
                      Store.sales := Store.sales t;
                      Store.sale_items := Store.sale_items t |},
                   q')
          else inl (IntegerOutOfRange, q)
      | _, _, _ => inl (ValueTooLong, q)
      end
  | UpdateCustomer name phone email id =>
      match coalesce_varchar 255 name, coalesce_varchar 50 phone,
            coalesce_varchar 255 email with
      | Some name, Some phone, Some email =>
          let set c :=
            {| c_id := c_id c; c_name := name (c_name c);
               c_phone := phone (c_phone c); c_email := email (c_email c);
               c_visits := c_visits c; c_last_visit := c_last_visit c |} in
          inr (map set
                 (List.filter (fun c => c_id c =? id) (Store.customers t)),
               {| Store.customers :=
                    map (fun c => if c_id c =? id then set c else c)
                      (Store.customers t);
                  Store.services := Store.services t;
                  Store.appointments := Store.appointments t;
                  Store.products := Store.products t;
                  Store.sales := Store.sales t;
                  Store.sale_items := Store.sale_items t |},
               q)
      | _, _, _ => inl (ValueTooLong, q)
      end
  | InsertService name duration price description =>
      match varchar 255 name with
      | Some name =>
          if negb (integer duration) then inl (IntegerOutOfRange, q)
          else if negb (decimal price) then inl (NumericFieldOverflow, q)
          else
            let row :=
              {| s_id := Store.services_id_seq q; s_name := name;
                 s_duration := duration; s_price := price;
                 s_description := description |} in
            let q' :=
              {| Store.customers_id_seq := Store.customers_id_seq q;
                 Store.services_id_seq := Store.services_id_seq q + 1;
                 Store.appointments_id_seq := Store.appointments_id_seq q;
                 Store.products_id_seq := Store.products_id_seq q;
                 Store.sales_id_seq := Store.sales_id_seq q;
                 Store.sale_items_id_seq := Store.sale_items_id_seq q |} in
            if existsb (fun s => s_id s =? Store.services_id_seq q)
                 (Store.services t)
            then inl (Other Store.UniqueViolation, q')
            else
              inr (row,
                   {| Store.customers := Store.customers t;
                      Store.services := Store.services t ++ [row];
                      Store.appointments := Store.appointments t;
                      Store.products := Store.products t;
                      Store.sales := Store.sales t;
                      Store.sale_items := Store.sale_items t |},
                   q')
      | None => inl (ValueTooLong, q)
      end
  | UpdateService name duration price description id =>
      match coalesce_varchar 255 name with
      | Some name =>
          if negb (in_range integer duration) then inl (IntegerOutOfRange, q)
          else if negb (in_range decimal price)
          then inl (NumericFieldOverflow, q)
          else
            let set s :=
              {| s_id := s_id s; s_name := name (s_name s);
                 s_duration := coalesce duration (s_duration s);
                 s_price := coalesce price (s_price s);
                 s_description := coalesce description (s_description s) |} in
            inr (map set
                   (List.filter (fun s => s_id s =? id) (Store.services t)),
                 {| Store.customers := Store.customers t;
                    Store.services :=
                      map (fun s => if s_id s =? id then set s else s)
                        (Store.services t);
                    Store.appointments := Store.appointments t;
                    Store.products := Store.products t;
                    Store.sales := Store.sales t;
                    Store.sale_items := Store.sale_items t |},
                 q)
      | None => inl (ValueTooLong, q)
      end
  | InsertProduct name category price stock description =>
      match varchar 255 name, varchar 100 category with
      | Some name, Some category =>
          if negb (decimal price) then inl (NumericFieldOverflow, q)
          else if negb (integer stock) then inl (IntegerOutOfRange, q)
          else
            let row :=
              {| p_id := Store.products_id_seq q; p_name := name;
                 p_category := category; p_price := price; p_stock := stock;
                 p_description := description |} in
            let q' :=
              {| Store.customers_id_seq := Store.customers_id_seq q;
                 Store.services_id_seq := Store.services_id_seq q;
                 Store.appointments_id_seq := Store.appointments_id_seq q;
                 Store.products_id_seq := Store.products_id_seq q + 1;
                 Store.sales_id_seq := Store.sales_id_seq q;
                 Store.sale_items_id_seq := Store.sale_items_id_seq q |} in
            if existsb (fun p => p_id p =? Store.products_id_seq q)
                 (Store.products t)
            then inl (Other Store.UniqueViolation, q')
            else
              inr (row,
                   {| Store.customers := Store.customers t;
                      Store.services := Store.services t;
                      Store.appointments := Store.appointments t;
                      Store.products := Store.products t ++ [row];
                      Store.sales := Store.sales t;
                      Store.sale_items := Store.sale_items t |},
                   q')
      | _, _ => inl (ValueTooLong, q)
      end
  | UpdateProduct name category price stock description id =>
      match coalesce_varchar 255 name, coalesce_varchar 100 category with
      | Some name, Some category =>
          if negb (in_range decimal price) then inl (NumericFieldOverflow, q)
          else if negb (in_range integer stock)
          then inl (IntegerOutOfRange, q)
          else
            let set p :=
              {| p_id := p_id p; p_name := name (p_name p);
                 p_category := category (p_category p);
                 p_price := coalesce price (p_price p);
                 p_stock := coalesce stock (p_stock p);
                 p_description := coalesce description (p_description p) |} in
            inr (map set
                   (List.filter (fun p => p_id p =? id) (Store.products t)),
                 {| Store.customers := Store.customers t;
                    Store.services := Store.services t;
                    Store.appointments := Store.appointments t;
                    Store.products :=
                      map (fun p => if p_id p =? id then set p else p)
                        (Store.products t);
                    Store.sales := Store.sales t;
                    Store.sale_items := Store.sale_items t |},
                 q)
      | _, _ => inl (ValueTooLong, q)
      end
  | SelectAppointmentNamed id =>
      inr (map (fun '(a, c, s) =>
                  {| na_row := a;
                     na_customer_name := option_map c_name c;
                     na_service_name := option_map s_name s |})
             (joined t id),
           t, q)
  | SelectAppointmentPriced id =>
      inr (map (fun '(a, c, s) =>
                  {| pa_row := a;
                     pa_customer_name := option_map c_name c;
                     pa_service_name := option_map s_name s;
                     pa_service_price := option_map s_price s |})
             (joined t id),
           t, q)
  | UpdateAppointment clauses values where_id =>
      match clauses, placeholder values where_id with
      | [], _ => inl (SyntaxError, q)
      | _, None => inl (MissingParameter, q)
      | _, Some (Text _) => inl (InvalidInput, q)
      | _, Some (Number id) =>
          let written :=
            existsb (fun a => a_id a =? id) (Store.appointments t) in
          match assignments t written values clauses with
          | inl e => inl (e, q)
          | inr set =>
              inr (map set
                     (List.filter (fun a => a_id a =? id)
                        (Store.appointments t)),
                   {| Store.customers := Store.customers t;
                      Store.services := Store.services t;
                      Store.appointments :=
                        map (fun a => if a_id a =? id then set a else a)
                          (Store.appointments t);
                      Store.products := Store.products t;
                      Store.sales := Store.sales t;
                      Store.sale_items := Store.sale_items t |},
                   q)
          end
      end
  | UpdateAppointmentPaid payment_method id =>
      inr (tt,
           {| Store.customers := Store.customers t;
              Store.services := Store.services t;
              Store.appointments :=
                map (fun a => if a_id a =? id then pay payment_method a else a)
                  (Store.appointments t);
              Store.products := Store.products t;
              Store.sales := Store.sales t;
              Store.sale_items := Store.sale_items t |},
           q)
  | InsertServiceSale _ _ _ _ =>
      (* [sales] has no column [type], with [initDatabase] and with
         [migrateDatabase] *)
      inl (Other Store.UndefinedColumn, q)
  | InsertServiceSaleItem sale item_id name price =>
      match varchar 255 name with
      | Some name =>
          if negb (integer item_id) then inl (IntegerOutOfRange, q)
          else if negb (decimal price) then inl (NumericFieldOverflow, q)
          else
            let row :=
              {| si_id := Store.sale_items_id_seq q; si_sale_id := sale;
                 si_item_id := Some item_id; si_item_type := "service";
                 si_name := name; si_price := price; si_quantity := 1 |} in
            let q' :=
              {| Store.customers_id_seq := Store.customers_id_seq q;
                 Store.services_id_seq := Store.services_id_seq q;
                 Store.appointments_id_seq := Store.appointments_id_seq q;
                 Store.products_id_seq := Store.products_id_seq q;
                 Store.sales_id_seq := Store.sales_id_seq q;
                 Store.sale_items_id_seq := Store.sale_items_id_seq q + 1 |} in
            if existsb (fun item => si_id item =? Store.sale_items_id_seq q)
                 (Store.sale_items t)
            then inl (Other Store.UniqueViolation, q')
            else if Store.has_sale t sale then
              inr (tt,
                   {| Store.customers := Store.customers t;
                      Store.services := Store.services t;
                      Store.appointments := Store.appointments t;
                      Store.products := Store.products t;
                      Store.sales := Store.sales t;
                      Store.sale_items := Store.sale_items t ++ [row] |},
                   q')
            else inl (Other Store.ForeignKeyViolation, q')
      | None => inl (ValueTooLong, q)
      end
  | SelectSaleNamed id =>
      inr (flat_map
             (fun s =>
                map (fun c => {| ns_row := s;
                                 ns_customer_name := option_map c_name c |})
                  (left_join
                     (List.filter
                        (fun c => match sale_customer_id s with
                                  | Some customer => c_id c =? customer
                                  | None => false
                                  end)
                        (Store.customers t))))
             (List.filter (fun s => sale_id s =? id) (Store.sales t)),
           t, q)
  | SelectSaleItems sale =>
      inr (List.filter (fun item => si_sale_id item =? sale)
             (Store.sale_items t),
           t, q)
  | CountAppointmentsByStatus date =>
      let today :=
        List.filter (fun a => String.eqb (a_date a) date)
          (Store.appointments t) in
      inr (map (fun status =>
                  (status,
                   count_rows (fun a => String.eqb (a_status a) status) today))
             (groups (map a_status today)),
           t, q)
  | CountAppointments =>
      inr ([count_rows (fun _ => true) (Store.appointments t)], t, q)
  | CountCustomers =>
      inr ([count_rows (fun _ => true) (Store.customers t)], t, q)
  | CountCustomersSeenSince date =>
      inr ([count_rows
              (fun c => match c_last_visit c with
                        | Some day => String.leb date day
                        | None => false
                        end)
              (Store.customers t)],
           t, q)
  end.

(** [pool.query] for these statements, on the session of [Store.exec]: an
    error closes the session, and the transaction block, if there is one, is
    rolled back. *)
Definition exec (A : Type) (d : Data A) (db : Store.Db)
  : PoolReply A * Store.Db :=
  match apply d (Store.tables db) (Store.seqs db) with
  | inr (a, t', q') =>
      (Resolved a,
       {| Store.tables := t'; Store.seqs := q'; Store.txn := Store.txn db |})
  | inl (e, q') =>
      (Rejected (sqlerrm e),
       {| Store.tables := Store.rolled_back db; Store.seqs := q';
          Store.txn := Store.Idle |})
  end.

(** [query] of lib/db.ts with the pool in place. *)
Definition query {A : Type} (text : Data A) : Async Store.Db A :=
  fun db =>
    let '(out, db', _) :=
      query (fun _ => false) (fun db => (true, db)) exec text db in
    (out, db').

End Crud.

(** ** lib/actions.ts: customers, services and products *)

(** [a || b] on texts and on numbers *)
Definition or_text (a b : string) : string := if truthy a then a else b.
Definition or_number (a b : Z) : Z := if a =? 0 then b else a.

(** [a || null] *)
Definition text_or_null (a : option string) : option string :=
  match a with
  | Some s => if truthy s then Some s else None
  | None => None
  end.

(** [a ? Number(a) : null] *)
Definition number_or_null (a : option Z) : option Z :=
  match a with
  | Some n => if n =? 0 then None else Some n
  | None => None
  end.

(** [NewCustomer]; [name] is required, the other fields are [""] when they
    are left out. *)
Record NewCustomer : Type := {
  nc_name : string;
  nc_phone : string;
  nc_email : string
}.

(** [Partial<Customer>], the fields the update reads. *)
Record CustomerChanges : Type := {
  cc_name : option string;
  cc_phone : option string;
  cc_email : option string
}.

(** [{ ...customer, last_visit: ... }] with the date formatted. *)
Definition formatted_customer (zone : TimeZone) (c : Customer) : Customer :=
  {| c_id := c_id c; c_name := c_name c; c_phone := c_phone c;
     c_email := c_email c; c_visits := c_visits c;
     c_last_visit := option_map (toISOString_day zone) (c_last_visit c) |}.

(** [getCustomerById], in a process in the given time zone. *)
Definition getCustomerById (zone : TimeZone) (id : Z)
  : Async Store.Db (option Customer) :=
  try_catch
    (await result <- Store.query (Store.Sql (Store.SelectCustomerById id));
     match result with
     | [] => ret None
     | customer :: _ => ret (Some (formatted_customer zone customer))
     end)
    (fun error => ret None).

Definition createCustomer (customer : NewCustomer) : Async Store.Db Customer :=
  try_catch
    (await newCustomer <-
       Crud.query
         (Crud.InsertCustomer (nc_name customer)
            (or_text (nc_phone customer) "") (or_text (nc_email customer) "")
            0 None);
     ret newCustomer)
    (fun error => throw (JsError "Müşteri oluşturulurken bir hata oluştu.")).

(** The update actions return the failure object or [result.rows[0]]. *)
Definition updateCustomer (id : Z) (customer : CustomerChanges)
  : Async Store.Db (ActionResult + option Customer) :=
  try_catch
    (await checkResult <-
       Store.query (Store.Sql (Store.SelectCustomerById id));
     if (length checkResult =? 0)%nat then
       ret (inl {| success := false;
                   message := "Customer with ID " +:+ string_of_Z id
                              +:+ " not found. The customer may have been deleted already." |})
     else
       (await result <-
          Crud.query
            (Crud.UpdateCustomer (text_or_null (cc_name customer))
               (cc_phone customer) (cc_email customer) id);
        ret (inr (head result))))
    (fun error =>
       ret (inl {| success := false;
                   message := "Müşteri güncellenirken bir hata oluştu." |})).

(** [NewService]; a number that is left out is [0]. *)
Record NewService : Type := {
  nsv_name : string;
  nsv_duration : Z;
  nsv_price : Z;
  nsv_description : string
}.

Record ServiceChanges : Type := {
  sc_name : option string;
  sc_duration : option Z;
  sc_price : option Z;
  sc_description : option string
}.

Definition getServiceById (id : Z) : Async Store.Db (option Service) :=
  try_catch
    (await result <- Store.query (Store.Sql (Store.SelectServiceById id));
     match result with
     | [] => ret None
     | service :: _ => ret (Some service)
     end)
    (fun error => ret None).

Definition createService (service : NewService) : Async Store.Db Service :=
  try_catch
    (await newService <-
       Crud.query
         (Crud.InsertService (nsv_name service)
            (or_number (nsv_duration service) 30)
            (or_number (nsv_price service) 0)
            (or_text (nsv_description service) ""));
     ret newService)
    (fun error => throw (JsError "Hizmet oluşturulurken bir hata oluştu.")).

Definition updateService (id : Z) (service : ServiceChanges)
  : Async Store.Db (ActionResult + option Service) :=
  try_catch
    (await checkResult <-
       Store.query (Store.Sql (Store.SelectServiceById id));
     if (length checkResult =? 0)%nat then
       ret (inl {| success := false;
                   message := "Service with ID " +:+ string_of_Z id
                              +:+ " not found. The service may have been deleted already." |})
     else
       (await result <-
          Crud.query
            (Crud.UpdateService (text_or_null (sc_name service))
               (number_or_null (sc_duration service))
               (number_or_null (sc_price service))
               (sc_description service) id);
        ret (inr (head result))))
    (fun error =>
       ret (inl {| success := false;
                   message := "Hizmet güncellenirken bir hata oluştu." |})).

Record NewProduct : Type := {
  np_name : string;
  np_category : string;
  np_price : Z;
  np_stock : Z;
  np_description : string
}.

Record ProductChanges : Type := {
  pc_name : option string;
  pc_category : option string;
  pc_price : option Z;
  pc_stock : option Z;
  pc_description : option string
}.

Definition getProductById (id : Z) : Async Store.Db (option Product) :=
  try_catch
    (await result <- Store.query (Store.Sql (Store.SelectProductById id));
     match result with
     | [] => ret None
     | product :: _ => ret (Some product)
     end)
    (fun error => ret None).

Definition createProduct (product : NewProduct) : Async Store.Db Product :=
  try_catch
    (await newProduct <-
       Crud.query
         (Crud.InsertProduct (np_name product)
            (or_text (np_category product) "Diğer")
            (or_number (np_price product) 0)
            (or_number (np_stock product) 0)
            (or_text (np_description product) ""));
     ret newProduct)
    (fun error => throw (JsError "Ürün oluşturulurken bir hata oluştu.")).

Definition updateProduct (id : Z) (product : ProductChanges)
  : Async Store.Db (ActionResult + option Product) :=
  try_catch
    (await checkResult <-
       Store.query (Store.Sql (Store.SelectProductById id));
     if (length checkResult =? 0)%nat then
       ret (inl {| success := false;
                   message := "Product with ID " +:+ string_of_Z id
                              +:+ " not found. The product may have been deleted already." |})
     else
       (await result <-
          Crud.query
            (Crud.UpdateProduct (text_or_null (pc_name product))
               (text_or_null (pc_category product))
               (pc_price product) (pc_stock product)
               (pc_description product) id);
        ret (inr (head result))))
    (fun error =>
       ret (inl {| success := false;
                   message := "Ürün güncellenirken bir hata oluştu." |})).

(** ** lib/actions.ts: appointments, payments and sales, read back *)

(** [name || fallback] on a joined column, which is NULL without a match. *)
Definition name_or (name : option string) (fallback : string) : string :=
  match name with
  | Some s => or_text s fallback
  | None => fallback
  end.

Definition getAppointmentById (id : Z)
  : Async Store.Db (option AppointmentView) :=
  try_catch
    (await result <- Crud.query (Crud.SelectAppointmentNamed id);
     match result with
     | [] => ret None
     | appointment :: _ =>
         ret (Some {| row := Crud.na_row appointment;
                      customer_name :=
                        name_or (Crud.na_customer_name appointment)
                          "Unknown Customer";
                      service_name :=
                        name_or (Crud.na_service_name appointment)
                          "Unknown Service" |})
     end)
    (fun error => ret None).

(** The [sale] of a processed payment. *)
Record ServiceSale : Type := {
  ss_id : Z;
  ss_customer_id : Z;
  ss_date : string;
  ss_total : Z;
  ss_payment_method : PaymentMethod;
  ss_type : string;
  ss_customer_name : string
}.

(** [{ success, message, sale? }] *)
Record PaymentResult : Type := {
  pr_success : bool;
  pr_message : string;
  pr_sale : option ServiceSale
}.

(** [appointment.service_price || 0] *)
Definition price_or_zero (price : option Z) : Z :=
  match price with
  | Some p => or_number p 0
  | None => 0
  end.

(** [processAppointmentPayment]; [today] is
    [new Date().toISOString().split('T')[0]]. *)
Definition processAppointmentPayment (today : string) (id : Z)
    (paymentMethod : PaymentMethod) : Async Store.Db PaymentResult :=
  try_catch
    (await appointmentResult <- Crud.query (Crud.SelectAppointmentPriced id);
     match appointmentResult with
     | [] =>
         ret {| pr_success := false;
                pr_message := "Appointment with ID " +:+ string_of_Z id
                              +:+ " not found.";
                pr_sale := None |}
     | appointment :: _ =>
         await _ <- Crud.query (Crud.UpdateAppointmentPaid paymentMethod id);
         await saleId <-
           Crud.query
             (Crud.InsertServiceSale
                (a_customer_id (Crud.pa_row appointment)) today
                (price_or_zero (Crud.pa_service_price appointment))
                paymentMethod);
         await _ <-
           Crud.query
             (Crud.InsertServiceSaleItem saleId
                (a_service_id (Crud.pa_row appointment))
                (name_or (Crud.pa_service_name appointment) "Unknown Service")
                (price_or_zero (Crud.pa_service_price appointment)));
         ret {| pr_success := true;
                pr_message := "Payment processed successfully";
                pr_sale :=
                  Some {| ss_id := saleId;
                          ss_customer_id :=
                            a_customer_id (Crud.pa_row appointment);
                          ss_date := today;
                          ss_total :=
                            price_or_zero (Crud.pa_service_price appointment);
                          ss_payment_method := paymentMethod;
                          ss_type := "service";
                          ss_customer_name :=
                            name_or (Crud.pa_customer_name appointment)
                              "Unknown Customer" |} |}
     end)
    (fun error =>
       ret {| pr_success := false;
              pr_message := "Ödeme işlenirken bir hata oluştu.";
              pr_sale := None |}).

(** [{ ...sale, date: ... }] with the date formatted. *)
Definition formatted_sale (zone : TimeZone) (s : Sale) : Sale :=
  {| sale_id := sale_id s; sale_appointment_id := sale_appointment_id s;
     sale_customer_id := sale_customer_id s; sale_total := sale_total s;
     sale_payment_method := sale_payment_method s;
     sale_date := toISOString_day zone (sale_date s) |}.

(** [getSaleById], in a process in the given time zone: the sale with its
    date formatted, the customer's name and the items as stored
    ([parseInt(item.quantity)], without the [|| '1'] of
    [createProductSale]). *)
Definition getSaleById (zone : TimeZone) (id : Z)
  : Async Store.Db (option SaleView) :=
  try_catch
    (await saleResult <- Crud.query (Crud.SelectSaleNamed id);
     match saleResult with
     | [] => ret None
     | sale :: _ =>
         await itemsResult <- Crud.query (Crud.SelectSaleItems id);
         ret (Some {| sv_sale := formatted_sale zone (Crud.ns_row sale);
                      sv_customer_name :=
                        name_or (Crud.ns_customer_name sale) "Unknown Customer";
                      sv_items := itemsResult |})
     end)
    (fun error => ret None).

(** ** lib/actions.ts: [getDashboardStats] *)

Record TodayAppointments : Type := {
  ta_count : Z;
  ta_pending : Z;
  ta_confirmed : Z
}.

Record DashboardStats : Type := {
  todayAppointments : TodayAppointments;
  totalAppointments : Z;
  totalCustomers : Z;
  newCustomers : Z;
  weeklyRevenue : Z
}.

(** The body of the [forEach] over the status counts. *)
Definition tally (counts : TodayAppointments) (row : string * Z)
  : TodayAppointments :=
  let (status, count) := row in
  {| ta_count := ta_count counts + count;
     ta_pending :=
       if String.eqb status "beklemede" then count else ta_pending counts;
     ta_confirmed :=
       if String.eqb status "onaylandı" then count else ta_confirmed counts |}.

(** [rows[0]?.count || '0'] *)
Definition first_count (rows : list Z) : Z :=
  match rows with
  | count :: _ => count
  | [] => 0
  end.

(** [getDashboardStats]; [today] and [oneWeekAgoStr] are the two dates the
    function takes from the clock.  The weekly revenue is the constant
    1250.0 of the source, in hundredths. *)
Definition getDashboardStats (today oneWeekAgoStr : string)
  : Async Store.Db DashboardStats :=
  try_catch
    (await todayAppointmentsResult <-
       Crud.query (Crud.CountAppointmentsByStatus today);
     let counts :=
       fold_left tally todayAppointmentsResult
         {| ta_count := 0; ta_pending := 0; ta_confirmed := 0 |} in
     await totalAppointmentsResult <- Crud.query Crud.CountAppointments;
     await totalCustomersResult <- Crud.query Crud.CountCustomers;
     await newCustomersResult <-
       Crud.query (Crud.CountCustomersSeenSince oneWeekAgoStr);
     ret {| todayAppointments := counts;
            totalAppointments := first_count totalAppointmentsResult;
            totalCustomers := first_count totalCustomersResult;
            newCustomers := first_count newCustomersResult;
            weeklyRevenue := 125000 |})
    (fun error =>
       ret {| todayAppointments :=
                {| ta_count := 0; ta_pending := 0; ta_confirmed := 0 |};
              totalAppointments := 0;
              totalCustomers := 0;
              newCustomers := 0;
              weeklyRevenue := 0 |}).

(** ** lib/actions.ts: [updateAppointment] *)

(** [Partial<Appointment>], the fields the update reads. *)
Record AppointmentChanges : Type := {
  ac_customer_id : option Z;
  ac_service_id : option Z;
  ac_date : option string;
  ac_time : option string;
  ac_duration : option Z;
  ac_status : option string;
  ac_notes : option string;
  ac_payment_status : option string;
  ac_payment_method : option string
}.

(** The three variables of the loop that builds the statement.  An entry
    [(column, n)] of [updateFields] is the text [column = $n]. *)
Record Builder : Type := {
  updateFields : list (string * nat);
  values : list Crud.Value;
  paramIndex : nat
}.

(** One block [if (appointment.column !== undefined) { ... }]. *)
Definition push (column : string) (value : option Crud.Value) (b : Builder)
  : Builder :=
  match value with
  | Some v =>
      {| updateFields := updateFields b ++ [(column, paramIndex b)];
         values := values b ++ [v];
         paramIndex := S (paramIndex b) |}
  | None => b
  end.

(** The nine blocks, in the order of the source. *)
Definition build (appointment : AppointmentChanges) : Builder :=
  push "payment_method"
    (option_map Crud.Text (ac_payment_method appointment))
    (push "payment_status"
       (option_map Crud.Text (ac_payment_status appointment))
       (push "notes" (option_map Crud.Text (ac_notes appointment))
          (push "status" (option_map Crud.Text (ac_status appointment))
             (push "duration"
                (option_map Crud.Number (ac_duration appointment))
                (push "time" (option_map Crud.Text (ac_time appointment))
                   (push "date" (option_map Crud.Text (ac_date appointment))
                      (push "service_id"
                         (option_map Crud.Number (ac_service_id appointment))
                         (push "customer_id"
                            (option_map Crud.Number
                               (ac_customer_id appointment))
                            {| updateFields := []; values := [];
                               paramIndex := 1 |})))))))).

(** A name that is read before the [const] or [let] that declares it in
    the same block has run: a ReferenceError. *)
Definition uninitialized {W A : Type} (name : string) : Async W A :=
  throw (JsError ("Cannot access '" +:+ name +:+ "' before initialization")).

(** What [updateAppointment] returns: the failure object; the stored row as
    the database gives it, when there is nothing to update; or the updated
    appointment with its names. *)
Inductive AppointmentUpdate : Type :=
| NotUpdated (failure : ActionResult)
| Stored (row : option Crud.NamedAppointment)
| Updated (appointment : AppointmentView).

(** [updateAppointment].  The block of its [try] ends with
    [const appointment = updatedAppointment.rows[0]], so that inside the
    block the name [appointment] is this constant and not the parameter:
    the first field test, [appointment.customer_id !== undefined], reads it
    before it is initialized. *)
Definition updateAppointment (id : Z) (parameter : AppointmentChanges)
  : Async Store.Db AppointmentUpdate :=
  try_catch
    (await checkResult <-
       Store.query (Store.Sql (Store.SelectAppointmentById id));
     if (length checkResult =? 0)%nat then
       ret (NotUpdated
              {| success := false;
                 message := "Appointment with ID " +:+ string_of_Z id
                            +:+ " not found. The appointment may have been deleted already." |})
     else
       await appointment <- uninitialized "appointment";
       let b := build appointment in
       if (length (updateFields b) =? 0)%nat then
         (await result <- Crud.query (Crud.SelectAppointmentNamed id);
          ret (Stored (head result)))
       else
         (await result <-
            Crud.query
              (Crud.UpdateAppointment (updateFields b)
                 (values b ++ [Crud.Number id]) (paramIndex b));
          await updatedAppointment <-
            Crud.query (Crud.SelectAppointmentNamed id);
          match updatedAppointment with
          | [] =>
              throw (JsError
                       "Cannot read properties of undefined (reading 'customer_name')")
          | updated :: _ =>
              ret (Updated
                     {| row := Crud.na_row updated;
                        customer_name :=
                          name_or (Crud.na_customer_name updated)
                            "Unknown Customer";
                        service_name :=
                          name_or (Crud.na_service_name updated)
                            "Unknown Service" |})
          end))
    (fun error =>
       ret (NotUpdated
              {| success := false;
                 message := "Randevu güncellenirken bir hata oluştu." |})).

(** [rows[0]] of [SELECT * FROM appointments WHERE id = $1] *)
Definition appointment_by_id (t : Store.Tables) (id : Z) : option Appointment :=
  head (List.filter (fun a => a_id a =? id) (Store.appointments t)).

(** ** Keys and references of the six tables *)

(** Pairwise distinct keys. *)
Fixpoint distinct (ids : list Z) : bool :=
  match ids with
  | [] => true
  | id :: rest => negb (existsb (Z.eqb id) rest) && distinct rest
  end.

(** The keys of a table are pairwise distinct, and the sequence that numbers
    them is ahead of them all. *)
Definition keyed (ids : list Z) (next : Z) : bool :=
  distinct ids && forallb (fun id => id <? next) ids.

Definition keys_ok (t : Store.Tables) (q : Store.Sequences) : bool :=
  keyed (map c_id (Store.customers t)) (Store.customers_id_seq q)
  && keyed (map s_id (Store.services t)) (Store.services_id_seq q)
  && keyed (map a_id (Store.appointments t)) (Store.appointments_id_seq q)
  && keyed (map p_id (Store.products t)) (Store.products_id_seq q)
  && keyed (map sale_id (Store.sales t)) (Store.sales_id_seq q)
  && keyed (map si_id (Store.sale_items t)) (Store.sale_items_id_seq q).

Definition has_appointment (t : Store.Tables) (id : Z) : bool :=
  existsb (fun a => a_id a =? id) (Store.appointments t).

(** A reference that is NULL points nowhere and is in order. *)
Definition refers (found : Z -> bool) (reference : option Z) : bool :=
  match reference with
  | Some id => found id
  | None => true
  end.

(** The REFERENCES clauses of [initDatabase]: an appointment has its
    customer and its service, a sale its customer and its appointment unless
    they are NULL, and a sale item its sale. *)
Definition references_ok (t : Store.Tables) : bool :=
  forallb (fun a => Store.has_customer t (a_customer_id a)
                    && Store.has_service t (a_service_id a))
    (Store.appointments t)
  && forallb (fun s => refers (Store.has_customer t) (sale_customer_id s)
                       && refers (has_appointment t) (sale_appointment_id s))
       (Store.sales t)
  && forallb (fun item => Store.has_sale t (si_sale_id item))
       (Store.sale_items t).

(** A database in order: keys and references, in the tables and in the
    snapshot a transaction block would go back to. *)
Definition sound (db : Store.Db) : bool :=
  keys_ok (Store.tables db) (Store.seqs db)
  && references_ok (Store.tables db)
  && match Store.txn db with
     | Store.Idle => true
     | Store.Open snapshot =>
         keys_ok snapshot (Store.seqs db) && references_ok snapshot
     end.

(** The rows of the customers, the services and the products hold values
    of their columns: keys, visits, durations and stocks are INTEGER, prices
    DECIMAL(10, 2), and a product name has at most 255 characters. *)
Definition typed (t : Store.Tables) : bool :=
  forallb (fun c => Column.integer (c_id c) && Column.integer (c_visits c))
    (Store.customers t)
  && forallb (fun s => Column.integer (s_id s) && Column.integer (s_duration s)
                       && Column.decimal (s_price s))
       (Store.services t)
  && forallb (fun p => Column.integer (p_id p)
                       && (Column.char_length (p_name p) <=? 255)
                       && Column.decimal (p_price p)
                       && Column.integer (p_stock p))
       (Store.products t).

(** The database after [initDatabase]: six empty tables, sequences at 1. *)
Definition new_shop : Store.Db :=
  {| Store.tables :=
       {| Store.customers := []; Store.services := [];
          Store.appointments := []; Store.products := [];
          Store.sales := []; Store.sale_items := [] |};
     Store.seqs :=
       {| Store.customers_id_seq := 1; Store.services_id_seq := 1;
          Store.appointments_id_seq := 1; Store.products_id_seq := 1;
          Store.sales_id_seq := 1; Store.sale_items_id_seq := 1 |};
     Store.txn := Store.Idle |}.

(** A call of one of the actions, with its arguments. *)
Inductive Call : Type :=
| GetCustomerById (id : Z)
| CreateCustomer (customer : NewCustomer)
| UpdateCustomer (id : Z) (customer : CustomerChanges)
| GetServiceById (id : Z)
| CreateService (service : NewService)
| UpdateService (id : Z) (service : ServiceChanges)
| GetProductById (id : Z)
| CreateProduct (product : NewProduct)
| UpdateProduct (id : Z) (product : ProductChanges)
| DeleteEntity (entity : Entity) (id : Z)
| GetAppointmentById (id : Z)
| CreateAppointment (appointment : NewAppointment)
| UpdateAppointment (id : Z) (appointment : AppointmentChanges)
| ProcessAppointmentPayment (today : string) (id : Z)
    (paymentMethod : PaymentMethod)
| GetSaleById (id : Z)
| CreateProductSale (today : string) (customerId : Z) (items : list Item)
    (paymentMethod : PaymentMethod)
| GetDashboardStats (today oneWeekAgoStr : string).

(** The database a call leaves behind, whatever it returns or throws, in a
    process in the given time zone. *)
Definition perform (zone : TimeZone) (db : Store.Db) (call : Call)
  : Store.Db :=
  match call with
  | GetCustomerById id => snd (getCustomerById zone id db)
  | CreateCustomer customer => snd (createCustomer customer db)
  | UpdateCustomer id customer => snd (updateCustomer id customer db)
  | GetServiceById id => snd (getServiceById id db)
  | CreateService service => snd (createService service db)
  | UpdateService id service => snd (updateService id service db)
  | GetProductById id => snd (getProductById id db)
  | CreateProduct product => snd (createProduct product db)
  | UpdateProduct id product => snd (updateProduct id product db)
  | DeleteEntity entity id => snd (deleteEntity entity id db)
  | GetAppointmentById id => snd (getAppointmentById id db)
  | CreateAppointment appointment => snd (createAppointment appointment db)
  | UpdateAppointment id appointment =>
      snd (updateAppointment id appointment db)
  | ProcessAppointmentPayment today id paymentMethod =>
      snd (processAppointmentPayment today id paymentMethod db)
  | GetSaleById id => snd (getSaleById zone id db)
  | CreateProductSale today customerId items paymentMethod =>
      snd (createProductSale today customerId items paymentMethod db)
  | GetDashboardStats today oneWeekAgoStr =>
      snd (getDashboardStats today oneWeekAgoStr db)
  end.

(** The calls of a history, one after the other. *)
Definition history (zone : TimeZone) (calls : list Call) (db : Store.Db)
  : Store.Db :=
  fold_left (perform zone) calls db.

(** The sequences only move forward. *)
Definition seqs_le (q q' : Store.Sequences) : Prop :=
  Store.customers_id_seq q <= Store.customers_id_seq q'
  /\ Store.services_id_seq q <= Store.services_id_seq q'
  /\ Store.appointments_id_seq q <= Store.appointments_id_seq q'
  /\ Store.products_id_seq q <= Store.products_id_seq q'
  /\ Store.sales_id_seq q <= Store.sales_id_seq q'
  /\ Store.sale_items_id_seq q <= Store.sale_items_id_seq q'.

(** [references_ok], row by row. *)
Definition refs (t : Store.Tables) : Prop :=
  (forall a, In a (Store.appointments t) ->
             In (a_customer_id a) (map c_id (Store.customers t))
             /\ In (a_service_id a) (map s_id (Store.services t)))
  /\ (forall s, In s (Store.sales t) ->
                (forall c, sale_customer_id s = Some c ->
                           In c (map c_id (Store.customers t)))
                /\ (forall a, sale_appointment_id s = Some a ->
                              In a (map a_id (Store.appointments t))))
  /\ (forall item, In item (Store.sale_items t) ->
                   In (si_sale_id item) (map sale_id (Store.sales t))).


(** What a delete leaves of the rows that pointed to the deleted one. *)
Definition unreferenced (entity : Entity) (id : Z) (t : Store.Tables) : Prop :=
  (forall a, In a (Store.appointments t) ->
             match entity with
             | CustomerEntity => a_customer_id a <> id
             | ServiceEntity => a_service_id a <> id
             | AppointmentEntity => a_id a <> id
             | ProductEntity => True
             end)
  /\ (forall s, In s (Store.sales t) ->
                match entity with
                | CustomerEntity => sale_customer_id s <> Some id
                | AppointmentEntity => sale_appointment_id s <> Some id
                | ServiceEntity | ProductEntity => True
                end).

(** ** app/layout.tsx: [initializeDatabaseWithMigrations]

    The function runs when the application starts.  It returns nothing: the
    model gives the last line it writes to the console and the catalog it
    leaves.  [initDatabase] and [migrateDatabase] catch their own errors, so
    the [catch] of the source has nothing to catch. *)
Definition initializeDatabaseWithMigrations (db : Catalog.t)
  : string * Catalog.t :=
  let (initialized, db1) := Catalog.initDatabase db in
  if negb initialized then ("Failed to initialize database tables", db1)
  else
    let (migrated, db2) := Catalog.migrateDatabase db1 in
    if negb migrated then ("Failed to migrate database schema", db2)
    else ("Database initialization and migration completed successfully", db2).

(** ** app/api/dashboard-stats/route.ts *)

Module DashboardStatsRoute.

(** The response: its status, and as its body the statistics or the error
    object. *)
Record StatsResponse : Type := {
  code : Z;
  payload : DashboardStats + list (string * string)
}.

(** [GET]; [NextResponse.json(stats)] answers with status 200. *)
Definition GET {World : Type} (getDashboardStats : Async World DashboardStats)
  : Async World StatsResponse :=
  try_catch
    (await stats <- getDashboardStats;
     ret {| code := 200; payload := inl stats |})
    (fun error =>
       ret {| code := 500;
              payload :=
                inr [("error", "Failed to fetch dashboard stats");
                     ("message", message_or error "Unknown error")] |}).

End DashboardStatsRoute.

(* ===================================================================== *)
(** * Part II: properties                                                 *)
(* ===================================================================== *)

(** ** Strings *)

Lemma prefix_spec (needle s : string) :
  String.prefix needle s = true <-> exists post, s = needle +:+ post.
Proof.
  revert s. induction needle as [|a needle IH]; intros s; simpl.
  - split; [intros _; exists s; reflexivity | now destruct s].
  - destruct s as [|b s]; simpl.
    + split; [discriminate | intros [post H]; discriminate].
    + destruct (Ascii.ascii_dec a b) as [->|Hne].
      * rewrite IH. split; intros [post H]; exists post.
        -- now rewrite H.
        -- now injection H.
      * split; [discriminate|]. intros [post H]. injection H as H1 H2.
        congruence.
Qed.

Lemma includes_spec (s needle : string) :
  includes s needle = true <-> contains s needle.
Proof.
  unfold contains. induction s as [|a s IH].
  - cbn [includes]. destruct (String.prefix needle "") eqn:E.
    + split; [|reflexivity]. intros _. apply prefix_spec in E.
      destruct E as [post E]. exists "", post. exact E.
    + split; [discriminate|]. intros [pre [post H]].
      destruct pre; simpl in H.
      * assert (String.prefix needle "" = true)
          by (apply prefix_spec; eauto). congruence.
      * discriminate.
  - cbn [includes]. destruct (String.prefix needle (String a s)) eqn:E.
    + split; [|reflexivity]. intros _. apply prefix_spec in E.
      destruct E as [post E]. exists "", post. exact E.
    + rewrite IH. split.
      * intros [pre [post H]]. exists (String a pre), post. simpl. now rewrite H.
      * intros [pre [post H]]. destruct pre as [|b pre]; simpl in H.
        -- assert (String.prefix needle (String a s) = true)
             by (apply prefix_spec; eauto). congruence.
        -- injection H as _ H. eauto.
Qed.

Lemma contains_nonempty (s needle : string) :
  contains s needle -> truthy needle = true -> truthy s = true.
Proof.
  intros [pre [post ->]] H. destruct pre; [|reflexivity].
  destruct needle; [discriminate|reflexivity].
Qed.

Lemma isRetriableError_spec (message : string) :
  isRetriableError message = true <-> transient message.
Proof.
  unfold isRetriableError, transient.
  rewrite andb_true_iff, !orb_true_iff, !includes_spec. split.
  - tauto.
  - intros H. split; [|tauto].
    destruct H as [H|[H|H]]; eapply contains_nonempty; eauto.
Qed.

(** ** The query executor *)

Section QueryExecutorFacts.

Context {State : Type} {Stmt : Type -> Type}.
Variable pool_is_null : State -> bool.
Variable init_pool : State -> bool * State.
Variable pool_query : forall A, Stmt A -> State -> PoolReply A * State.

Lemma query_ready {A} (text : Stmt A) (st : State) :
  pool_ready pool_is_null init_pool st = true ->
  query pool_is_null init_pool pool_query text st
  = query_loop pool_query 3 text 0 JsNull
      (after_init pool_is_null init_pool st) [].
Proof.
  unfold pool_ready, after_init, query. destruct (pool_is_null st).
  - destruct (init_pool st) as [b st1]. simpl. now intros ->.
  - reflexivity.
Qed.

(** The three rounds of the loop, spelled out. *)
Lemma query_loop_rounds {A} (text : Stmt A) (st : State) :
  exists n : nat,
    (n <= 2)%nat
    /\ query_loop pool_query 3 text 0 JsNull st []
       = (outcome_of_reply (fst (nth_attempt pool_query text n st)),
          snd (nth_attempt pool_query text n st),
          retry_log n)
    /\ (forall k, (k < n)%nat ->
          exists message,
            fst (nth_attempt pool_query text k st) = Rejected message
            /\ isRetriableError message = true)
    /\ (forall message,
          fst (nth_attempt pool_query text n st) = Rejected message ->
          isRetriableError message = false \/ n = 2%nat).
Proof.
  cbn [query_loop nth_attempt].
  change (0 <? maxRetries) with true. change (0 <? maxRetries - 1) with true.
  cbv iota.
  destruct (pool_query A text st) as [[r1|m1] st1] eqn:E1.
  { exists 0%nat. cbn [nth_attempt]. rewrite E1. simpl.
    split; [lia|]. split; [reflexivity|]. split; [intros; lia | discriminate]. }
  destruct (isRetriableError m1) eqn:R1; cbn [andb]; cbv iota.
  2:{ exists 0%nat. cbn [nth_attempt]. rewrite E1. simpl.
      split; [lia|]. split; [reflexivity|]. split; [intros; lia |].
      intros ? [= <-]. now left. }
  assert (K0 : forall k, (k < 1)%nat ->
            exists message,
              fst (nth_attempt pool_query text k st) = Rejected message
              /\ isRetriableError message = true).
  { intros k Hk. assert (k = 0%nat) as -> by lia. cbn [nth_attempt].
    rewrite E1. eauto. }
  change (0 + 1 <? maxRetries) with true.
  change (0 + 1 <? maxRetries - 1) with true.
  change (1000 * 2 ^ (0 + 1 - 1)) with 1000. cbv iota.
  destruct (pool_query A text st1) as [[r2|m2] st2] eqn:E2.
  { exists 1%nat. cbn [nth_attempt]. rewrite E1. cbn [snd]. rewrite E2. simpl.
    split; [lia|]. split; [reflexivity|]. split; [exact K0 | discriminate]. }
  destruct (isRetriableError m2) eqn:R2; cbn [andb]; cbv iota.
  2:{ exists 1%nat. cbn [nth_attempt]. rewrite E1. cbn [snd]. rewrite E2. simpl.
      split; [lia|]. split; [reflexivity|]. split; [exact K0 |].
      intros ? [= <-]. now left. }
  assert (K1 : forall k, (k < 2)%nat ->
            exists message,
              fst (nth_attempt pool_query text k st) = Rejected message
              /\ isRetriableError message = true).
  { intros k Hk. destruct k as [|[|k]]; cbn [nth_attempt]; [| |lia].
    - rewrite E1. eauto.
    - rewrite E1. cbn [snd]. rewrite E2. eauto. }
  change (0 + 1 + 1 <? maxRetries) with true.
  change (0 + 1 + 1 <? maxRetries - 1) with false.
  change (1000 * 2 ^ (0 + 1 + 1 - 1)) with 2000.
  cbv iota.
  exists 2%nat. cbn [nth_attempt]. rewrite E1. cbn [snd]. rewrite E2. cbn [snd].
  destruct (pool_query A text st2) as [[r3|m3] st3] eqn:E3;
    rewrite ?andb_false_r; simpl.
  - split; [lia|]. split; [reflexivity|]. split; [exact K1 | discriminate].
  - split; [lia|]. split; [reflexivity|]. split; [exact K1 | now right].
Qed.

End QueryExecutorFacts.

(** C3. [query(sql, params)] retries a failing statement only when the error
    message contains a connection or timeout indicator; it retries at most
    twice, sleeping 1000 ms and then 2000 ms; the value it throws is the
    error of the last [pool.query] call, unchanged; and an error that is not
    transient is thrown after the first call, with no retry.  The replies of
    the pool are arbitrary. *)
Theorem query_retry_policy :
  forall (State : Type) (Stmt : Type -> Type)
         (pool_is_null : State -> bool) (init_pool : State -> bool * State)
         (pool_query : forall A, Stmt A -> State -> PoolReply A * State)
         (A : Type) (text : Stmt A) (st : State),
    pool_ready pool_is_null init_pool st = true ->
    let reply k :=
      nth_attempt pool_query text k (after_init pool_is_null init_pool st) in
    let run := query pool_is_null init_pool pool_query text st in
    exists retries : nat,
      (retries <= 2)%nat
      /\ run = (outcome_of_reply (fst (reply retries)),
                snd (reply retries),
                retry_log retries)
      /\ (forall k, (k < retries)%nat ->
            exists message,
              fst (reply k) = Rejected message /\ transient message)
      /\ (forall message,
            fst (reply retries) = Rejected message ->
            ~ transient message \/ retries = 2%nat)
      /\ (forall message,
            fst (reply 0%nat) = Rejected message ->
            ~ transient message ->
            run = (Thrown (JsError message), snd (reply 0%nat), [Attempt])).
Proof.
  intros State Stmt pool_is_null init_pool pool_query A text st Hready reply run.
  subst run. rewrite (query_ready _ _ _ _ _ Hready).
  destruct (query_loop_rounds pool_query text
              (after_init pool_is_null init_pool st))
    as (n & Hn & Hrun & Hbefore & Hlast).
  fold (reply n) in Hrun, Hlast.
  exists n. split; [exact Hn|]. split; [exact Hrun|]. split; [|split].
  - intros k Hk. destruct (Hbefore k Hk) as (m & Hm & Hr).
    exists m. split; [exact Hm|]. now apply isRetriableError_spec.
  - intros m Hm. destruct (Hlast m Hm) as [Hr | ->]; [left | now right].
    rewrite <- isRetriableError_spec. congruence.
  - intros m Hm Hnt. destruct n as [|n].
    + rewrite Hrun. unfold reply in *. rewrite Hm. reflexivity.
    + destruct (Hbefore 0%nat ltac:(lia)) as (m' & Hm' & Hr).
      fold (reply 0%nat) in Hm'. rewrite Hm in Hm'. injection Hm' as <-.
      apply isRetriableError_spec in Hr. contradiction.
Qed.

(** The policy at work on [flaky_pool]: two lost connections, then a row. *)
Lemma query_retry_policy_witness :
  pool_ready (fun _ : nat => false) (fun n => (true, n)) 0%nat = true
  /\ exists retries : nat,
       (retries <= 2)%nat
       /\ query (fun _ : nat => false) (fun n => (true, n)) flaky_pool
            SelectOne 0%nat
          = (outcome_of_reply
               (fst (nth_attempt flaky_pool SelectOne retries 0%nat)),
             snd (nth_attempt flaky_pool SelectOne retries 0%nat),
             retry_log retries).
Proof.
  split; [reflexivity|].
  destruct (query_retry_policy nat ProbeStmt (fun _ => false)
              (fun n => (true, n)) flaky_pool Z SelectOne 0%nat eq_refl)
    as (n & Hn & Hrun & _).
  exists n. split; [exact Hn | exact Hrun].
Defined.

Example query_flaky_pool :
  query (fun _ : nat => false) (fun n => (true, n)) flaky_pool SelectOne 0%nat
  = (Returned 1, 3%nat,
     [Attempt; Sleep 1000; Attempt; Sleep 2000; Attempt]).
Proof. reflexivity. Qed.

(** ** The connection manager *)

(** C4, as stated, fails: on a server with the driver installed and no
    [DATABASE_URL], no real pool is built, yet no mock pool is substituted and
    initialization reports failure. *)
Lemma initPool_without_url_fails :
  no_real_pool env_without_url
  /\ ensureDatabaseConnection env_without_url None = (false, None)
  /\ ensureDatabaseConnection env_without_url None <> (true, Some MockPool).
Proof.
  split; [right; right; reflexivity|]. split; [reflexivity | discriminate].
Qed.

(** C4, amended.  In a browser, without the pg driver, or when building the
    pool throws, the connection manager installs the mock pool and reports
    success.  On a server with the driver and no [DATABASE_URL] it reports
    failure and installs no pool. *)
Theorem initPool_mock_fallback :
  forall env : Env,
    (in_browser env = true
     \/ pg_available env = false
     \/ (exists url, DATABASE_URL env = Some url /\ truthy url = true
                     /\ pool_constructor_throws env = true) ->
     ensureDatabaseConnection env None = (true, Some MockPool))
    /\ (in_browser env = false -> pg_available env = true ->
        DATABASE_URL env = None ->
        ensureDatabaseConnection env None = (false, None)).
Proof.
  intros env. unfold ensureDatabaseConnection, initPool, createMockPool. split.
  - intros [H | [H | (url & Hu & Ht & Hc)]].
    + now rewrite H.
    + rewrite H. now destruct (in_browser env).
    + rewrite Hu, Ht, Hc. simpl.
      destruct (in_browser env); [reflexivity|].
      now destruct (pg_available env).
  - intros Hb Hp Hu. now rewrite Hb, Hp, Hu.
Qed.

Lemma initPool_mock_fallback_witness :
  ensureDatabaseConnection env_browser None = (true, Some MockPool)
  /\ ensureDatabaseConnection env_without_url None = (false, None).
Proof.
  split.
  - apply (proj1 (initPool_mock_fallback env_browser)). left. reflexivity.
  - apply (proj2 (initPool_mock_fallback env_without_url)); reflexivity.
Defined.

(** Once a pool is installed, [ensureDatabaseConnection] keeps it. *)
Lemma ensureDatabaseConnection_idempotent (env : Env) (pool : option Pool) :
  forall connected pool',
    ensureDatabaseConnection env pool = (connected, pool') ->
    pool' <> None ->
    ensureDatabaseConnection env pool' = (true, pool').
Proof.
  intros connected pool' _ H. now destruct pool'.
Qed.

(** ** The administrative endpoints *)

(** C6, as stated, fails: db-init answers 500 when the connection manager
    reports failure. *)
Lemma db_init_status_500 :
  http_status
    (fst (DbInit.GET (connect env_without_url) succeed succeed succeed None))
  = 500.
Proof. reflexivity. Qed.

(** C6, amended.  db-check and db-reset answer 200 on every path and embed a
    failure in the payload; db-init answers 200 when connecting, initializing
    and migrating succeed and nothing throws, and otherwise 500 with a
    [{success: false, message}] payload. *)
Theorem admin_endpoints_status :
  (forall hostname url,
      let r := DbCheck.GET hostname url in
      http_status r = 200
      /\ (match url with Some u => truthy u | None => false end = false ->
          error_payload r))
  /\ (forall (World : Type) (reset seed : World -> Outcome bool * World) w,
        let r := fst (DbReset.GET reset seed w) in
        http_status r = 200
        /\ (reset_succeeds reset seed w = false -> error_payload r))
  /\ (forall (World : Type)
             (connect init migrate seed : World -> Outcome bool * World) w,
        let r := fst (DbInit.GET connect init migrate seed w) in
        if DbInit.setup_succeeds connect init migrate seed w
        then http_status r = 200
        else http_status r = 500
             /\ exists message,
                 body r = [("success", JBool false);
                           ("message", JString message)]).
Proof.
  split; [|split].
  - intros hostname url r. subst r. unfold DbCheck.GET, error_payload.
    destruct url as [u|]; [destruct (truthy u) eqn:Hu|]; simpl.
    + split; [reflexivity | discriminate].
    + split; [reflexivity | eauto].
    + split; [reflexivity | eauto].
  - intros World reset seed w r. subst r.
    unfold DbReset.GET, reset_succeeds, DbReset.caught, error_payload.
    destruct (reset w) as [[[|]|e] w1]; simpl; [| eauto | eauto].
    destruct (seed w1) as [[[|]|e] w2]; simpl; [| eauto | eauto].
    split; [reflexivity | discriminate].
  - intros World connect init migrate seed w r. subst r.
    unfold DbInit.GET, DbInit.setup_succeeds, DbInit.caught, DbInit.failed.
    destruct (connect w) as [[[|]|e] w1]; simpl; [| eauto | eauto].
    destruct (init w1) as [[[|]|e] w2]; simpl; [| eauto | eauto].
    destruct (migrate w2) as [[[|]|e] w3]; simpl; [| eauto | eauto].
    destruct (seed w3) as [[s|e] w4]; simpl; [reflexivity | eauto].
Qed.

Lemma admin_endpoints_status_witness :
  error_payload (DbCheck.GET (fun _ => None) None)
  /\ error_payload
       (fst (DbReset.GET (fun w : unit => (Returned false, w)) succeed tt)).
Proof.
  destruct admin_endpoints_status as (Hcheck & Hreset & _). split.
  - apply (proj2 (Hcheck (fun _ => None) None)). reflexivity.
  - apply (proj2 (Hreset unit (fun w => (Returned false, w)) succeed tt)).
    reflexivity.
Defined.

(** ** One call of [pool.query] is the common case *)

Section QueryOnce.

Context {State : Type} {Stmt : Type -> Type}.
Variable pool_is_null : State -> bool.
Variable init_pool : State -> bool * State.
Variable pool_query : forall A, Stmt A -> State -> PoolReply A * State.

Lemma query_resolved {A} (text : Stmt A) (st st' : State) (res : A) :
  pool_is_null st = false ->
  pool_query A text st = (Resolved res, st') ->
  query pool_is_null init_pool pool_query text st
  = (Returned res, st', [Attempt]).
Proof.
  intros Hpool Hq. unfold query. rewrite Hpool.
  change (Z.to_nat maxRetries) with 3%nat. cbn [query_loop].
  change (0 <? maxRetries) with true. cbv iota. now rewrite Hq.
Qed.

Lemma query_rejected {A} (text : Stmt A) (st st' : State) message :
  pool_is_null st = false ->
  pool_query A text st = (Rejected message, st') ->
  isRetriableError message = false ->
  query pool_is_null init_pool pool_query text st
  = (Thrown (JsError message), st', [Attempt]).
Proof.
  intros Hpool Hq Hfatal. unfold query. rewrite Hpool.
  change (Z.to_nat maxRetries) with 3%nat. cbn [query_loop].
  change (0 <? maxRetries) with true. cbv iota. now rewrite Hq, Hfatal.
Qed.

End QueryOnce.

(** ** The schema migrator *)

(** The state after the server has received [sql] and changed nothing. *)
Lemma catalog_query_exec (sql : Catalog.Sql) (db : Catalog.t) :
  Catalog.query sql db
  = match Catalog.apply sql db with
    | inr (rows, tables', functions') =>
        (Returned rows,
         {| Catalog.tables := tables';
            Catalog.keys := Catalog.keys_after sql db;
            Catalog.functions := functions';
            Catalog.journal := Catalog.journal db ++ [sql] |})
    | inl e =>
        (Thrown (JsError (Catalog.sqlerrm e)),
         {| Catalog.tables := Catalog.tables db;
            Catalog.keys := Catalog.keys db;
            Catalog.functions := Catalog.functions db;
            Catalog.journal := Catalog.journal db ++ [sql] |})
    end.
Proof.
  unfold Catalog.query.
  destruct (Catalog.apply sql db) as [e | [[rows tables'] functions']] eqn:E.
  - erewrite query_rejected; [reflexivity | reflexivity | | ].
    + cbn. rewrite E. reflexivity.
    + now destruct e.
  - erewrite query_resolved; [reflexivity | reflexivity |].
    cbn. rewrite E. reflexivity.
Qed.

Lemma extends_refl (db : Catalog.t) : extends db db.
Proof. split; auto. Qed.

Lemma extends_trans (a b c : Catalog.t) :
  extends a b -> extends b c -> extends a c.
Proof. intros [H1 H2] [H3 H4]. split; auto. Qed.

(** Whatever a statement does, nothing is lost and the journal grows by the
    statement. *)
Lemma catalog_query_extends (sql : Catalog.Sql) (db db' : Catalog.t) out :
  Catalog.query sql db = (out, db') ->
  extends db db' /\ Catalog.journal db' = Catalog.journal db ++ [sql].
Proof.
  rewrite catalog_query_exec.
  destruct (Catalog.apply sql db) as [e | [[rows tables'] functions']] eqn:E.
  - intros [= <- <-]. split; [|reflexivity].
    unfold extends, Catalog.has_table, Catalog.has_column. cbn. auto.
  - intros [= <- <-]. split; [|reflexivity].
    unfold extends, Catalog.has_table, Catalog.has_column. cbn.
    destruct sql; cbn in E.
    + injection E as <- <- <-. auto.
    + injection E as <- <- <-. auto.
    + injection E as <- <- <-. auto.
    + destruct (Catalog.tables db !! table) as [old|] eqn:Ht; [|discriminate].
      destruct (existsb _ columns); [discriminate|].
      injection E as <- <- <-. split.
      * intros t. destruct (decide (table = t)) as [<-|Hne].
        -- now rewrite lookup_insert_eq.
        -- now rewrite lookup_insert_ne.
      * intros t c. destruct (decide (table = t)) as [<-|Hne].
        -- rewrite lookup_insert_eq, Ht. rewrite !bool_decide_eq_true.
           set_solver.
        -- now rewrite lookup_insert_ne.
    + destruct (Catalog.has_table db table) eqn:Ht.
      * injection E as <- <- <-. auto.
      * destruct (forallb (Catalog.has_table db) references);
          [|discriminate].
        destruct (forallb (Catalog.has_key db) references); [|discriminate].
        injection E as <- <- <-.
        unfold Catalog.has_table in Ht.
        destruct (Catalog.tables db !! table) eqn:Hl; [discriminate|].
        split.
        -- intros t. destruct (decide (table = t)) as [<-|Hne].
           ++ now rewrite lookup_insert_eq.
           ++ now rewrite lookup_insert_ne.
        -- intros t c. destruct (decide (table = t)) as [<-|Hne].
           ++ now rewrite Hl.
           ++ now rewrite lookup_insert_ne.
    + injection E as <- <- <-. auto.
Qed.
Lemma bind_returned {W A B} (m : Async W A) (k : A -> Async W B) w b w'' :
  bind m k w = (Returned b, w'') ->
  exists a w', m w = (Returned a, w') /\ k a w' = (Returned b, w'').
Proof.
  unfold bind. destruct (m w) as [[a|e] w']; [eauto | discriminate].
Qed.

(** A column check followed by its guarded ALTER TABLE. *)
Lemma ensure_column_post table column columns db rows d1 x d2 :
  Catalog.query (Catalog.SelectColumn table column) db = (Returned rows, d1) ->
  (if Catalog.empty rows
   then Catalog.query (Catalog.AlterTableAddColumns table columns)
   else ret []) d1 = (Returned x, d2) ->
  In column columns ->
  Catalog.has_column d2 table column = true /\ extends db d2.
Proof.
  intros H1 H2 Hin.
  pose proof (catalog_query_extends _ _ _ _ H1) as [Hext1 _].
  rewrite catalog_query_exec in H1. cbn in H1. injection H1 as <- <-.
  destruct (Catalog.has_column db table column) eqn:Hc.
  - cbn in H2. injection H2 as <- <-. split; [exact Hc | exact Hext1].
  - cbn [Catalog.empty length Nat.eqb] in H2.
    pose proof (catalog_query_extends _ _ _ _ H2) as [Hext2 _].
    split; [|exact (extends_trans _ _ _ Hext1 Hext2)].
    rewrite catalog_query_exec in H2. cbn in H2.
    destruct (Catalog.tables db !! table) as [old|] eqn:Ht; [|discriminate].
    destruct (existsb _ columns); [discriminate|].
    injection H2 as <- <-. unfold Catalog.has_column. cbn.
    rewrite lookup_insert_eq. apply bool_decide_eq_true.
    apply elem_of_union_r, elem_of_list_to_set, list_elem_of_In, Hin.
Qed.

(** A table check followed by its guarded CREATE TABLE. *)
Lemma ensure_table_post table columns references db rows d1 x d2 :
  Catalog.query (Catalog.SelectTable table) db = (Returned rows, d1) ->
  (if Catalog.empty rows
   then Catalog.query
          (Catalog.CreateTableIfNotExists table columns references)
   else ret []) d1 = (Returned x, d2) ->
  Catalog.has_table d2 table = true
  /\ extends db d2
  /\ (Catalog.has_table db table = false ->
      forall column, In column columns ->
                     Catalog.has_column d2 table column = true).
Proof.
  intros H1 H2.
  pose proof (catalog_query_extends _ _ _ _ H1) as [Hext1 _].
  rewrite catalog_query_exec in H1. cbn in H1. injection H1 as <- <-.
  destruct (Catalog.has_table db table) eqn:Hc.
  - cbn in H2. injection H2 as <- <-.
    split; [exact Hc|]. split; [exact Hext1 | discriminate].
  - cbn [Catalog.empty length Nat.eqb] in H2.
    pose proof (catalog_query_extends _ _ _ _ H2) as [Hext2 _].
    rewrite catalog_query_exec in H2. cbn in H2.
    change (Catalog.has_table _ table) with (Catalog.has_table db table) in H2.
    rewrite Hc in H2.
    destruct (forallb _ references); cbn [negb] in H2; [|discriminate].
    destruct (forallb _ references); cbn [negb] in H2; [|discriminate].
    injection H2 as <- <-.
    unfold Catalog.has_table, Catalog.has_column. cbn.
    rewrite lookup_insert_eq.
    split; [reflexivity|]. split; [exact (extends_trans _ _ _ Hext1 Hext2)|].
    intros _ column Hin. apply bool_decide_eq_true.
    apply elem_of_list_to_set, list_elem_of_In, Hin.
Qed.

Lemma migration_migrated (db db' : Catalog.t) (u : unit) :
  Catalog.migration db = (Returned u, db') ->
  migrated db'
  /\ "public.init_sale_items_table" ∈ Catalog.functions db'.
Proof.
  intros H. unfold Catalog.migration in H.
  apply bind_returned in H as (r1 & d1 & H1 & H).
  apply bind_returned in H as (x1 & d2 & H2 & H).
  apply bind_returned in H as (r3 & d3 & H3 & H).
  apply bind_returned in H as (x3 & d4 & H4 & H).
  apply bind_returned in H as (r5 & d5 & H5 & H).
  apply bind_returned in H as (x5 & d6 & H6 & H).
  apply bind_returned in H as (r7 & d7 & H7 & H).
  apply bind_returned in H as (x7 & d8 & H8 & H).
  apply bind_returned in H as (r9 & d9 & H9 & H).
  apply bind_returned in H as (x9 & d10 & H10 & H).
  apply bind_returned in H as (x11 & d11 & H11 & H).
  injection H as _ <-.
  destruct (ensure_column_post _ _ _ _ _ _ _ _ H1 H2) as [C1 E1];
    [now left|].
  destruct (ensure_column_post _ _ _ _ _ _ _ _ H3 H4) as [C2 E2];
    [now left|].
  destruct (ensure_table_post _ _ _ _ _ _ _ _ H5 H6) as (C3 & E3 & _).
  destruct (ensure_table_post _ _ _ _ _ _ _ _ H7 H8) as (C4 & E4 & _).
  assert (Catalog.has_table d10 "sale_items" = true
          /\ Catalog.has_column d10 "sale_items" "item_id" = true
          /\ extends d8 d10) as (C5 & C6 & E5).
  { destruct (Catalog.empty r9) eqn:Hr9.
    - destruct (ensure_table_post "sale_items" Catalog.sale_items_columns
                  ["sales"] d8 r9 d9 x9 d10 H9) as (T & E & Hcols).
      { rewrite Hr9. exact H10. }
      split; [exact T|]. split; [|exact E].
      apply Hcols.
      + rewrite catalog_query_exec in H9. cbn in H9. injection H9 as <- _.
        destruct (Catalog.has_table d8 "sale_items"); [discriminate|reflexivity].
      + right; right; now left.
    - apply bind_returned in H10 as (r10 & d9' & H10 & H10').
      destruct (ensure_column_post _ _ _ _ _ _ _ _ H10 H10') as [C E];
        [now left|].
      pose proof (catalog_query_extends _ _ _ _ H9) as [E9 _].
      assert (Catalog.has_table d9 "sale_items" = true) as T.
      { rewrite catalog_query_exec in H9. cbn in H9. injection H9 as <- <-.
        destruct (Catalog.has_table d8 "sale_items") eqn:Ht; [|discriminate].
        exact Ht. }
      split; [apply E, T|]. split; [exact C|].
      exact (extends_trans _ _ _ E9 E). }
  pose proof (catalog_query_extends _ _ _ _ H11) as [E6 _].
  split.
  - unfold migrated.
    repeat split.
    + apply E6, E5, E4, E3, E2, C1.
    + apply E6, E5, E4, E3, C2.
    + apply E6, E5, E4, C3.
    + apply E6, E5, C4.
    + apply E6, C5.
    + apply E6, C6.
  - rewrite catalog_query_exec in H11. cbn in H11. injection H11 as _ <-.
    cbn. apply elem_of_union_l, elem_of_singleton. reflexivity.
Qed.

(** On a migrated catalog the run is seven statements long. *)
Lemma migration_rerun (db : Catalog.t) :
  migrated db ->
  Catalog.migration db
  = (Returned tt,
     {| Catalog.tables := Catalog.tables db;
        Catalog.keys := Catalog.keys db;
        Catalog.functions :=
          {["public.init_sale_items_table"]} ∪ Catalog.functions db;
        Catalog.journal := Catalog.journal db ++ Catalog.rerun_statements |}).
Proof.
  intros (H1 & H2 & H3 & H4 & H5 & H6).
  unfold Catalog.migration, bind.
  rewrite catalog_query_exec. cbn [Catalog.apply]. rewrite H1.
  cbn [Catalog.empty length Nat.eqb ret].
  rewrite catalog_query_exec. cbn [Catalog.apply].
  change (Catalog.has_column _ "appointments" "payment_method")
    with (Catalog.has_column db "appointments" "payment_method").
  rewrite H2. cbn [Catalog.empty length Nat.eqb ret].
  rewrite catalog_query_exec. cbn [Catalog.apply].
  change (Catalog.has_table _ "products")
    with (Catalog.has_table db "products").
  rewrite H3. cbn [Catalog.empty length Nat.eqb ret].
  rewrite catalog_query_exec. cbn [Catalog.apply].
  change (Catalog.has_table _ "sales") with (Catalog.has_table db "sales").
  rewrite H4. cbn [Catalog.empty length Nat.eqb ret].
  rewrite catalog_query_exec. cbn [Catalog.apply].
  change (Catalog.has_table _ "sale_items")
    with (Catalog.has_table db "sale_items").
  rewrite H5. cbn [Catalog.empty length Nat.eqb ret].
  rewrite catalog_query_exec. cbn [Catalog.apply].
  change (Catalog.has_column _ "sale_items" "item_id")
    with (Catalog.has_column db "sale_items" "item_id").
  rewrite H6. cbn [Catalog.empty length Nat.eqb ret].
  rewrite catalog_query_exec. cbn.
  rewrite <- !app_assoc. reflexivity.
Qed.
(** C5, as stated, fails twice over.  On a schema that is already migrated,
    the second run still sends [CREATE OR REPLACE FUNCTION], which no check
    guards, so it does not consist of reads only.  And on a database without
    an appointments table the first run stops at its first ALTER TABLE, and
    the second run sends that ALTER TABLE again. *)
Lemma migrateDatabase_rerun_not_read_only :
  (let db1 := snd (Catalog.migrateDatabase
                     (snd (Catalog.initDatabase Catalog.blank))) in
   existsb Catalog.is_alter_or_create
     (Catalog.issued Catalog.migrateDatabase db1) = true
   /\ forallb Catalog.is_read
        (Catalog.issued Catalog.migrateDatabase db1) = false)
  /\ (let db1 := snd (Catalog.migrateDatabase Catalog.blank) in
      Catalog.issued Catalog.migrateDatabase db1
      = [Catalog.SelectColumn "appointments" "payment_status";
         Catalog.AlterTableAddColumns "appointments" ["payment_status"]]).
Proof. vm_compute. repeat split. Qed.

(** C5, amended.  When a run of [migrateDatabase] succeeds, the next run
    succeeds too, sends no ALTER TABLE and no CREATE TABLE, only the six
    existence checks and the unguarded [CREATE OR REPLACE FUNCTION], and
    leaves tables, columns and functions as they were. *)
Theorem migrateDatabase_idempotent :
  forall db : Catalog.t,
    fst (Catalog.migrateDatabase db) = true ->
    let db1 := snd (Catalog.migrateDatabase db) in
    let db2 := snd (Catalog.migrateDatabase db1) in
    fst (Catalog.migrateDatabase db1) = true
    /\ Catalog.issued Catalog.migrateDatabase db1 = Catalog.rerun_statements
    /\ existsb Catalog.is_table_change
         (Catalog.issued Catalog.migrateDatabase db1) = false
    /\ Catalog.tables db2 = Catalog.tables db1
    /\ Catalog.functions db2 = Catalog.functions db1.
Proof.
  intros db Hok db1 db2. subst db2 db1.
  assert (exists d1, Catalog.migration db = (Returned tt, d1)
                     /\ snd (Catalog.migrateDatabase db) = d1)
    as (d1 & Hrun & ->).
  { unfold Catalog.migrateDatabase in *.
    destruct (Catalog.migration db) as [[[]|e] d1]; [eauto | discriminate]. }
  apply migration_migrated in Hrun as [Hm Hf].
  assert (Hissued : Catalog.issued Catalog.migrateDatabase d1
                    = Catalog.rerun_statements).
  { unfold Catalog.issued, Catalog.migrateDatabase.
    rewrite (migration_rerun d1 Hm). cbn [snd Catalog.journal].
    apply drop_app_length. }
  rewrite Hissued. unfold Catalog.migrateDatabase.
  rewrite (migration_rerun d1 Hm). cbn [fst snd Catalog.tables Catalog.functions].
  split; [reflexivity|]. split; [reflexivity|]. split; [reflexivity|].
  split; [reflexivity|].
  apply subseteq_union_1_L, singleton_subseteq_l, Hf.
Qed.

Lemma migrateDatabase_idempotent_witness :
  fst (Catalog.migrateDatabase first_release) = true
  /\ Catalog.issued Catalog.migrateDatabase
       (snd (Catalog.migrateDatabase first_release))
     = Catalog.rerun_statements.
Proof.
  split; [reflexivity|].
  apply (migrateDatabase_idempotent first_release). reflexivity.
Defined.

(** The first run on the first-release schema, for comparison. *)
Example migrateDatabase_first_release :
  Catalog.issued Catalog.migrateDatabase first_release
  = [Catalog.SelectColumn "appointments" "payment_status";
     Catalog.AlterTableAddColumns "appointments" ["payment_status"];
     Catalog.SelectColumn "appointments" "payment_method";
     Catalog.AlterTableAddColumns "appointments" ["payment_method"];
     Catalog.SelectTable "products";
     Catalog.create_products;
     Catalog.SelectTable "sales";
     Catalog.SelectTable "sale_items";
     Catalog.SelectColumn "sale_items" "item_id";
     Catalog.AlterTableAddColumns "sale_items"
       ["item_id"; "item_type"; "name"; "quantity"];
     Catalog.CreateOrReplaceFunction "public.init_sale_items_table"].
Proof. vm_compute. reflexivity. Qed.

(** ** The row store behind [query] *)

Lemma store_exec_rejected_fatal {A} (text : Store.Stmt A) db message db' :
  Store.exec A text db = (Rejected message, db') ->
  isRetriableError message = false.
Proof.
  destruct text as [c | A d]; cbn [Store.exec].
  - unfold Store.control. destruct c, (Store.txn db); discriminate.
  - unfold Store.data.
    destruct (Store.apply d _ _) as [[e q'] | [[a t'] q']];
      intros [= <- _]; destruct e; reflexivity.
Qed.

(** Every statement takes one call of [pool.query]: the errors of the engine
    are not transient. *)
Lemma store_query_exec {A} (text : Store.Stmt A) (db : Store.Db) :
  Store.query text db
  = (outcome_of_reply (fst (Store.exec A text db)), snd (Store.exec A text db)).
Proof.
  unfold Store.query.
  destruct (Store.exec A text db) as [[res | message] db'] eqn:E.
  - erewrite query_resolved; [reflexivity | reflexivity | exact E].
  - erewrite query_rejected; [reflexivity | reflexivity | exact E |].
    eapply store_exec_rejected_fatal, E.
Qed.

(** A data statement: its effect, or the error with the session closed and
    its transaction block rolled back. *)
Lemma store_query_data {A} (d : Store.Data A) (db : Store.Db) :
  Store.query (Store.Sql d) db
  = match Store.apply d (Store.tables db) (Store.seqs db) with
    | inr (a, t', q') =>
        (Returned a,
         {| Store.tables := t'; Store.seqs := q'; Store.txn := Store.txn db |})
    | inl (e, q') =>
        (Thrown (JsError (Store.sqlerrm e)),
         {| Store.tables := Store.rolled_back db; Store.seqs := q';
            Store.txn := Store.Idle |})
    end.
Proof.
  rewrite store_query_exec. cbn [Store.exec]. unfold Store.data.
  now destruct (Store.apply d _ _) as [[e q'] | [[a t'] q']].
Qed.

Lemma store_query_session (c : Store.Command) (db : Store.Db) :
  Store.query (Store.Session c) db = (Returned tt, snd (Store.control c db)).
Proof.
  rewrite store_query_exec. cbn [Store.exec].
  unfold Store.control. now destruct c, (Store.txn db).
Qed.

(** ROLLBACK, whatever the state of the session. *)
Lemma store_query_rollback (db : Store.Db) :
  Store.query (Store.Session Store.ROLLBACK) db
  = (Returned tt,
     {| Store.tables := Store.rolled_back db; Store.seqs := Store.seqs db;
        Store.txn := Store.Idle |}).
Proof.
  rewrite store_query_session. unfold Store.control, Store.rolled_back.
  destruct db as [t q []]; reflexivity.
Qed.

(** Projections out of explicit tables, sequences and databases. *)
Ltac store_proj :=
  cbn [Store.customers Store.services Store.appointments Store.products
       Store.sales Store.sale_items
       Store.customers_id_seq Store.services_id_seq Store.appointments_id_seq
       Store.products_id_seq Store.sales_id_seq Store.sale_items_id_seq
       Store.tables Store.seqs Store.txn Store.rolled_back].

(** One awaited statement of an action whose binds are unfolded. *)
Ltac await_query :=
  rewrite store_query_data; unfold Store.apply;
  cbn [Store.refused Store.run]; store_proj.

(** ** Lists of rows *)

Lemma filter_existsb_false {A} (f : A -> bool) (l : list A) :
  existsb f l = false -> List.filter f l = [].
Proof.
  induction l as [|a l IH]; [reflexivity|]. simpl.
  destruct (f a); [discriminate | exact IH].
Qed.

Lemma filter_existsb_true {A} (f : A -> bool) (l : list A) a rest :
  List.filter f l = a :: rest -> existsb f l = true /\ f a = true.
Proof.
  intros H. assert (In a (List.filter f l)) as Hin by (rewrite H; now left).
  apply filter_In in Hin as [Hin Hf]. split; [|exact Hf].
  apply existsb_exists. eauto.
Qed.

(** ** The delete actions *)

Lemma delete_select_empty (entity : Entity) (t : Store.Tables) (id : Z) :
  has_row entity t id = false ->
  match entity with
  | CustomerEntity => List.filter (fun c => c_id c =? id) (Store.customers t) = []
  | ServiceEntity => List.filter (fun s => s_id s =? id) (Store.services t) = []
  | AppointmentEntity =>
      List.filter (fun a => a_id a =? id) (Store.appointments t) = []
  | ProductEntity => List.filter (fun p => p_id p =? id) (Store.products t) = []
  end.
Proof. destruct entity; apply filter_existsb_false. Qed.

(** C9. For each entity type with a delete action (customer, service,
    appointment, product), deleting an id that matches no row returns a
    [{success: false, message}] object, throws nothing and leaves the database
    as it was; and whatever the id, a delete action never throws. *)
Theorem delete_missing_id_fails_softly :
  forall (entity : Entity) (id : Z) (db : Store.Db),
    (has_row entity (Store.tables db) id = false ->
     exists text,
       deleteEntity entity id db
       = (Returned {| success := false; message := text |}, db))
    /\ (exists result db', deleteEntity entity id db = (Returned result, db')).
Proof.
  intros entity id [t q x]. split.
  - intros Hmissing. apply delete_select_empty in Hmissing. cbn in Hmissing.
    destruct entity;
      unfold deleteEntity, deleteCustomer, deleteService, deleteAppointment,
        deleteProduct, try_catch, bind;
      await_query; rewrite ?Hmissing; cbn; eauto.
  - destruct entity;
      unfold deleteEntity, deleteCustomer, deleteService, deleteAppointment,
        deleteProduct, try_catch, bind;
      await_query;
      match goal with
      | |- context [(length ?l =? 0)%nat] => destruct l
      | _ => idtac
      end; cbn [length Nat.eqb ret];
      try await_query; cbn; eauto.
Qed.

Lemma delete_missing_id_fails_softly_witness :
  exists text,
    deleteEntity CustomerEntity 7 shop
    = (Returned {| success := false; message := text |}, shop).
Proof.
  apply (proj1 (delete_missing_id_fails_softly CustomerEntity 7 shop)).
  reflexivity.
Defined.

Example deleteCustomer_missing :
  fst (deleteCustomer 7 shop)
  = Returned
      {| success := false;
         message := "Customer with ID 7 not found. The customer may have been deleted already." |}.
Proof. reflexivity. Qed.

(** ** What a column takes *)

Lemma char_length_nonneg (s : string) : 0 <= Column.char_length s.
Proof.
  induction s as [|a s IH]; cbn [Column.char_length]; [lia|].
  destruct (Column.continuation a); lia.
Qed.

Lemma split_chars_fits (s : string) :
  forall n, Column.char_length s <= Z.of_nat n ->
            Column.split_chars n s = (s, EmptyString).
Proof.
  induction s as [|a s IH]; intros n Hn; [reflexivity|].
  cbn [Column.char_length Column.split_chars] in *.
  pose proof (char_length_nonneg s) as H0.
  destruct (Column.continuation a).
  - now rewrite IH by lia.
  - destruct n as [|m]; [lia|]. now rewrite IH by lia.
Qed.


Lemma fits_kept (n : nat) (s : string) :
  Column.char_length s <= Z.of_nat n ->
  Column.fits n s = true /\ Column.kept n s = s.
Proof.
  intros H. unfold Column.fits, Column.kept. now rewrite split_chars_fits.
Qed.

(** ** The two loops of [createProductSale] *)

(** The first loop only reads.  When an item fails, the ROLLBACK undoes
    what the transaction block did before the loop. *)
Lemma validate_items_checked (items : list Item) :
  forall total acc db,
    validate_items items total acc db
    = match checked (Store.tables db) items with
      | inr validated =>
          (Returned (inr (total + order_total validated, acc ++ validated)),
           db)
      | inl text =>
          (Returned (inl (failure text)),
           {| Store.tables := Store.rolled_back db;
              Store.seqs := Store.seqs db; Store.txn := Store.Idle |})
      end.
Proof.
  induction items as [|item rest IH]; intros total acc db.
  - cbn. now rewrite Z.add_0_r, app_nil_r.
  - cbn [validate_items checked]. unfold bind at 1.
    await_query. unfold product_by_id.
    destruct (List.filter _ (Store.products (Store.tables db)))
      as [|product others].
    + cbn [head]. unfold bind. rewrite store_query_rollback.
      now destruct db.
    + cbn [head]. destruct (p_stock product <? quantity item).
      * unfold bind. rewrite store_query_rollback. now destruct db.
      * rewrite IH. store_proj. fold (product_by_id (Store.tables db)).
        destruct (checked (Store.tables db) rest) as [text | validated].
        -- now destruct db.
        -- cbn [order_total fold_right]. fold (order_total validated).
           rewrite <- app_assoc. cbn [app vi_product vi_quantity].
           rewrite Z.add_assoc. now destruct db.
Qed.

Lemma has_sale_app_last t0 (sale : Sale) :
  existsb (fun s => sale_id s =? sale_id sale) (t0 ++ [sale]) = true.
Proof.
  rewrite existsb_app. cbn. rewrite Z.eqb_refl. now rewrite orb_true_r.
Qed.

(** The second loop, inside the transaction block, when the server takes
    its statements: the sale items are stored and the stocks are lowered. *)
Lemma insert_items_stored (validated : list ValidatedItem) :
  forall sale acc cs ss aps ps sls its q1 q2 q3 q4 q5 q6 snapshot,
    existsb (fun s => sale_id s =? sale_id sale) sls = true ->
    items_accepted (sale_id sale) q6 its ps validated = true ->
    insert_items sale validated acc
      {| Store.tables :=
           {| Store.customers := cs; Store.services := ss;
              Store.appointments := aps; Store.products := ps;
              Store.sales := sls; Store.sale_items := its |};
         Store.seqs :=
           {| Store.customers_id_seq := q1; Store.services_id_seq := q2;
              Store.appointments_id_seq := q3; Store.products_id_seq := q4;
              Store.sales_id_seq := q5; Store.sale_items_id_seq := q6 |};
         Store.txn := Store.Open snapshot |}
    = (Returned (inr (acc ++ items_for (sale_id sale) q6 validated)),
       {| Store.tables :=
            {| Store.customers := cs; Store.services := ss;
               Store.appointments := aps;
               Store.products := stock_after validated ps;
               Store.sales := sls;
               Store.sale_items :=
                 its ++ items_for (sale_id sale) q6 validated |};
          Store.seqs :=
            {| Store.customers_id_seq := q1; Store.services_id_seq := q2;
               Store.appointments_id_seq := q3; Store.products_id_seq := q4;
               Store.sales_id_seq := q5;
               Store.sale_items_id_seq := q6 + Z.of_nat (length validated) |};
          Store.txn := Store.Open snapshot |}).
Proof.
  induction validated as [|item rest IH];
    intros sale acc cs ss aps ps sls its q1 q2 q3 q4 q5 q6 snapshot Hsale Hok.
  - cbn. now rewrite Z.add_0_r, !app_nil_r.
  - cbn [items_accepted] in Hok. rewrite !andb_true_iff in Hok.
    destruct Hok as ((((((((Hs & Hid) & Hq) & Hname) & Hprice) & Hnext)
                        & Hkey) & Hstock) & Hrest).
    apply negb_true_iff in Hkey, Hstock.
    cbn [insert_items]. unfold bind at 1. unfold insert_item, try_catch.
    unfold bind at 1. await_query.
    rewrite Hs, Hid, Hq, Hname, Hprice, Hnext, Hkey.
    change (Column.fits 50 "product") with true.
    unfold Store.has_sale. store_proj. rewrite Hsale.
    cbn [andb negb ret]. unfold bind at 1. await_query.
    rewrite Hq, Hstock. cbn [negb].
    change (Column.kept 50 "product") with "product".
    rewrite (IH sale _ cs ss aps _ sls _ q1 q2 q3 q4 q5 (q6 + 1) snapshot Hsale)
      by exact Hrest.
    cbn [items_for stock_after fold_left length].
    rewrite <- !app_assoc. cbn [app].
    rewrite Nat2Z.inj_succ.
    replace (q6 + Z.succ (Z.of_nat (length rest)))
      with (q6 + 1 + Z.of_nat (length rest)) by lia.
    reflexivity.
Qed.

(** The [catch] around the insert of an item, for an error that is not about
    a missing column. *)
Ltac refused_item :=
  match goal with
  | |- context [truthy ?m && includes ?m ?a && includes ?m ?b] =>
      change (truthy m && includes m a && includes m b) with false
  end;
  cbv iota; unfold bind; rewrite store_query_rollback; store_proj; cbn [ret];
  do 2 eexists; split; [reflexivity | eexists; reflexivity].

(** The second loop when the server refuses one of its statements: the
    session is closed, the transaction block is rolled back, and the loop
    hands on an error, as a failure object or as an exception. *)
Lemma insert_items_refused (validated : list ValidatedItem) :
  forall sale acc cs ss aps ps sls its q1 q2 q3 q4 q5 q6 snapshot,
    existsb (fun s => sale_id s =? sale_id sale) sls = true ->
    items_accepted (sale_id sale) q6 its ps validated = false ->
    exists out q,
      insert_items sale validated acc
        {| Store.tables :=
             {| Store.customers := cs; Store.services := ss;
                Store.appointments := aps; Store.products := ps;
                Store.sales := sls; Store.sale_items := its |};
           Store.seqs :=
             {| Store.customers_id_seq := q1; Store.services_id_seq := q2;
                Store.appointments_id_seq := q3; Store.products_id_seq := q4;
                Store.sales_id_seq := q5; Store.sale_items_id_seq := q6 |};
           Store.txn := Store.Open snapshot |}
      = (out,
         {| Store.tables := snapshot; Store.seqs := q;
            Store.txn := Store.Idle |})
      /\ match out with
         | Returned (inl early) => exists text, early = failure text
         | Returned (inr _) => False
         | Thrown _ => True
         end.
Proof.
  induction validated as [|item rest IH];
    intros sale acc cs ss aps ps sls its q1 q2 q3 q4 q5 q6 snapshot Hsale Hno;
    [discriminate|].
  cbn [items_accepted] in Hno.
  cbn [insert_items]. unfold bind at 1. unfold insert_item, try_catch.
  unfold bind at 1. await_query.
  unfold Store.has_sale. store_proj. rewrite Hsale.
  change (Column.fits 50 "product") with true.
  change (Column.kept 50 "product") with "product".
  (* the insert is refused before it runs *)
  destruct (Column.integer (sale_id sale)
            && Column.integer (p_id (vi_product item))
            && Column.integer (vi_quantity item)) eqn:Hints; cbn [negb].
  2:{ refused_item. }
  destruct (Column.fits 255 (p_name (vi_product item))) eqn:Hname;
    cbn [andb negb].
  2:{ refused_item. }
  destruct (Column.decimal (p_price (vi_product item))) eqn:Hprice;
    cbn [negb].
  2:{ refused_item. }
  (* or when it runs *)
  destruct (Column.serial q6) eqn:Hnext; cbn [negb].
  2:{ refused_item. }
  destruct (existsb (fun other => si_id other =? q6) its) eqn:Hkey.
  { refused_item. }
  cbn [ret]. unfold bind at 1. await_query.
  apply andb_true_iff in Hints as [Hints Hq]. rewrite Hq. cbn [negb].
  destruct (existsb _ ps) eqn:Hstock.
  { do 2 eexists. split; [reflexivity | exact I]. }
  cbn [andb negb] in Hno.
  exact (IH sale _ cs ss aps _ sls _ q1 q2 q3 q4 q5 (q6 + 1) snapshot
            Hsale Hno).
Qed.

(** ** Product checkout *)

(** A checkout that does not pass its validation: the customer or a product
    is not found, or a stock is short. *)
Lemma createProductSale_not_validated today customerId items paymentMethod db :
  customer_by_id (Store.tables db) customerId = None
  \/ (exists text, checked (Store.tables db) items = inl text) ->
  exists text,
    createProductSale today customerId items paymentMethod db
    = (Returned (failure text), not_sold db (Store.seqs db)).
Proof.
  destruct db as [t q block]. unfold customer_by_id, not_sold. store_proj.
  intros Hno.
  unfold createProductSale, try_catch. unfold bind at 1.
  rewrite store_query_session.
  assert (Store.control Store.BEGIN
            {| Store.tables := t; Store.seqs := q; Store.txn := block |}
          = (Resolved tt,
             {| Store.tables := t; Store.seqs := q;
                Store.txn :=
                  Store.Open
                    (Store.rolled_back
                       {| Store.tables := t; Store.seqs := q;
                          Store.txn := block |}) |})) as ->
    by now destruct block.
  cbn [snd]. unfold bind at 1. await_query.
  destruct (List.filter _ (Store.customers t)) as [|customer others].
  - unfold bind. rewrite store_query_rollback. store_proj. eauto.
  - destruct Hno as [Hno | [text Hno]]; [discriminate|].
    unfold bind at 1. rewrite validate_items_checked. store_proj.
    rewrite Hno. eauto.
Qed.

(** A checkout that passes its validation and whose statements the server
    takes. *)
Lemma createProductSale_sold today customerId items paymentMethod db
    customer validated :
  customer_by_id (Store.tables db) customerId = Some customer ->
  checked (Store.tables db) items = inr validated ->
  sale_accepted today customerId validated (Store.tables db) (Store.seqs db)
  = true ->
  createProductSale today customerId items paymentMethod db
  = (let '(sale, t', q') :=
       sold today customerId paymentMethod validated
         (Store.tables db) (Store.seqs db) in
     (Returned
        {| sr_success := true;
           sr_message := "Sale created successfully";
           sr_sale :=
             Some {| sv_sale := sale;
                     sv_customer_name := c_name customer;
                     sv_items :=
                       map view_item
                         (items_for (sale_id sale)
                            (Store.sale_items_id_seq (Store.seqs db))
                            validated) |} |},
      {| Store.tables := t'; Store.seqs := q'; Store.txn := Store.Idle |})).
Proof.
  destruct db as [[cs ss aps ps sls its] [q1 q2 q3 q4 q5 q6] block].
  unfold customer_by_id, sale_accepted. store_proj. intros Hc Hchecked Hok.
  rewrite !andb_true_iff in Hok.
  destruct Hok as ((((((Hid & Hday) & Htotal) & Hnext) & Hkey) & Hitems)
                   & Hvisit).
  apply negb_true_iff in Hkey, Hvisit.
  unfold createProductSale, try_catch. unfold bind at 1.
  rewrite store_query_session.
  set (snapshot :=
         Store.rolled_back
           {| Store.tables :=
                {| Store.customers := cs; Store.services := ss;
                   Store.appointments := aps; Store.products := ps;
                   Store.sales := sls; Store.sale_items := its |};
              Store.seqs :=
                {| Store.customers_id_seq := q1; Store.services_id_seq := q2;
                   Store.appointments_id_seq := q3;
                   Store.products_id_seq := q4; Store.sales_id_seq := q5;
                   Store.sale_items_id_seq := q6 |};
              Store.txn := block |}).
  match goal with
  | |- context [Store.control Store.BEGIN ?d] =>
      assert (Store.control Store.BEGIN d
              = (Resolved tt,
                 {| Store.tables := Store.tables d; Store.seqs := Store.seqs d;
                    Store.txn := Store.Open snapshot |})) as ->
        by now destruct block
  end.
  cbn [snd]. store_proj. unfold bind at 1. await_query.
  destruct (List.filter _ cs) as [|found others] eqn:Hfound; [discriminate|].
  cbn [head] in Hc. injection Hc as ->.
  unfold bind at 1. rewrite validate_items_checked. store_proj.
  rewrite Hchecked. rewrite Z.add_0_l.
  unfold bind at 1. await_query.
  rewrite Hid, Hday, Htotal, Hnext, Hkey. cbn [negb].
  unfold Store.has_customer. store_proj.
  destruct (filter_existsb_true _ _ _ _ Hfound) as [-> _].
  unfold bind at 1.
  rewrite insert_items_stored by (try apply has_sale_app_last; exact Hitems).
  unfold bind at 1. await_query. rewrite Hday, Hvisit. cbn [negb].
  unfold bind at 1. rewrite store_query_session.
  cbn [Store.control ret snd]. store_proj.
  unfold sold. store_proj. cbn [sale_id app]. reflexivity.
Qed.

(** The [catch] of [createProductSale]. *)
Ltac caught :=
  cbv beta iota; unfold bind; rewrite store_query_rollback; store_proj;
  cbn [ret]; eauto.

(** A checkout that passes its validation and one of whose statements the
    server refuses: the [catch] rolls back and reports, or the loop has done
    so already. *)
Lemma createProductSale_refused today customerId items paymentMethod db
    customer validated :
  customer_by_id (Store.tables db) customerId = Some customer ->
  checked (Store.tables db) items = inr validated ->
  sale_accepted today customerId validated (Store.tables db) (Store.seqs db)
  = false ->
  exists text q,
    createProductSale today customerId items paymentMethod db
    = (Returned (failure text), not_sold db q).
Proof.
  destruct db as [[cs ss aps ps sls its] [q1 q2 q3 q4 q5 q6] block].
  unfold customer_by_id, sale_accepted, not_sold. store_proj.
  intros Hc Hchecked Hno.
  unfold createProductSale, try_catch. unfold bind at 1.
  rewrite store_query_session.
  set (snapshot :=
         Store.rolled_back
           {| Store.tables :=
                {| Store.customers := cs; Store.services := ss;
                   Store.appointments := aps; Store.products := ps;
                   Store.sales := sls; Store.sale_items := its |};
              Store.seqs :=
                {| Store.customers_id_seq := q1; Store.services_id_seq := q2;
                   Store.appointments_id_seq := q3;
                   Store.products_id_seq := q4; Store.sales_id_seq := q5;
                   Store.sale_items_id_seq := q6 |};
              Store.txn := block |}).
  match goal with
  | |- context [Store.control Store.BEGIN ?d] =>
      assert (Store.control Store.BEGIN d
              = (Resolved tt,
                 {| Store.tables := Store.tables d; Store.seqs := Store.seqs d;
                    Store.txn := Store.Open snapshot |})) as ->
        by now destruct block
  end.
  cbn [snd]. store_proj. unfold bind at 1. await_query.
  destruct (List.filter _ cs) as [|found others] eqn:Hfound; [discriminate|].
  unfold bind at 1. rewrite validate_items_checked. store_proj.
  rewrite Hchecked. rewrite Z.add_0_l.
  unfold bind at 1. await_query.
  unfold Store.has_customer. store_proj.
  destruct (filter_existsb_true _ _ _ _ Hfound) as [-> _].
  (* the sale *)
  destruct (Column.integer customerId); cbn [negb andb] in *.
  2:{ caught. }
  destruct (Column.date today) eqn:Hday; cbn [negb andb] in *.
  2:{ caught. }
  destruct (Column.decimal (order_total validated)); cbn [negb andb] in *.
  2:{ caught. }
  destruct (Column.serial q5); cbn [negb andb] in *.
  2:{ caught. }
  destruct (existsb (fun s => sale_id s =? q5) sls); cbn [negb andb] in *.
  { caught. }
  (* the items *)
  unfold bind at 1. cbn [app].
  destruct (items_accepted q5 q6 its ps validated) eqn:Hitems;
    cbn [andb] in Hno.
  2:{ match goal with
      | |- context [insert_items ?sale validated [] ?d] =>
          destruct (insert_items_refused validated sale [] cs ss aps ps
                      (sls ++ [sale]) its q1 q2 q3 q4 (q5 + 1) q6 snapshot
                      (has_sale_app_last sls sale) Hitems)
            as (out & q & -> & Hout)
      end.
      destruct out as [[early | rows] | e]; [|contradiction|].
      - destruct Hout as [text ->]. cbn [ret]. eauto.
      - caught. }
  (* the visit *)
  rewrite insert_items_stored by (try apply has_sale_app_last; exact Hitems).
  unfold bind at 1. await_query. rewrite Hday. cbn [negb].
  destruct (existsb _ cs); [|discriminate]. caught.
Qed.

(** What a checkout that went through did. *)
Lemma createProductSale_success today customerId items paymentMethod db
    result db' :
  createProductSale today customerId items paymentMethod db
  = (Returned result, db') ->
  sr_success result = true ->
  exists customer validated,
    customer_by_id (Store.tables db) customerId = Some customer
    /\ checked (Store.tables db) items = inr validated
    /\ sale_accepted today customerId validated (Store.tables db)
         (Store.seqs db) = true
    /\ db' = (let '(sale, t', q') :=
                sold today customerId paymentMethod validated
                  (Store.tables db) (Store.seqs db) in
              {| Store.tables := t'; Store.seqs := q';
                 Store.txn := Store.Idle |}).
Proof.
  intros Hrun Hok.
  destruct (customer_by_id (Store.tables db) customerId) as [customer|] eqn:Hc.
  2:{ destruct (createProductSale_not_validated today customerId items
                  paymentMethod db (or_introl Hc)) as [text Hfail].
      rewrite Hfail in Hrun. injection Hrun as <- _. discriminate. }
  destruct (checked (Store.tables db) items) as [text | validated] eqn:Hv.
  { destruct (createProductSale_not_validated today customerId items
                paymentMethod db (or_intror (ex_intro _ text Hv)))
      as [text' Hfail].
    rewrite Hfail in Hrun. injection Hrun as <- _. discriminate. }
  destruct (sale_accepted today customerId validated (Store.tables db)
              (Store.seqs db)) eqn:Ha.
  2:{ destruct (createProductSale_refused today customerId items paymentMethod
                  db customer validated Hc Hv Ha) as (text & q & Hfail).
      rewrite Hfail in Hrun. injection Hrun as <- _. discriminate. }
  rewrite (createProductSale_sold today customerId items paymentMethod db
             customer validated Hc Hv Ha) in Hrun.
  exists customer, validated. do 2 (split; [reflexivity|]).
  split; [exact Ha|].
  unfold sold in *. now injection Hrun as _ <-.
Qed.

(** A checkout never throws, and it always hands the session back with no
    transaction open. *)
Lemma createProductSale_returns today customerId items paymentMethod db :
  exists result,
    fst (createProductSale today customerId items paymentMethod db)
    = Returned result
    /\ Store.txn (snd (createProductSale today customerId items paymentMethod
                         db)) = Store.Idle.
Proof.
  destruct (customer_by_id (Store.tables db) customerId) as [customer|] eqn:Hc.
  2:{ destruct (createProductSale_not_validated today customerId items
                  paymentMethod db (or_introl Hc)) as [text ->]. eauto. }
  destruct (checked (Store.tables db) items) as [text | validated] eqn:Hv.
  { destruct (createProductSale_not_validated today customerId items
                paymentMethod db (or_intror (ex_intro _ text Hv)))
      as [text' ->]. eauto. }
  destruct (sale_accepted today customerId validated (Store.tables db)
              (Store.seqs db)) eqn:Ha.
  2:{ destruct (createProductSale_refused today customerId items paymentMethod
                  db customer validated Hc Hv Ha) as (text & q & ->). eauto. }
  rewrite (createProductSale_sold today customerId items paymentMethod db
             customer validated Hc Hv Ha).
  unfold sold. eauto.
Qed.

Lemma createProductSale_leaves_idle today customerId items paymentMethod db :
  Store.txn (snd (createProductSale today customerId items paymentMethod db))
  = Store.Idle.
Proof.
  now destruct (createProductSale_returns today customerId items paymentMethod
                  db) as (result & _ & H).
Qed.

(** ** Rows looked up by key *)

Lemma head_filter_map {A} (key : A -> Z) (f : A -> A) (id : Z) (l : list A) :
  (forall a, key (f a) = key a) ->
  head (List.filter (fun a => key a =? id) (map f l))
  = option_map f (head (List.filter (fun a => key a =? id) l)).
Proof.
  intros Hkey. induction l as [|a l IH]; [reflexivity|].
  cbn [map List.filter]. rewrite Hkey.
  destruct (key a =? id); [reflexivity | exact IH].
Qed.

Lemma head_filter_key {A} (key : A -> Z) (id : Z) (l : list A) a :
  head (List.filter (fun a => key a =? id) l) = Some a -> key a = id.
Proof.
  destruct (List.filter _ l) as [|b rest] eqn:H; [discriminate|].
  intros [= ->]. apply filter_existsb_true in H as [_ H]. lia.
Qed.

Lemma customer_by_id_visit t t' id today c :
  customer_by_id t id = Some c ->
  Store.customers t'
  = map (fun c => if c_id c =? id then Store.visit today c else c)
      (Store.customers t) ->
  customer_by_id t' id = Some (Store.visit today c).
Proof.
  unfold customer_by_id. intros Hc ->.
  rewrite (head_filter_map c_id) by (intros a; now destruct (c_id a =? id)).
  rewrite Hc. cbn. apply head_filter_key in Hc.
  now rewrite Hc, Z.eqb_refl.
Qed.

(** ** Stock *)

Lemma stock_after_head (validated : list ValidatedItem) :
  forall ps id,
    head (List.filter (fun p => p_id p =? id) (stock_after validated ps))
    = option_map (fun p => fold_left (fun p item => take_for item p) validated p)
        (head (List.filter (fun p => p_id p =? id) ps)).
Proof.
  induction validated as [|item rest IH]; intros ps id.
  - cbn. now destruct (head _).
  - cbn [stock_after fold_left]. fold (stock_after rest).
    rewrite IH.
    rewrite (head_filter_map p_id)
      by (intros a; now destruct (p_id a =? p_id (vi_product item))).
    now destruct (head _).
Qed.

Lemma checked_stock t (items : list Item) :
  forall validated p,
    checked t items = inr validated ->
    let p' := fold_left (fun p item => take_for item p) validated p in
    p_id p' = p_id p
    /\ p_stock p' = p_stock p - requested (p_id p) items.
Proof.
  induction items as [|item rest IH]; intros validated p; cbn [checked].
  - intros [= <-]. cbn. split; [reflexivity | lia].
  - destruct (product_by_id t (productId item)) as [product|] eqn:Hp;
      [|discriminate].
    destruct (p_stock product <? quantity item); [discriminate|].
    destruct (checked t rest) as [|validated'] eqn:Hrest; [discriminate|].
    intros [= <-]. cbn [fold_left requested fold_right].
    fold (requested (p_id p) rest).
    apply head_filter_key in Hp.
    unfold take_for at 2 4. cbn [vi_product vi_quantity]. rewrite Hp.
    destruct (IH validated'
                (if p_id p =? productId item
                 then Store.take (quantity item) p else p) eq_refl)
      as [Hid Hstock].
    rewrite (Z.eqb_sym (productId item)).
    destruct (p_id p =? productId item) eqn:E;
      cbn [p_id p_stock Store.take] in *.
    + split; [exact Hid | lia].
    + split; [exact Hid | lia].
Qed.

Lemma checked_in t (items : list Item) validated item :
  checked t items = inr validated ->
  In item items ->
  exists p,
    product_by_id t (productId item) = Some p /\ quantity item <= p_stock p.
Proof.
  revert validated. induction items as [|first rest IH]; intros validated;
    [intros _ []|].
  cbn [checked].
  destruct (product_by_id t (productId first)) as [product|] eqn:Hp;
    [|discriminate].
  destruct (p_stock product <? quantity first) eqn:Hs; [discriminate|].
  destruct (checked t rest) as [|validated'] eqn:Hrest; [discriminate|].
  intros _ [<- | Hin].
  - exists product. split; [exact Hp | lia].
  - eapply IH; eauto.
Qed.

Lemma checked_short t (items : list Item) item p :
  In item items ->
  product_by_id t (productId item) = Some p ->
  p_stock p < quantity item ->
  exists text, checked t items = inl text.
Proof.
  intros Hin Hp Hs.
  destruct (checked t items) as [text | validated] eqn:E; [eauto|].
  destruct (checked_in _ _ _ _ E Hin) as (p' & Hp' & Hle).
  rewrite Hp in Hp'. injection Hp' as <-. lia.
Qed.

Lemma requested_nodup (items : list Item) item :
  NoDup (map productId items) ->
  In item items ->
  requested (productId item) items = quantity item.
Proof.
  induction items as [|first rest IH]; [intros _ []|].
  cbn [map requested fold_right]. fold (requested (productId item) rest).
  intros Hnd [-> | Hin].
  - rewrite Z.eqb_refl.
    apply NoDup_cons_1_1 in Hnd as Hnot.
    assert (requested (productId item) rest = 0) as ->; [|lia].
    clear -Hnot. induction rest as [|x rest IH]; [reflexivity|].
    cbn [requested fold_right]. fold (requested (productId item) rest).
    destruct (productId x =? productId item) eqn:E.
    + exfalso. apply Hnot, list_elem_of_In. left. lia.
    + apply IH. intros H. apply Hnot, list_elem_of_In. right.
      now apply list_elem_of_In.
  - apply NoDup_cons_1_1 in Hnd as Hnot.
    apply NoDup_cons_1_2 in Hnd as Hrest.
    destruct (productId first =? productId item) eqn:E.
    + exfalso. apply Hnot. apply Z.eqb_eq in E. rewrite E.
      apply list_elem_of_In, in_map, Hin.
    + now apply IH.
Qed.

(** ** What a checkout does to the shop *)

(** C1. When no transaction is open on the session and some requested item
    asks for more than the stock of its product, [createProductSale] returns
    a [{success: false, message}] object and leaves the database exactly as
    it was: every stock, the sales and the sale items are unchanged. *)
Theorem createProductSale_short_stock_rolls_back :
  forall today customerId items paymentMethod db item product,
    Store.txn db = Store.Idle ->
    In item items ->
    product_by_id (Store.tables db) (productId item) = Some product ->
    p_stock product < quantity item ->
    exists text,
      createProductSale today customerId items paymentMethod db
      = (Returned (failure text), db).
Proof.
  intros today customerId items paymentMethod [t q block] item product
    Hidle Hin Hp Hshort.
  cbn in Hidle, Hp. subst block.
  destruct (createProductSale_not_validated today customerId items
              paymentMethod
              {| Store.tables := t; Store.seqs := q; Store.txn := Store.Idle |})
    as [text Hrun]; [|eauto].
  store_proj. destruct (customer_by_id t customerId); [right | now left].
  exact (checked_short t items item product Hin Hp Hshort).
Qed.

Lemma createProductSale_short_stock_rolls_back_witness :
  exists text,
    createProductSale "2025-04-01" 1 [{| productId := 1; quantity := 6 |}]
      card shop
    = (Returned (failure text), shop).
Proof.
  apply (createProductSale_short_stock_rolls_back "2025-04-01" 1
           [{| productId := 1; quantity := 6 |}] card shop
           {| productId := 1; quantity := 6 |} wax).
  - reflexivity.
  - left. reflexivity.
  - reflexivity.
  - reflexivity.
Defined.

(** C10. After a successful [createProductSale] whose items name pairwise
    different products, the stock of each of these products is its stock
    before the call minus the quantity asked of it, and it is not negative. *)
Theorem createProductSale_stock_decrement :
  forall today customerId items paymentMethod db result db',
    createProductSale today customerId items paymentMethod db
    = (Returned result, db') ->
    sr_success result = true ->
    NoDup (map productId items) ->
    forall item,
      In item items ->
      exists before after,
        product_by_id (Store.tables db) (productId item) = Some before
        /\ product_by_id (Store.tables db') (productId item) = Some after
        /\ p_stock after = p_stock before - quantity item
        /\ 0 <= p_stock after.
Proof.
  intros today customerId items paymentMethod db result db' Hrun Hok Hnd
    item Hin.
  destruct (createProductSale_success _ _ _ _ _ _ _ Hrun Hok)
    as (customer & validated & _ & Hchecked & _ & ->).
  destruct (checked_in _ _ _ _ Hchecked Hin) as (before & Hbefore & Hle).
  exists before,
    (fold_left (fun p item => take_for item p) validated before).
  split; [exact Hbefore|].
  destruct (checked_stock _ _ _ before Hchecked) as [Hid Hstock].
  cbn zeta in Hid, Hstock.
  apply head_filter_key in Hbefore as Hkey.
  rewrite Hkey, (requested_nodup _ _ Hnd Hin) in Hstock.
  split; [|split; [exact Hstock | lia]].
  unfold sold, product_by_id. store_proj.
  rewrite stock_after_head. unfold product_by_id in Hbefore.
  now rewrite Hbefore.
Qed.

Lemma createProductSale_stock_decrement_witness :
  exists before after,
    product_by_id (Store.tables shop) 1 = Some before
    /\ product_by_id
         (Store.tables
            (snd (createProductSale "2025-04-01" 1
                    [{| productId := 1; quantity := 3 |};
                     {| productId := 2; quantity := 10 |}] card shop)))
         1 = Some after
    /\ p_stock after = p_stock before - 3
    /\ 0 <= p_stock after.
Proof.
  apply (createProductSale_stock_decrement "2025-04-01" 1
           [{| productId := 1; quantity := 3 |};
            {| productId := 2; quantity := 10 |}] card shop
           (match fst (createProductSale "2025-04-01" 1
                         [{| productId := 1; quantity := 3 |};
                          {| productId := 2; quantity := 10 |}] card shop)
            with Returned r => r | Thrown _ => failure "" end)
           (snd (createProductSale "2025-04-01" 1
                   [{| productId := 1; quantity := 3 |};
                    {| productId := 2; quantity := 10 |}] card shop))
           eq_refl eq_refl
           ltac:(repeat constructor; cbn; rewrite ?list_elem_of_In; cbn; intuition lia)
           {| productId := 1; quantity := 3 |}).
  left. reflexivity.
Defined.

(** With the same product named twice, each entry is checked against the
    stock before the sale, and the stock can go below zero. *)
Example createProductSale_same_product_twice :
  let run :=
    createProductSale "2025-04-01" 1
      [{| productId := 1; quantity := 3 |};
       {| productId := 1; quantity := 3 |}] card shop in
  option_map p_stock (product_by_id (Store.tables (snd run)) 1) = Some (-1).
Proof. reflexivity. Qed.

(** The next key of a table is not in the table, and a key of the table
    names one row. *)
Lemma keyed_next {A} (key : A -> Z) (l : list A) (next : Z) :
  keyed (map key l) next = true ->
  existsb (fun a => key a =? next) l = false.
Proof.
  unfold keyed. rewrite andb_true_iff, forallb_forall. intros [_ Hlt].
  apply not_true_is_false. intros Hex.
  apply existsb_exists in Hex as (a & Hin & Ha).
  specialize (Hlt (key a) (in_map key l a Hin)). lia.
Qed.

Lemma keyed_row {A} (key : A -> Z) (l : list A) (next id : Z) (row other : A) :
  keyed (map key l) next = true ->
  head (List.filter (fun a => key a =? id) l) = Some row ->
  In other l -> key other = id -> other = row.
Proof.
  unfold keyed. rewrite andb_true_iff. intros [Hd _]. clear next.
  induction l as [|a l IH]; [intros _ []|].
  cbn [map distinct] in Hd. apply andb_true_iff in Hd as [Hnew Hd].
  apply negb_true_iff in Hnew.
  assert (forall b, In b l -> key b <> key a) as Hne.
  { intros b Hb Heq.
    assert (existsb (Z.eqb (key a)) (map key l) = true) as Hex; [|congruence].
    apply existsb_exists. exists (key b). split; [now apply in_map | lia]. }
  cbn [List.filter]. destruct (key a =? id) eqn:E.
  - cbn [head]. intros [= <-] [<- | Hin] Hid; [reflexivity|].
    exfalso. apply (Hne other Hin). lia.
  - intros Hrow [<- | Hin] Hid; [lia|]. now apply IH.
Qed.

(** A row of a typed table, found by its key. *)
Lemma typed_customer t id c :
  typed t = true -> customer_by_id t id = Some c ->
  In c (Store.customers t) /\ c_id c = id
  /\ Column.integer (c_id c) = true /\ Column.integer (c_visits c) = true.
Proof.
  unfold typed, customer_by_id. rewrite !andb_true_iff, !forallb_forall.
  intros [[Hc _] _] Hrow.
  destruct (List.filter _ (Store.customers t)) as [|found rest] eqn:Hfound;
    [discriminate|].
  injection Hrow as ->.
  assert (In c (List.filter (fun c => c_id c =? id) (Store.customers t)))
    as Hin by (rewrite Hfound; now left).
  apply filter_In in Hin as [Hin Hid]. specialize (Hc c Hin).
  apply andb_true_iff in Hc as [H1 H2].
  repeat split; try assumption. lia.
Qed.

Lemma typed_product t id p :
  typed t = true -> product_by_id t id = Some p ->
  In p (Store.products t) /\ p_id p = id
  /\ Column.integer (p_id p) = true
  /\ Column.char_length (p_name p) <= 255
  /\ Column.decimal (p_price p) = true
  /\ Column.integer (p_stock p) = true.
Proof.
  unfold typed, product_by_id. rewrite !andb_true_iff, !forallb_forall.
  intros [_ Hp] Hrow.
  destruct (List.filter _ (Store.products t)) as [|found rest] eqn:Hfound;
    [discriminate|].
  injection Hrow as ->.
  assert (In p (List.filter (fun p => p_id p =? id) (Store.products t)))
    as Hin by (rewrite Hfound; now left).
  apply filter_In in Hin as [Hin Hid]. specialize (Hp p Hin).
  rewrite !andb_true_iff in Hp. destruct Hp as [[[H1 H2] H3] H4].
  repeat split; try assumption; lia.
Qed.

(** An arithmetic result stays an INTEGER on every row of a key when it does
    so on the one row that has the key. *)
Lemma guarded_row {A} (key : A -> Z) (guard : A -> bool) (l : list A)
    (next id : Z) (row : A) :
  keyed (map key l) next = true ->
  head (List.filter (fun a => key a =? id) l) = Some row ->
  guard row = true ->
  existsb (fun a => (key a =? id) && negb (guard a)) l = false.
Proof.
  intros Hk Hrow Hguard. apply not_true_is_false. intros Hex.
  apply existsb_exists in Hex as (a & Hin & Ha).
  apply andb_true_iff in Ha as [Hid Hno]. apply negb_true_iff in Hno.
  rewrite (keyed_row key l next id row a Hk Hrow Hin) in Hno by lia.
  congruence.
Qed.

(** In a database in order no sale item points to the next key of the
    sales. *)
Lemma items_of_next (t : Store.Tables) (q : Store.Sequences) :
  keys_ok t q = true -> references_ok t = true ->
  List.filter (fun item => si_sale_id item =? Store.sales_id_seq q)
    (Store.sale_items t) = [].
Proof.
  unfold keys_ok, references_ok. rewrite !andb_true_iff.
  intros [[_ Hsales] _] [_ Hitems].
  apply filter_existsb_false. apply not_true_is_false. intros Hex.
  apply existsb_exists in Hex as (item & Hin & Hid).
  rewrite forallb_forall in Hitems. specialize (Hitems item Hin).
  replace (si_sale_id item) with (Store.sales_id_seq q) in Hitems by lia.
  unfold Store.has_sale in Hitems.
  now rewrite (keyed_next sale_id _ _ Hsales) in Hitems.
Qed.

(** C2, as stated, fails: the total of a sale is DECIMAL(10, 2).  Three
    razors at 40 000 000.00 come to more than the column takes; the INSERT
    of the sale is refused, [createProductSale] returns its failure object,
    and the stock stays at five. *)
Lemma createProductSale_total_overflows :
  customer_by_id (Store.tables shop_with_razor) 1 = Some ahmet
  /\ product_by_id (Store.tables shop_with_razor) 3 = Some golden_razor
  /\ p_stock golden_razor = 5
  /\ createProductSale "2025-04-01" 1 [{| productId := 3; quantity := 3 |}]
       card shop_with_razor
     = (Returned (failure "Satış oluşturulurken bir hata oluştu."),
        shop_with_razor).
Proof. repeat split. Qed.

(** C2, amended.  With no transaction open on a database in order, a
    checkout by an existing customer of one line item of quantity 3 against
    a product with stock 5 succeeds when the server takes its values: the
    day is a date, three times the price is a DECIMAL(10, 2), the visits of
    the customer can be counted up, and the sequences of the sales and of
    the sale items are not exhausted.  Then the stock becomes 2, one sale
    row is added whose total is three times the price, and one sale item
    row is added, the only one that references the sale. *)
Theorem createProductSale_three_of_five :
  forall today customerId pid paymentMethod db customer product,
    Store.txn db = Store.Idle ->
    sound db = true ->
    typed (Store.tables db) = true ->
    customer_by_id (Store.tables db) customerId = Some customer ->
    product_by_id (Store.tables db) pid = Some product ->
    p_stock product = 5 ->
    Column.date today = true ->
    Column.decimal (p_price product * 3) = true ->
    c_visits customer < 2147483647 ->
    Column.serial (Store.sales_id_seq (Store.seqs db)) = true ->
    Column.serial (Store.sale_items_id_seq (Store.seqs db)) = true ->
    exists sale item db',
      createProductSale today customerId
        [{| productId := pid; quantity := 3 |}] paymentMethod db
      = (Returned
           {| sr_success := true;
              sr_message := "Sale created successfully";
              sr_sale :=
                Some {| sv_sale := sale;
                        sv_customer_name := c_name customer;
                        sv_items := [item] |} |},
         db')
      /\ (exists product',
             product_by_id (Store.tables db') pid = Some product'
             /\ p_stock product' = 2)
      /\ Store.sales (Store.tables db') = Store.sales (Store.tables db) ++ [sale]
      /\ sale_total sale = p_price product * 3
      /\ sale_customer_id sale = Some customerId
      /\ Store.sale_items (Store.tables db')
         = Store.sale_items (Store.tables db) ++ [item]
      /\ items_of sale (Store.tables db') = [item].
Proof.
  intros today customerId pid paymentMethod [t q block] customer product
    Hidle Hsound Htyped Hc Hp Hstock Hday Htotal Hvisits Hsales Hitems.
  cbn [Store.txn Store.tables Store.seqs] in *. subst block.
  unfold sound in Hsound. cbn [Store.txn Store.tables Store.seqs] in Hsound.
  rewrite andb_true_r in Hsound. apply andb_true_iff in Hsound as [Hkeys Hrefs].
  pose proof Hkeys as Hk. unfold keys_ok in Hk. rewrite !andb_true_iff in Hk.
  destruct Hk as (((((Hkc & _) & _) & Hkp) & Hks) & Hki).
  destruct (typed_customer _ _ _ Htyped Hc) as (_ & Hcid & Hcint & Hcv).
  destruct (typed_product _ _ _ Htyped Hp)
    as (_ & Hpid & Hpint & Hname & Hprice & Hpstock).
  destruct (fits_kept 255 (p_name product) Hname) as [Hfits Hkept].
  assert (checked t [{| productId := pid; quantity := 3 |}]
          = inr [{| vi_product := product; vi_quantity := 3 |}]) as Hchecked.
  { cbn [checked productId quantity]. rewrite Hp, Hstock. reflexivity. }
  assert (Column.integer (Store.sales_id_seq q) = true) as Hsint
    by (unfold Column.serial, Column.integer in *; lia).
  assert (sale_accepted today customerId
            [{| vi_product := product; vi_quantity := 3 |}] t q = true) as Hok.
  { unfold sale_accepted.
    cbn [items_accepted order_total fold_right vi_product vi_quantity].
    rewrite <- Hcid, Hcint, Hday, Z.add_0_r, Htotal, Hsales.
    rewrite (keyed_next sale_id _ _ Hks), Hsint, Hpint, Hfits, Hprice, Hitems.
    rewrite (keyed_next si_id _ _ Hki).
    rewrite (guarded_row p_id (fun p => Column.integer (p_stock p - 3))
               _ _ (p_id product) product Hkp)
      by (rewrite ?Hpid, ?Hstock; first [exact Hp | reflexivity]).
    rewrite (guarded_row c_id (fun c => Column.integer (c_visits c + 1))
               _ _ (c_id customer) customer Hkc);
      [reflexivity | now rewrite Hcid |].
    unfold Column.integer in *. lia. }
  rewrite (createProductSale_sold today customerId _ paymentMethod
             {| Store.tables := t; Store.seqs := q; Store.txn := Store.Idle |}
             customer _ Hc Hchecked Hok).
  unfold sold. store_proj.
  cbn [items_for map view_item order_total fold_right
       vi_product vi_quantity sale_id si_quantity si_id
       si_sale_id si_item_id si_item_type si_name si_price Z.eqb].
  do 3 eexists. split; [reflexivity|]. store_proj.
  split; [|split; [reflexivity|split; [cbn; lia|split; [reflexivity|
           split; [reflexivity|]]]]].
  - unfold product_by_id. store_proj. rewrite stock_after_head.
    unfold product_by_id in Hp. rewrite Hp. cbn [option_map fold_left].
    eexists. split; [reflexivity|].
    unfold take_for. cbn [vi_product vi_quantity]. rewrite Z.eqb_refl.
    cbn. lia.
  - unfold items_of. store_proj. cbn [sale_id].
    rewrite List.filter_app, (items_of_next t q Hkeys Hrefs).
    cbn. now rewrite Z.eqb_refl.
Qed.

Lemma createProductSale_three_of_five_witness :
  exists sale item db',
    createProductSale "2025-04-01" 1 [{| productId := 1; quantity := 3 |}]
      card shop
    = (Returned
         {| sr_success := true;
            sr_message := "Sale created successfully";
            sr_sale :=
              Some {| sv_sale := sale;
                      sv_customer_name := "Ahmet Yılmaz";
                      sv_items := [item] |} |},
       db')
    /\ (exists product',
           product_by_id (Store.tables db') 1 = Some product'
           /\ p_stock product' = 2)
    /\ Store.sales (Store.tables db') = [sale]
    /\ sale_total sale = 36000
    /\ sale_customer_id sale = Some 1
    /\ Store.sale_items (Store.tables db') = [item]
    /\ items_of sale (Store.tables db') = [item].
Proof.
  apply (createProductSale_three_of_five "2025-04-01" 1 1 card shop ahmet wax);
    first [reflexivity | cbn; lia].
Defined.

(** ** Visits *)

(** C8, as stated, fails for appointments: a booking for an unknown customer
    id resolves to the first customer, here Ahmet, and his visit count and
    last visit stay as they were. *)
Lemma createAppointment_fallback_records_no_visit :
  customer_by_id (Store.tables shop) (customer_id walk_in) = None
  /\ exists created db',
       createAppointment walk_in shop = (Returned created, db')
       /\ a_customer_id (row created) = c_id ahmet
       /\ customer_by_id (Store.tables db') (c_id ahmet) = Some ahmet
       /\ c_visits ahmet = 12.
Proof.
  split; [reflexivity|]. do 2 eexists.
  split; [reflexivity|]. repeat split.
Qed.

(** ** Appointments *)

(** The INSERT of [createAppointment] when the action returns: the server
    has taken it. *)
Ltac appointment_inserted :=
  await_query;
  repeat match goal with
    | |- context [if negb ?b then _ else _] =>
        destruct b eqn:?; cbn [negb]; [|discriminate]
    end;
  match goal with
  | |- context [existsb ?f ?l] =>
      destruct (existsb f l) eqn:?; [discriminate|]
  end.

(** A booking for a customer id that is in the table, when it succeeds. *)
Lemma createAppointment_known_customer appointment db created db' customer :
  createAppointment appointment db = (Returned created, db') ->
  customer_by_id (Store.tables db) (customer_id appointment) = Some customer ->
  a_customer_id (row created) = customer_id appointment
  /\ Store.customers (Store.tables db')
     = map (fun c => if c_id c =? customer_id appointment
                     then Store.visit (date appointment) c else c)
         (Store.customers (Store.tables db)).
Proof.
  destruct db as [[cs ss aps ps sls its] [q1 q2 q3 q4 q5 q6] block].
  unfold customer_by_id. store_proj. intros Hrun Hc.
  destruct (List.filter (fun c => c_id c =? customer_id appointment) cs)
    as [|found others] eqn:Hfound; [discriminate|].
  revert Hrun. unfold createAppointment, try_catch, bind.
  await_query. rewrite Hfound. await_query. cbn [ret].
  destruct (List.filter (fun s => s_id s =? service_id appointment) ss)
    as [|service rest] eqn:Hs.
  - await_query. destruct (firstn 1 ss) as [|s0 ss']; cbn [ret];
      appointment_inserted;
      (destruct (Store.has_customer _ _ && Store.has_service _ _);
       [|discriminate]);
      cbn [length Nat.ltb Nat.leb]; await_query;
      (destruct (Column.date (date appointment)); cbn [negb];
       [|discriminate]);
      (destruct (existsb _ cs); [discriminate|]);
      cbn [ret]; intros [= <- <-]; store_proj; cbn [row a_customer_id]; auto.
  - cbn [ret]. appointment_inserted.
    destruct (Store.has_customer _ _ && Store.has_service _ _);
      [|discriminate].
    cbn [length Nat.ltb Nat.leb]. await_query.
    destruct (Column.date (date appointment)); cbn [negb]; [|discriminate].
    destruct (existsb _ cs); [discriminate|].
    cbn [ret]. intros [= <- <-]. store_proj. cbn [row a_customer_id]. auto.
Qed.

(** A booking for a customer id that is not in the table, when it succeeds,
    leaves the customers table alone. *)
Lemma createAppointment_unknown_customer appointment db created db' :
  createAppointment appointment db = (Returned created, db') ->
  customer_by_id (Store.tables db) (customer_id appointment) = None ->
  Store.customers (Store.tables db') = Store.customers (Store.tables db).
Proof.
  destruct db as [[cs ss aps ps sls its] [q1 q2 q3 q4 q5 q6] block].
  unfold customer_by_id. store_proj. intros Hrun Hc.
  destruct (List.filter (fun c => c_id c =? customer_id appointment) cs)
    as [|found others] eqn:Hfound; [|discriminate].
  revert Hrun. unfold createAppointment, try_catch, bind.
  await_query. rewrite Hfound. await_query. await_query.
  destruct (firstn 1 cs) as [|first rest]; cbn [ret];
    (destruct (List.filter (fun s => s_id s =? service_id appointment) ss)
       as [|service others]; cbn [ret];
     [await_query; destruct (firstn 1 ss) as [|s0 ss']; cbn [ret] | ]);
    appointment_inserted;
    (destruct (Store.has_customer _ _ && Store.has_service _ _);
     [|discriminate]);
    cbn [length Nat.ltb Nat.leb ret]; intros [= <- <-]; reflexivity.
Qed.


(** C8, amended.  An appointment creation whose customer id is in the table,
    and every successful product checkout, add one to the visit count of that
    customer and set the last visit to the date of the operation: the date of
    the appointment, or the day of the checkout.  An appointment creation
    that falls back to the first customer records no visit: the customers
    table is left as it was. *)
Theorem visit_recorded :
  (forall appointment db created db' customer,
      createAppointment appointment db = (Returned created, db') ->
      customer_by_id (Store.tables db) (customer_id appointment)
      = Some customer ->
      a_customer_id (row created) = customer_id appointment
      /\ exists customer',
          customer_by_id (Store.tables db') (customer_id appointment)
          = Some customer'
          /\ c_visits customer' = c_visits customer + 1
          /\ c_last_visit customer' = Some (date appointment))
  /\ (forall appointment db created db',
        createAppointment appointment db = (Returned created, db') ->
        customer_by_id (Store.tables db) (customer_id appointment) = None ->
        Store.customers (Store.tables db') = Store.customers (Store.tables db))
  /\ (forall today customerId items paymentMethod db result db',
        createProductSale today customerId items paymentMethod db
        = (Returned result, db') ->
        sr_success result = true ->
        exists customer customer',
          customer_by_id (Store.tables db) customerId = Some customer
          /\ customer_by_id (Store.tables db') customerId = Some customer'
          /\ c_visits customer' = c_visits customer + 1
          /\ c_last_visit customer' = Some today).
Proof.
  split; [|split].
  - intros appointment db created db' customer Hrun Hc.
    destruct (createAppointment_known_customer _ _ _ _ _ Hrun Hc)
      as [Hid Hcustomers].
    split; [exact Hid|].
    exists (Store.visit (date appointment) customer).
    split; [|split; reflexivity].
    eapply customer_by_id_visit; eassumption.
  - intros appointment db created db' Hrun Hc.
    eapply createAppointment_unknown_customer; eassumption.
  - intros today customerId items paymentMethod db result db' Hrun Hok.
    destruct (createProductSale_success _ _ _ _ _ _ _ Hrun Hok)
      as (customer & validated & Hc & _ & _ & ->).
    exists customer, (Store.visit today customer).
    split; [exact Hc|]. split; [|split; reflexivity].
    eapply customer_by_id_visit; [exact Hc|]. reflexivity.
Qed.

Lemma visit_recorded_witness :
  (exists customer',
      customer_by_id
        (Store.tables
           (snd (createAppointment
                   {| customer_id := 2; service_id := 1; date := "2025-03-28";
                      time := "11:30"; duration := 45; status := "";
                      notes := "" |} shop))) 2
      = Some customer'
      /\ c_visits customer' = c_visits ayse + 1
      /\ c_last_visit customer' = Some "2025-03-28")
  /\ exists customer customer',
       customer_by_id (Store.tables shop) 1 = Some customer
       /\ customer_by_id
            (Store.tables
               (snd (createProductSale "2025-04-01" 1
                       [{| productId := 1; quantity := 3 |}] card shop))) 1
          = Some customer'
       /\ c_visits customer' = c_visits customer + 1
       /\ c_last_visit customer' = Some "2025-04-01".
Proof.
  destruct visit_recorded as (Happointment & _ & Hsale). split.
  - apply (Happointment
             {| customer_id := 2; service_id := 1; date := "2025-03-28";
                time := "11:30"; duration := 45; status := ""; notes := "" |}
             shop
             (match fst (createAppointment
                           {| customer_id := 2; service_id := 1;
                              date := "2025-03-28"; time := "11:30";
                              duration := 45; status := ""; notes := "" |}
                           shop)
              with
              | Returned created => created
              | Thrown _ =>
                  {| row := {| a_id := 0; a_customer_id := 0;
                               a_service_id := 0; a_date := ""; a_time := "";
                               a_duration := 0; a_status := ""; a_notes := "";
                               a_payment_status := "";
                               a_payment_method := None |};
                     customer_name := ""; service_name := "" |}
              end)
             _ ayse eq_refl eq_refl).
  - apply (Hsale "2025-04-01" 1 [{| productId := 1; quantity := 3 |}] card shop
             (match fst (createProductSale "2025-04-01" 1
                           [{| productId := 1; quantity := 3 |}] card shop)
              with Returned r => r | Thrown _ => failure "" end)
             _ eq_refl eq_refl).
Defined.




(** The row that the booking stores: the time is written out, and the
    defaults of the action are in place. *)
Example createAppointment_walk_in :
  option_map row
    (match fst (createAppointment walk_in shop) with
     | Returned created => Some created
     | Thrown _ => None
     end)
  = Some {| a_id := 1; a_customer_id := 1; a_service_id := 1;
            a_date := "2025-03-28"; a_time := "10:00:00"; a_duration := 30;
            a_status := "onaylandı"; a_notes := "";
            a_payment_status := "unpaid"; a_payment_method := None |}.
Proof. reflexivity. Qed.

(** A day that is not in the calendar: the server refuses the INSERT, the
    booking throws, and nothing is stored. *)
Example createAppointment_on_no_day :
  createAppointment
    {| customer_id := 1; service_id := 1; date := "2025-02-30";
       time := "10:00"; duration := 30; status := ""; notes := "" |} shop
  = (Thrown (JsError "Randevu oluşturulurken bir hata oluştu."), shop).
Proof. reflexivity. Qed.

(** ** What every action keeps *)

Section Preservation.

Variable P : Store.Db -> Prop.

Lemma preserves_ret {A} (a : A) : preserves P (ret a).
Proof. intros db H. exact H. Qed.

Lemma preserves_throw {A} (e : Exn) : preserves P (@throw _ A e).
Proof. intros db H. exact H. Qed.

Lemma preserves_bind {A B} (m : Async Store.Db A) (k : A -> Async Store.Db B) :
  preserves P m -> (forall a, preserves P (k a)) -> preserves P (bind m k).
Proof.
  intros Hm Hk db H. unfold bind. specialize (Hm db H).
  destruct (m db) as [[a | e] db1]; [apply Hk, Hm | exact Hm].
Qed.

Lemma preserves_try_catch {A} (m : Async Store.Db A)
    (handler : Exn -> Async Store.Db A) :
  preserves P m -> (forall e, preserves P (handler e)) ->
  preserves P (try_catch m handler).
Proof.
  intros Hm Hh db H. unfold try_catch. specialize (Hm db H).
  destruct (m db) as [[a | e] db1]; [exact Hm | apply Hh, Hm].
Qed.

(** The shape of an action: binds, catches, branches, returns and throws
    around statements. *)
Ltac preserves_step Hq :=
  lazymatch goal with
  | |- preserves _ (ret _) => apply preserves_ret
  | |- preserves _ (throw _) => apply preserves_throw
  | |- preserves _ (Store.query _) => apply Hq
  | |- preserves _ (bind _ _) => apply preserves_bind; [|intros ?]
  | |- preserves _ (try_catch _ _) => apply preserves_try_catch; [|intros ?]
  | |- preserves _ (match ?x with _ => _ end) => destruct x
  end.

Hypothesis Hsql :
  forall A (d : Store.Data A), preserves P (Store.query (Store.Sql d)).

Lemma deleteEntity_preserves (entity : Entity) (id : Z) :
  preserves P (deleteEntity entity id).
Proof.
  destruct entity;
    unfold deleteEntity, deleteCustomer, deleteService, deleteAppointment,
      deleteProduct;
    repeat preserves_step Hsql.
Qed.

Lemma createAppointment_preserves (appointment : NewAppointment) :
  preserves P (createAppointment appointment).
Proof. unfold createAppointment. repeat preserves_step Hsql. Qed.

Hypothesis Hsession :
  forall c, preserves P (Store.query (Store.Session c)).

Lemma validate_items_preserves (items : list Item) :
  forall total validated, preserves P (validate_items items total validated).
Proof.
  induction items as [|item rest IH]; intros total validated;
    cbn [validate_items].
  - apply preserves_ret.
  - repeat first [apply IH | preserves_step Hsql | preserves_step Hsession].
Qed.

Lemma insert_items_preserves (sale : Sale) (validated : list ValidatedItem) :
  forall saleItems, preserves P (insert_items sale validated saleItems).
Proof.
  induction validated as [|item rest IH]; intros saleItems;
    cbn [insert_items].
  - apply preserves_ret.
  - unfold insert_item.
    repeat first [apply IH | preserves_step Hsql | preserves_step Hsession].
Qed.

Lemma createProductSale_preserves today customerId items paymentMethod :
  preserves P (createProductSale today customerId items paymentMethod).
Proof.
  unfold createProductSale.
  repeat first [ apply validate_items_preserves | apply insert_items_preserves
               | preserves_step Hsql | preserves_step Hsession ].
Qed.

End Preservation.

(** The actions that run outside a transaction block leave the session
    without one. *)
Lemma actions_keep_session_idle (db : Store.Db) :
  Store.txn db = Store.Idle ->
  (forall entity id, Store.txn (snd (deleteEntity entity id db)) = Store.Idle)
  /\ (forall appointment,
        Store.txn (snd (createAppointment appointment db)) = Store.Idle).
Proof.
  assert (Hsql : forall A (d : Store.Data A),
             preserves (fun db => Store.txn db = Store.Idle)
               (Store.query (Store.Sql d))).
  { intros A d [t q block] H. cbn in H. subst block.
    rewrite store_query_data. store_proj.
    now destruct (Store.apply d t q) as [[e q'] | [[a t'] q']]. }
  intros H. split.
  - intros entity id. now apply (deleteEntity_preserves _ Hsql).
  - intros appointment. now apply (createAppointment_preserves _ Hsql).
Qed.

(** ** [initDatabase] and [resetDatabase] *)

Lemma ensure_table_lookup table columns (m : gmap string (gset string)) t :
  ensure_table table columns m !! t
  = if decide (table = t)
    then Some (default (list_to_set columns) (m !! t))
    else m !! t.
Proof.
  unfold ensure_table. destruct (decide (table = t)) as [<-|Hne].
  - destruct (m !! table) as [old|] eqn:E.
    + now rewrite E.
    + now rewrite lookup_insert_eq.
  - destruct (m !! table); [reflexivity|]. now rewrite lookup_insert_ne.
Qed.

Lemma ensure_table_is_Some table columns (m : gmap string (gset string)) t :
  table = t \/ is_Some (m !! t) ->
  is_Some (ensure_table table columns m !! t).
Proof.
  rewrite ensure_table_lookup. intros [H | H].
  - rewrite decide_True by exact H. eauto.
  - destruct (decide (table = t)); [eauto | exact H].
Qed.

(** [CREATE TABLE IF NOT EXISTS] goes through when the referenced tables are
    there with their primary keys. *)
Lemma create_table_query table columns references m k f j :
  (forall r, In r references -> is_Some (m !! r) /\ r ∈ k) ->
  Catalog.query (Catalog.CreateTableIfNotExists table columns references)
    {| Catalog.tables := m; Catalog.keys := k; Catalog.functions := f;
       Catalog.journal := j |}
  = (Returned [],
     {| Catalog.tables := ensure_table table columns m;
        Catalog.keys := ensure_key table m k;
        Catalog.functions := f;
        Catalog.journal :=
          j ++ [Catalog.CreateTableIfNotExists table columns references] |}).
Proof.
  intros Hrefs. rewrite catalog_query_exec.
  unfold Catalog.keys_after.
  cbn [Catalog.apply Catalog.journal Catalog.tables Catalog.functions
       Catalog.keys].
  unfold Catalog.has_table, Catalog.has_key, ensure_table, ensure_key.
  cbn [Catalog.tables Catalog.keys].
  destruct (m !! table) as [old|]; [reflexivity|].
  assert (forallb
            (fun t => match m !! t with Some _ => true | None => false end)
            references = true) as ->.
  { apply forallb_forall. intros r Hr.
    now destruct (proj1 (Hrefs r Hr)) as [c ->]. }
  assert (forallb (fun t => bool_decide (t ∈ k)) references = true) as ->;
    [|reflexivity].
  apply forallb_forall. intros r Hr. apply bool_decide_eq_true.
  exact (proj2 (Hrefs r Hr)).
Qed.

(** A table that [CREATE TABLE IF NOT EXISTS] has seen is there, with its
    primary key if it was created or had one. *)
Lemma ensure_key_elem table (m : gmap string (gset string)) (k : gset string)
    t :
  t ∈ ensure_key table m k <-> (table = t /\ m !! t = None) \/ t ∈ k.
Proof.
  unfold ensure_key. destruct (m !! table) as [old|] eqn:E.
  - split; [tauto|]. intros [[<- H] | H]; [congruence | exact H].
  - rewrite elem_of_union, elem_of_singleton. split.
    + intros [-> | H]; [left; now split | now right].
    + intros [[<- _] | H]; [now left | now right].
Qed.

Ltac ensured :=
  apply ensure_table_is_Some;
  repeat first [left; reflexivity | right; apply ensure_table_is_Some].

(** A referenced table has its primary key once its CREATE TABLE has run:
    it was created with one, or it was there and had one. *)
Lemma referable_key (db : Catalog.t) (r : string) :
  Catalog.referable db = true ->
  In r Catalog.referenced ->
  Catalog.tables db !! r = None \/ r ∈ Catalog.keys db.
Proof.
  unfold Catalog.referable. rewrite forallb_forall. intros H Hr.
  specialize (H r Hr). unfold Catalog.has_table, Catalog.has_key in H.
  destruct (Catalog.tables db !! r); [|now left].
  right. cbn in H. now apply bool_decide_eq_true in H.
Qed.

Ltac keyed_by H :=
  rewrite !ensure_key_elem, !ensure_table_lookup;
  destruct H as [H | H];
  [ repeat (destruct (decide _) as [?|?]; [congruence|]);
    repeat first [ left; split; [reflexivity | exact H] | right ]
  | tauto ].

(** [initDatabase] in closed form, on a catalog whose referenced tables have
    their primary keys: it goes through. *)
Lemma initialization_closed (db : Catalog.t) :
  Catalog.referable db = true ->
  Catalog.initialization db
  = (Returned tt,
     {| Catalog.tables := initialized (Catalog.tables db);
        Catalog.keys := initialized_keys (Catalog.tables db) (Catalog.keys db);
        Catalog.functions := Catalog.functions db;
        Catalog.journal :=
          Catalog.journal db
          ++ [Catalog.SelectTest;
              Catalog.CreateTableIfNotExists "customers"
                Catalog.customers_columns [];
              Catalog.CreateTableIfNotExists "services"
                Catalog.services_columns [];
              Catalog.CreateTableIfNotExists "appointments"
                Catalog.appointments_columns ["customers"; "services"];
              Catalog.create_products;
              Catalog.create_sales;
              Catalog.create_sale_items] |}).
Proof.
  intros Href.
  pose proof (referable_key db "customers" Href ltac:(cbn; tauto)) as Hc.
  pose proof (referable_key db "services" Href ltac:(cbn; tauto)) as Hs.
  pose proof (referable_key db "appointments" Href ltac:(cbn; tauto)) as Ha.
  pose proof (referable_key db "sales" Href ltac:(cbn; tauto)) as Hl.
  clear Href. destruct db as [m k f j].
  cbn [Catalog.tables Catalog.keys] in *.
  unfold Catalog.initialization, bind.
  rewrite catalog_query_exec.
  cbn [Catalog.apply Catalog.keys_after Catalog.journal Catalog.tables
       Catalog.functions Catalog.keys].
  rewrite create_table_query by (intros r []).
  rewrite create_table_query by (intros r []).
  rewrite create_table_query.
  2:{ intros r [<- | [<- | []]]; (split; [ensured|]).
      - keyed_by Hc.
      - keyed_by Hs. }
  unfold Catalog.create_products. rewrite create_table_query by (intros r []).
  unfold Catalog.create_sales. rewrite create_table_query.
  2:{ intros r [<- | [<- | []]]; (split; [ensured|]).
      - keyed_by Ha.
      - keyed_by Hc. }
  unfold Catalog.create_sale_items. rewrite create_table_query.
  2:{ intros r [<- | []]; (split; [ensured|]). keyed_by Hl. }
  cbn [ret]. unfold initialized, initialized_keys.
  rewrite <- !app_assoc. reflexivity.
Qed.

Lemma initialized_lookup (m : gmap string (gset string)) :
  (forall t columns,
      In (t, columns) schema ->
      initialized m !! t = Some (default (list_to_set columns) (m !! t)))
  /\ (forall t, ~ In t (map fst schema) -> initialized m !! t = m !! t).
Proof.
  split.
  - intros t columns Hin. unfold initialized.
    repeat (destruct Hin as [[= <- <-] | Hin];
            [rewrite !ensure_table_lookup; cbn; reflexivity|]).
    destruct Hin.
  - intros t Hnot. unfold initialized. rewrite !ensure_table_lookup.
    cbn in Hnot.
    repeat (destruct (decide _) as [<-|_]; [exfalso; apply Hnot; tauto|]).
    reflexivity.
Qed.

Lemma initialized_idempotent (m : gmap string (gset string)) :
  initialized (initialized m) = initialized m.
Proof.
  destruct (initialized_lookup m) as [Hin Hout].
  destruct (initialized_lookup (initialized m)) as [Hin' Hout'].
  apply map_eq. intros t.
  destruct (decide (In t (map fst schema))) as [Ht | Ht].
  - apply in_map_iff in Ht as ([t' columns] & <- & Hc). cbn [fst].
    rewrite (Hin' _ _ Hc), (Hin _ _ Hc). reflexivity.
  - now rewrite Hout'.
Qed.

(** The keys after [initDatabase]: those of the six tables that were
    missing, and those that were there. *)
Lemma initialized_keys_elem (m : gmap string (gset string)) (k : gset string)
    t :
  t ∈ initialized_keys m k
  <-> (In t (map fst schema) /\ m !! t = None) \/ t ∈ k.
Proof.
  unfold initialized_keys. cbn zeta.
  rewrite !ensure_key_elem, !ensure_table_lookup. cbn [map fst schema In].
  split.
  - intros H.
    repeat match type of H with
      | _ \/ _ => destruct H as [H | H]
      | _ /\ _ => destruct H as [<- H]
      end;
      try (right; exact H);
      left; (split; [tauto|]);
      repeat match type of H with
        | context [decide ?P] => destruct (decide P); try congruence
        end;
      try discriminate; exact H.
  - intros [[Hin Hm] | Hk]; [|tauto].
    repeat (destruct Hin as [<- | Hin];
            [repeat (destruct (decide _) as [?|?]; [congruence|]);
             repeat first [ left; split; [reflexivity | exact Hm] | right ]
            |]).
    destruct Hin.
Qed.

(** After [initDatabase] the referenced tables have their keys. *)
Lemma initialized_referable (db : Catalog.t) f j :
  Catalog.referable db = true ->
  Catalog.referable
    {| Catalog.tables := initialized (Catalog.tables db);
       Catalog.keys := initialized_keys (Catalog.tables db) (Catalog.keys db);
       Catalog.functions := f; Catalog.journal := j |} = true.
Proof.
  intros Href. unfold Catalog.referable. apply forallb_forall. intros r Hr.
  apply orb_true_iff. right. unfold Catalog.has_key. cbn [Catalog.keys].
  apply bool_decide_eq_true, initialized_keys_elem.
  destruct (referable_key db r Href Hr) as [H | H]; [left | now right].
  split; [|exact H]. cbn in Hr |- *. tauto.
Qed.

(** X1.  [initDatabase] goes through on every catalog whose customers,
    services, appointments and sales tables, where they exist, have their
    primary key.  Afterwards each of the six tables exists: one that was
    there keeps exactly the columns it had (nothing is altered), one that
    was missing has the columns of its CREATE TABLE.  Other tables are not
    touched, and a second run changes nothing. *)
Theorem initDatabase_creates_what_is_missing :
  forall db : Catalog.t,
    Catalog.referable db = true ->
    let db' := snd (Catalog.initDatabase db) in
    fst (Catalog.initDatabase db) = true
    /\ (forall t columns,
           In (t, columns) schema ->
           Catalog.tables db' !! t
           = Some (default (list_to_set columns) (Catalog.tables db !! t)))
    /\ (forall t, ~ In t (map fst schema) ->
                  Catalog.tables db' !! t = Catalog.tables db !! t)
    /\ Catalog.tables (snd (Catalog.initDatabase db')) = Catalog.tables db'.
Proof.
  intros db Href db'. subst db'. unfold Catalog.initDatabase.
  rewrite (initialization_closed db Href). cbn [fst snd Catalog.tables].
  rewrite initialization_closed by now apply initialized_referable.
  cbn [fst snd Catalog.tables].
  destruct (initialized_lookup (Catalog.tables db)) as [Hin Hout].
  split; [reflexivity|]. split; [exact Hin|]. split; [exact Hout|].
  apply initialized_idempotent.
Qed.

Lemma initDatabase_creates_what_is_missing_witness :
  Catalog.tables (snd (Catalog.initDatabase first_release)) !! "appointments"
  = Catalog.tables first_release !! "appointments"
  /\ Catalog.tables (snd (Catalog.initDatabase first_release)) !! "products"
     = Some (list_to_set Catalog.products_columns).
Proof.
  destruct (initDatabase_creates_what_is_missing first_release)
    as (_ & Hin & _ & _); [vm_compute; reflexivity|].
  split.
  - rewrite (Hin "appointments" Catalog.appointments_columns).
    + reflexivity.
    + right; right; left; reflexivity.
  - rewrite (Hin "products" Catalog.products_columns).
    + reflexivity.
    + right; right; right; left; reflexivity.
Defined.

(** Without the key the run stops: a customers table that has no primary
    key cannot be referenced, the CREATE TABLE of the appointments is
    refused, and [initDatabase] returns false with the appointments, the
    products, the sales and the sale items still missing. *)
Example initDatabase_without_key :
  fst (Catalog.initDatabase customers_without_key) = false
  /\ map (Catalog.has_table (snd (Catalog.initDatabase customers_without_key)))
       ["customers"; "services"; "appointments"; "products"; "sales";
        "sale_items"]
     = [true; true; false; false; false; false].
Proof. vm_compute. split; reflexivity. Qed.

(** ** The schema only grows *)

Lemma additive_ret {A} (a : A) : additive (ret a).
Proof. intros db. apply extends_refl. Qed.

Lemma additive_query (sql : Catalog.Sql) : additive (Catalog.query sql).
Proof.
  intros db. destruct (Catalog.query sql db) as [out db'] eqn:E.
  now destruct (catalog_query_extends _ _ _ _ E).
Qed.

Lemma additive_bind {A B} (m : Async Catalog.t A) (k : A -> Async Catalog.t B) :
  additive m -> (forall a, additive (k a)) -> additive (bind m k).
Proof.
  intros Hm Hk db. unfold bind. specialize (Hm db).
  destruct (m db) as [[a | e] db1]; cbn [snd] in *; [|exact Hm].
  exact (extends_trans _ _ _ Hm (Hk a db1)).
Qed.

Ltac additive_step :=
  first
    [ apply additive_ret
    | apply additive_query
    | apply additive_bind; [|intros ?]
    | match goal with
      | |- additive (if ?b then _ else _) => destruct b
      end ].

(** X2.  [initDatabase] and [migrateDatabase] never drop or shrink anything:
    whether they return true or false, every table and every column of the
    catalog before the call is still there after it. *)
Theorem schema_setup_is_additive :
  forall db : Catalog.t,
    extends db (snd (Catalog.initDatabase db))
    /\ extends db (snd (Catalog.migrateDatabase db)).
Proof.
  intros db. split.
  - assert (H : additive Catalog.initialization)
      by (unfold Catalog.initialization, Catalog.create_products,
            Catalog.create_sales, Catalog.create_sale_items;
          repeat additive_step).
    specialize (H db). unfold Catalog.initDatabase.
    now destruct (Catalog.initialization db) as [[u | e] db'].
  - assert (H : additive Catalog.migration)
      by (unfold Catalog.migration; repeat additive_step).
    specialize (H db). unfold Catalog.migrateDatabase.
    now destruct (Catalog.migration db) as [[u | e] db'].
Qed.

(** X3.  Without an appointments table [migrateDatabase] gives up at its
    first ALTER TABLE: it returns false after two statements and leaves
    tables, columns and functions as they were. *)
Theorem migrateDatabase_without_appointments :
  forall db : Catalog.t,
    Catalog.has_table db "appointments" = false ->
    Catalog.migrateDatabase db
    = (false,
       {| Catalog.tables := Catalog.tables db;
          Catalog.keys := Catalog.keys db;
          Catalog.functions := Catalog.functions db;
          Catalog.journal :=
            Catalog.journal db
            ++ [Catalog.SelectColumn "appointments" "payment_status";
                Catalog.AlterTableAddColumns "appointments"
                  ["payment_status"]] |}).
Proof.
  intros db Hmissing. unfold Catalog.migrateDatabase, Catalog.migration, bind.
  rewrite catalog_query_exec. cbn [Catalog.apply].
  unfold Catalog.has_table in Hmissing. unfold Catalog.has_column.
  destruct (Catalog.tables db !! "appointments") eqn:E; [discriminate|].
  cbn [Catalog.empty length Nat.eqb].
  rewrite catalog_query_exec. cbn [Catalog.apply Catalog.tables].
  rewrite E. cbn. now rewrite <- app_assoc.
Qed.

Lemma migrateDatabase_without_appointments_witness :
  fst (Catalog.migrateDatabase Catalog.blank) = false
  /\ Catalog.tables (snd (Catalog.migrateDatabase Catalog.blank)) = ∅.
Proof.
  rewrite (migrateDatabase_without_appointments Catalog.blank eq_refl).
  split; reflexivity.
Defined.

Lemma initialized_migrated (db : Catalog.t) k f j :
  Catalog.has_table db "appointments" = false ->
  Catalog.has_table db "sale_items" = false ->
  migrated
    {| Catalog.tables := initialized (Catalog.tables db);
       Catalog.keys := k; Catalog.functions := f; Catalog.journal := j |}.
Proof.
  unfold Catalog.has_table. intros Ha Hs.
  destruct (Catalog.tables db !! "appointments") eqn:Ea; [discriminate|].
  destruct (Catalog.tables db !! "sale_items") eqn:Es; [discriminate|].
  destruct (initialized_lookup (Catalog.tables db)) as [Hin _].
  assert (Happ := Hin "appointments" Catalog.appointments_columns
                    ltac:(right; right; left; reflexivity)).
  assert (Hpro := Hin "products" Catalog.products_columns
                    ltac:(right; right; right; left; reflexivity)).
  assert (Hsal := Hin "sales" Catalog.sales_columns
                    ltac:(right; right; right; right; left; reflexivity)).
  assert (Hite := Hin "sale_items" Catalog.sale_items_columns
                    ltac:(do 5 right; left; reflexivity)).
  rewrite Ea in Happ. rewrite Es in Hite. cbn [default] in Happ, Hite.
  unfold migrated, Catalog.has_column, Catalog.has_table. cbn [Catalog.tables].
  rewrite Happ, Hpro, Hsal, Hite.
  repeat split; apply bool_decide_eq_true, elem_of_list_to_set, list_elem_of_In;
    cbn; tauto.
Qed.

(** X4.  On a database that has no appointments and no sale_items table
    yet, and whose customers, services and sales tables, where they exist,
    have their primary key, [initDatabase] followed by [migrateDatabase]
    succeeds and the migrator finds nothing to add: it sends its six checks
    and the function definition, and no ALTER TABLE or CREATE TABLE. *)
Theorem initDatabase_then_migrateDatabase :
  forall db : Catalog.t,
    Catalog.referable db = true ->
    Catalog.has_table db "appointments" = false ->
    Catalog.has_table db "sale_items" = false ->
    let db1 := snd (Catalog.initDatabase db) in
    fst (Catalog.initDatabase db) = true
    /\ fst (Catalog.migrateDatabase db1) = true
    /\ Catalog.issued Catalog.migrateDatabase db1 = Catalog.rerun_statements
    /\ Catalog.tables (snd (Catalog.migrateDatabase db1)) = Catalog.tables db1.
Proof.
  intros db Href Ha Hs db1. subst db1. unfold Catalog.initDatabase.
  rewrite (initialization_closed db Href). cbn [fst snd].
  split; [reflexivity|].
  match goal with
  | |- context [Catalog.migrateDatabase
                  {| Catalog.tables := _; Catalog.keys := ?k;
                     Catalog.functions := ?f; Catalog.journal := ?j |}] =>
      pose proof (initialized_migrated db k f j Ha Hs) as Hm
  end.
  unfold Catalog.issued, Catalog.migrateDatabase.
  rewrite (migration_rerun _ Hm). cbn [fst snd Catalog.journal Catalog.tables].
  split; [reflexivity|]. split; [apply drop_app_length | reflexivity].
Qed.

Lemma initDatabase_then_migrateDatabase_witness :
  fst (Catalog.migrateDatabase (snd (Catalog.initDatabase Catalog.blank)))
  = true
  /\ Catalog.issued Catalog.migrateDatabase
       (snd (Catalog.initDatabase Catalog.blank))
     = Catalog.rerun_statements.
Proof.
  destruct (initDatabase_then_migrateDatabase Catalog.blank eq_refl eq_refl
              eq_refl) as (_ & H1 & H2 & _).
  split; [exact H1 | exact H2].
Defined.

(** ** [resetDatabase] *)

Lemma reset_query_drop (table : string) (w : Reset.World) :
  Reset.query (Reset.DropTableIfExistsCascade table) w
  = (Returned [],
     {| Reset.catalog :=
          {| Catalog.tables := delete table (Catalog.tables (Reset.catalog w));
             Catalog.keys := Catalog.keys (Reset.catalog w) ∖ {[table]};
             Catalog.functions := Catalog.functions (Reset.catalog w);
             Catalog.journal := Catalog.journal (Reset.catalog w) |};
        Reset.dropped := Reset.dropped w ++ [table] |}).
Proof.
  unfold Reset.query. erewrite query_resolved; reflexivity.
Qed.

(** The catalog with the six tables dropped. *)
Lemma dropped_lookup (m : gmap string (gset string)) t :
  delete "customers"
    (delete "services"
       (delete "products"
          (delete "appointments" (delete "sales" (delete "sale_items" m)))))
  !! t
  = if bool_decide (In t (map fst schema)) then None else m !! t.
Proof.
  rewrite !lookup_delete. cbn [map fst schema].
  repeat (destruct (decide _) as [<-|?]; [reflexivity|]).
  rewrite bool_decide_eq_false_2; [reflexivity|].
  cbn. intuition congruence.
Qed.

(** X5.  [resetDatabase] goes through whatever the database holds.  It drops
    the six tables, children before parents, and recreates them, so that each
    has exactly the columns of [initDatabase], whatever it had before; tables
    that are not the application's are left alone.  The schema it leaves is
    up to date: a following [migrateDatabase] adds nothing. *)
Theorem resetDatabase_rebuilds_schema :
  forall w : Reset.World,
    let w' := snd (Reset.resetDatabase w) in
    fst (Reset.resetDatabase w) = true
    /\ Reset.dropped w'
       = Reset.dropped w
         ++ ["sale_items"; "sales"; "appointments"; "products"; "services";
             "customers"]
    /\ (forall t columns,
           In (t, columns) schema ->
           Catalog.tables (Reset.catalog w') !! t = Some (list_to_set columns))
    /\ (forall t, ~ In t (map fst schema) ->
                  Catalog.tables (Reset.catalog w') !! t
                  = Catalog.tables (Reset.catalog w) !! t)
    /\ Catalog.issued Catalog.migrateDatabase (Reset.catalog w')
       = Catalog.rerun_statements.
Proof.
  intros [[m k f j] d] w'. subst w'.
  unfold Reset.resetDatabase, Reset.resetting, bind.
  rewrite !reset_query_drop. cbn [Reset.catalog Reset.dropped Catalog.tables
                                    Catalog.keys Catalog.functions
                                    Catalog.journal].
  unfold Reset.initDatabase, Catalog.initDatabase.
  set (m0 := delete "customers" _).
  assert (Hm0 : forall t, m0 !! t
                          = if bool_decide (In t (map fst schema))
                            then None else m !! t)
    by (intros t; apply dropped_lookup).
  rewrite initialization_closed.
  2:{ unfold Catalog.referable, Catalog.referenced, Catalog.has_table.
      cbn [forallb Catalog.tables]. rewrite !Hm0. reflexivity. }
  cbn [Reset.catalog Reset.dropped Catalog.tables Catalog.keys
         Catalog.functions Catalog.journal negb ret fst snd].
  destruct (initialized_lookup m0) as [Hin Hout].
  split; [reflexivity|]. split; [now rewrite <- !app_assoc|].
  split; [|split].
  - intros t columns Ht. rewrite (Hin t columns Ht), Hm0.
    rewrite bool_decide_eq_true_2; [reflexivity|].
    apply in_map_iff. now exists (t, columns).
  - intros t Ht. rewrite (Hout t Ht), Hm0.
    now rewrite bool_decide_eq_false_2.
  - match goal with
    | |- Catalog.issued _ ?c = _ =>
        assert (Hmig : migrated c)
    end.
    { apply (initialized_migrated
               {| Catalog.tables := m0; Catalog.keys := k;
                  Catalog.functions := f; Catalog.journal := j |});
        unfold Catalog.has_table; cbn [Catalog.tables]; now rewrite Hm0. }
    unfold Catalog.issued, Catalog.migrateDatabase.
    rewrite (migration_rerun _ Hmig). cbn [snd Catalog.journal].
    apply drop_app_length.
Qed.

Lemma resetDatabase_rebuilds_schema_witness :
  let w := {| Reset.catalog := first_release_with_notes;
              Reset.dropped := [] |} in
  Catalog.tables (Reset.catalog (snd (Reset.resetDatabase w)))
  !! "sale_items"
  = Some (list_to_set Catalog.sale_items_columns)
  /\ Catalog.tables (Reset.catalog (snd (Reset.resetDatabase w))) !! "notes"
     = Some (list_to_set ["id"; "body"]).
Proof.
  intros w.
  destruct (resetDatabase_rebuilds_schema w) as (_ & _ & Hin & Hout & _).
  split.
  - apply Hin. do 5 right. left. reflexivity.
  - rewrite Hout; [reflexivity|]. cbn. intuition discriminate.
Defined.

(** ** The mock pool *)

Lemma numbered_app_next (ids : list Z) :
  Mock.numbered ids -> Mock.numbered (ids ++ [Z.of_nat (length ids) + 1]).
Proof.
  intros H i id Hnth. destruct (Nat.lt_ge_cases i (length ids)) as [Hlt | Hge].
  - rewrite nth_error_app1 in Hnth by exact Hlt. now apply H.
  - rewrite nth_error_app2 in Hnth by exact Hge.
    destruct (i - length ids)%nat as [|k] eqn:E; cbn in Hnth.
    + injection Hnth as <-. f_equal. f_equal. lia.
    + now destruct k.
Qed.

Lemma numbered_NoDup (ids : list Z) : Mock.numbered ids -> NoDup ids.
Proof.
  intros H. apply NoDup_ListNoDup, NoDup_nth_error. intros i j Hi Heq.
  destruct (nth_error ids i) as [a|] eqn:Ea;
    [|apply nth_error_None in Ea; lia].
  symmetry in Heq. pose proof (H i a Ea). pose proof (H j a Heq). lia.
Qed.

(** One query keeps the numbering and only appends. *)
Lemma mock_query_keeps text params data :
  Mock.numbered (map Mock.mc_id (Mock.customers data)) ->
  Mock.numbered (map Mock.ms_id (Mock.services data)) ->
  let data' := snd (Mock.query text params data) in
  Mock.numbered (map Mock.mc_id (Mock.customers data'))
  /\ Mock.numbered (map Mock.ms_id (Mock.services data'))
  /\ (exists more, Mock.customers data' = Mock.customers data ++ more)
  /\ (exists more, Mock.services data' = Mock.services data ++ more).
Proof.
  intros Hc Hs. unfold Mock.query.
  repeat (destruct (includes _ _)); cbn [snd Mock.customers Mock.services];
    try (split; [exact Hc|]; split; [exact Hs|];
         split; exists []; now rewrite app_nil_r).
  - split; [|split; [exact Hs|split; [eauto | exists []; now rewrite app_nil_r]]].
    rewrite map_app. cbn [map Mock.mc_id].
    rewrite <- (length_map Mock.mc_id). now apply numbered_app_next.
  - split; [exact Hc|].
    split; [|split; [exists []; now rewrite app_nil_r | eauto]].
    rewrite map_app. cbn [map Mock.ms_id].
    rewrite <- (length_map Mock.ms_id). now apply numbered_app_next.
Qed.

Lemma mock_session_keeps (queries : list (string * option (list Mock.JsValue))) :
  forall data,
    Mock.numbered (map Mock.mc_id (Mock.customers data)) ->
    Mock.numbered (map Mock.ms_id (Mock.services data)) ->
    let data' := Mock.session queries data in
    Mock.numbered (map Mock.mc_id (Mock.customers data'))
    /\ Mock.numbered (map Mock.ms_id (Mock.services data'))
    /\ (exists more, Mock.customers data' = Mock.customers data ++ more)
    /\ (exists more, Mock.services data' = Mock.services data ++ more).
Proof.
  induction queries as [|[text params] rest IH]; intros data Hc Hs.
  - cbn. split; [exact Hc|]. split; [exact Hs|].
    split; exists []; now rewrite app_nil_r.
  - cbn [Mock.session].
    destruct (mock_query_keeps text params data Hc Hs)
      as (Hc1 & Hs1 & [mc Ec] & [ms Es]).
    destruct (IH _ Hc1 Hs1) as (Hc2 & Hs2 & [mc' Ec'] & [ms' Es']).
    split; [exact Hc2|]. split; [exact Hs2|]. split.
    + exists (mc ++ mc'). now rewrite Ec', Ec, app_assoc.
    + exists (ms ++ ms'). now rewrite Es', Es, app_assoc.
Qed.

(** X6.  Whatever queries a mock pool receives, its customers and its
    services keep the keys 1, 2, ..., n in this order, so no key is used
    twice, and the rows it started with stay at the front: the mock only
    appends. *)
Theorem mock_pool_keys_are_numbered :
  forall queries : list (string * option (list Mock.JsValue)),
    let data := Mock.session queries Mock.mockData in
    Mock.numbered (map Mock.mc_id (Mock.customers data))
    /\ Mock.numbered (map Mock.ms_id (Mock.services data))
    /\ NoDup (map Mock.mc_id (Mock.customers data))
    /\ NoDup (map Mock.ms_id (Mock.services data))
    /\ (exists more, Mock.customers data = Mock.mockCustomers ++ more)
    /\ (exists more, Mock.services data = Mock.mockServices ++ more).
Proof.
  intros queries data.
  assert (Hc : Mock.numbered (map Mock.mc_id (Mock.customers Mock.mockData))).
  { intros i id H. destruct i as [|[|i]]; cbn in H.
    - now injection H as <-.
    - now injection H as <-.
    - now destruct i. }
  assert (Hs : Mock.numbered (map Mock.ms_id (Mock.services Mock.mockData))).
  { intros i id H. destruct i as [|[|i]]; cbn in H.
    - now injection H as <-.
    - now injection H as <-.
    - now destruct i. }
  destruct (mock_session_keeps queries _ Hc Hs) as (H1 & H2 & H3 & H4).
  fold data in H1, H2, H3, H4.
  split; [exact H1|]. split; [exact H2|].
  split; [now apply numbered_NoDup|]. split; [now apply numbered_NoDup|].
  split; assumption.
Qed.

(** X7.  A text that the mock takes for an insert into customers adds one
    row, keyed by the number of rows plus one, with visits 0 and no last
    visit, whose name, phone and email are the first three parameters or the
    defaults; the text [getCustomers] sends then returns all rows, the new
    one last. *)
Theorem mock_pool_insert_then_select :
  forall text params data,
    includes (Mock.toLowerCase text) "select * from customers" = false ->
    includes (Mock.toLowerCase text) "select * from services" = false ->
    includes (Mock.toLowerCase text) "insert into customers" = true ->
    let created :=
      {| Mock.mc_id := Z.of_nat (length (Mock.customers data)) + 1;
         Mock.mc_name :=
           Mock.js_or (Mock.param params 0) (Mock.JsString "New Customer");
         Mock.mc_phone := Mock.js_or (Mock.param params 1) (Mock.JsString "");
         Mock.mc_email := Mock.js_or (Mock.param params 2) (Mock.JsString "");
         Mock.mc_visits := 0;
         Mock.mc_last_visit := Mock.JsNullValue |} in
    let data' := snd (Mock.query text params data) in
    fst (Mock.query text params data)
    = {| Mock.rows := [Mock.CustomerRow created]; Mock.rowCount := 1 |}
    /\ Mock.query Mock.select_customers_text None data'
       = ({| Mock.rows :=
               map Mock.CustomerRow (Mock.customers data ++ [created]);
             Mock.rowCount := Z.of_nat (length (Mock.customers data)) + 1 |},
          data').
Proof.
  intros text params data H1 H2 H3 created data'. subst data'.
  assert (Hq : Mock.query text params data
               = ({| Mock.rows := [Mock.CustomerRow created];
                     Mock.rowCount := 1 |},
                  {| Mock.customers := Mock.customers data ++ [created];
                     Mock.services := Mock.services data |})).
  { unfold Mock.query. now rewrite H1, H2, H3. }
  rewrite Hq. cbn [fst snd]. split; [reflexivity|].
  unfold Mock.query.
  change (includes (Mock.toLowerCase Mock.select_customers_text)
            "select * from customers") with true.
  cbn [Mock.customers]. rewrite length_app, Nat2Z.inj_add. reflexivity.
Qed.

Lemma mock_pool_insert_then_select_witness :
  Mock.rowCount
    (fst (Mock.query Mock.select_customers_text None
            (snd (Mock.query Mock.insert_customer_text
                    (Some [Mock.JsString "Mehmet Kaya"]) Mock.mockData))))
  = 3.
Proof.
  destruct (mock_pool_insert_then_select Mock.insert_customer_text
              (Some [Mock.JsString "Mehmet Kaya"]) Mock.mockData
              eq_refl eq_refl eq_refl) as [_ H].
  rewrite H. reflexivity.
Defined.

(** ** A connection check that fails *)

(** X8.  [ensureDatabaseConnection] reports true only with a pool installed.
    But [initPool] installs the pg pool before it verifies the connection:
    when the verification query fails, the first call reports false and
    leaves the pool in place, and every later call reports true without
    another check. *)
Theorem failed_connection_check_is_reported_once :
  forall env url,
    (forall pool connected pool',
        ensureDatabaseConnection env pool = (connected, pool') ->
        connected = true -> pool' <> None)
    /\ (in_browser env = false ->
        pg_available env = true ->
        DATABASE_URL env = Some url ->
        truthy url = true ->
        pool_constructor_throws env = false ->
        server_reachable env = false ->
        ensureDatabaseConnection env None = (false, Some (PgPool url))
        /\ ensureDatabaseConnection env
             (snd (ensureDatabaseConnection env None))
           = (true, Some (PgPool url))).
Proof.
  intros env url. split.
  - intros pool connected pool'.
    unfold ensureDatabaseConnection, initPool, createMockPool.
    destruct pool as [p|]; [now intros [= <- <-]|].
    destruct (in_browser env); [now intros [= <- <-]|].
    destruct (pg_available env); cbn [negb]; [|now intros [= <- <-]].
    destruct (DATABASE_URL env) as [u|]; [|intros [= <- <-]; discriminate].
    destruct (truthy u); cbn [negb]; [|intros [= <- <-]; discriminate].
    destruct (pool_constructor_throws env); [now intros [= <- <-]|].
    destruct (server_reachable env); now intros [= <- <-].
  - intros Hb Hp Hu Ht Hc Hs.
    assert (ensureDatabaseConnection env None = (false, Some (PgPool url)))
      as Hfirst.
    { unfold ensureDatabaseConnection, initPool.
      now rewrite Hb, Hp, Hu, Ht, Hc, Hs. }
    rewrite Hfirst. split; reflexivity.
Qed.

Lemma failed_connection_check_is_reported_once_witness :
  let env :=
    {| in_browser := false; pg_available := true;
       DATABASE_URL := Some "postgresql://user@db.example/shop";
       pool_constructor_throws := false; server_reachable := false |} in
  ensureDatabaseConnection env None
  = (false, Some (PgPool "postgresql://user@db.example/shop"))
  /\ ensureDatabaseConnection env (snd (ensureDatabaseConnection env None))
     = (true, Some (PgPool "postgresql://user@db.example/shop")).
Proof.
  intros env.
  apply (proj2 (failed_connection_check_is_reported_once env
                  "postgresql://user@db.example/shop")); reflexivity.
Defined.

(** ** The other statements behind [query] *)

Lemma crud_exec_rejected_fatal {A} (d : Crud.Data A) db message db' :
  Crud.exec A d db = (Rejected message, db') ->
  isRetriableError message = false.
Proof.
  unfold Crud.exec.
  destruct (Crud.apply d _ _) as [[e q'] | [[a t'] q']];
    intros [= <- _]; destruct e as [| | | | | |e]; try destruct e;
    reflexivity.
Qed.

Lemma crud_query_exec {A} (d : Crud.Data A) (db : Store.Db) :
  Crud.query d db
  = (outcome_of_reply (fst (Crud.exec A d db)), snd (Crud.exec A d db)).
Proof.
  unfold Crud.query.
  destruct (Crud.exec A d db) as [[res | message] db'] eqn:E.
  - erewrite query_resolved; [reflexivity | reflexivity | exact E].
  - erewrite query_rejected; [reflexivity | reflexivity | exact E |].
    eapply crud_exec_rejected_fatal, E.
Qed.

(** A statement of the other actions: its effect, or the error with the
    session closed and its transaction block rolled back. *)
Lemma crud_query_data {A} (d : Crud.Data A) (db : Store.Db) :
  Crud.query d db
  = match Crud.apply d (Store.tables db) (Store.seqs db) with
    | inr (a, t', q') =>
        (Returned a,
         {| Store.tables := t'; Store.seqs := q'; Store.txn := Store.txn db |})
    | inl (e, q') =>
        (Thrown (JsError (Crud.sqlerrm e)),
         {| Store.tables := Store.rolled_back db; Store.seqs := q';
            Store.txn := Store.Idle |})
    end.
Proof.
  rewrite crud_query_exec. unfold Crud.exec.
  now destruct (Crud.apply d _ _) as [[e q'] | [[a t'] q']].
Qed.

(** ** Keys *)

Lemma distinct_app_new (ids : list Z) (next : Z) :
  forallb (fun id => id <? next) ids = true ->
  distinct ids = true ->
  distinct (ids ++ [next]) = true.
Proof.
  induction ids as [|id ids IH]; [reflexivity|].
  cbn [forallb distinct app]. rewrite !andb_true_iff, !negb_true_iff.
  intros [Hlt Hall] [Hnew Hrest]. split; [|now apply IH].
  rewrite existsb_app, Hnew. cbn. apply Z.ltb_lt in Hlt.
  rewrite orb_false_r. apply Z.eqb_neq. lia.
Qed.

Lemma keyed_app (ids : list Z) (next : Z) :
  keyed ids next = true -> keyed (ids ++ [next]) (next + 1) = true.
Proof.
  unfold keyed. rewrite !andb_true_iff. intros [Hd Hlt]. split.
  - now apply distinct_app_new.
  - rewrite forallb_app. cbn. rewrite andb_true_r, andb_true_iff. split.
    + rewrite forallb_forall in *. intros id Hin.
      specialize (Hlt id Hin). apply Z.ltb_lt in Hlt. apply Z.ltb_lt. lia.
    + apply Z.ltb_lt. lia.
Qed.

Lemma keyed_mono (ids : list Z) (n m : Z) :
  n <= m -> keyed ids n = true -> keyed ids m = true.
Proof.
  unfold keyed. rewrite !andb_true_iff. intros Hle [Hd Hlt].
  split; [exact Hd|]. rewrite forallb_forall in *. intros id Hin.
  specialize (Hlt id Hin). apply Z.ltb_lt in Hlt. apply Z.ltb_lt. lia.
Qed.

Lemma existsb_map_filter_false {A} (key : A -> Z) (f : Z -> bool)
    (p : A -> bool) (l : list A) :
  existsb f (map key l) = false ->
  existsb f (map key (List.filter p l)) = false.
Proof.
  induction l as [|a l IH]; [reflexivity|]. cbn [map existsb List.filter].
  rewrite orb_false_iff. intros [Ha Hl].
  destruct (p a); cbn [map existsb]; rewrite ?Ha; now apply IH.
Qed.

Lemma keyed_filter {A} (key : A -> Z) (p : A -> bool) (l : list A) (n : Z) :
  keyed (map key l) n = true -> keyed (map key (List.filter p l)) n = true.
Proof.
  unfold keyed. rewrite !andb_true_iff. intros [Hd Hlt]. split.
  - clear Hlt. induction l as [|a l IH]; [reflexivity|].
    cbn [map distinct List.filter] in *.
    apply andb_true_iff in Hd as [Hnew Hrest]. apply negb_true_iff in Hnew.
    destruct (p a); [|now apply IH]. cbn [map distinct].
    rewrite (existsb_map_filter_false _ _ _ _ Hnew). now rewrite IH.
  - rewrite forallb_forall in *. intros id Hin. apply Hlt.
    apply in_map_iff in Hin as (a & <- & Hin). apply filter_In in Hin as [Hin _].
    now apply in_map.
Qed.

Lemma map_key_map {A} (key : A -> Z) (f : A -> A) (l : list A) :
  (forall a, key (f a) = key a) -> map key (map f l) = map key l.
Proof. intros Hkey. rewrite map_map. now apply map_ext. Qed.

Lemma keyed_map_key {A} (key : A -> Z) (f : A -> A) (l : list A) (n : Z) :
  (forall a, key (f a) = key a) ->
  keyed (map key l) n = true -> keyed (map key (map f l)) n = true.
Proof. intros Hkey H. now rewrite map_key_map. Qed.

Lemma keys_ok_mono t q q' :
  seqs_le q q' -> keys_ok t q = true -> keys_ok t q' = true.
Proof.
  unfold seqs_le, keys_ok. rewrite !andb_true_iff.
  intros (H1 & H2 & H3 & H4 & H5 & H6) (((((K1 & K2) & K3) & K4) & K5) & K6).
  repeat split; eapply keyed_mono; eassumption.
Qed.

Ltac key_kept :=
  let x := fresh "x" in
  intros x; cbn; try destruct (_ =? _); auto.

Ltac keyed_solve :=
  repeat first
    [ assumption
    | rewrite map_app; cbn [map a_id sale_id si_id c_id s_id p_id];
      apply keyed_app
    | apply keyed_filter
    | apply keyed_map_key; [key_kept|] ].

Ltac keys_solve :=
  unfold keys_ok, seqs_le, Store.delete_appointments in *; store_proj;
  rewrite !andb_true_iff in *;
  match goal with
  | H : _ /\ _ |- _ =>
      destruct H as (((((K1 & K2) & K3) & K4) & K5) & K6)
  end;
  split; [repeat split; keyed_solve | repeat split; lia].

Lemma store_apply_keys {A} (d : Store.Data A) t q a t' q' :
  Store.apply d t q = inr (a, t', q') ->
  keys_ok t q = true ->
  keys_ok t' q' = true /\ seqs_le q q'.
Proof.
  intros Happly Hk. unfold Store.apply in Happly.
  destruct d; cbn [Store.refused Store.run] in Happly;
    repeat match type of Happly with
           | (if ?b then _ else _) = _ => destruct b
           | match (if ?b then _ else _) with _ => _ end = _ =>
               destruct b; cbv beta iota in Happly
           end;
    try discriminate; injection Happly as <- <- <-; keys_solve.
Qed.

Ltac seqs_solve := unfold seqs_le; store_proj; repeat split; lia.

(** A statement that fails leaves the sequences where they were, or one
    key further. *)
Lemma store_apply_error_seqs {A} (d : Store.Data A) t q e q' :
  Store.apply d t q = inl (e, q') -> seqs_le q q'.
Proof.
  intros Happly. unfold Store.apply in Happly.
  destruct d; cbn [Store.refused Store.run] in Happly;
    repeat match type of Happly with
           | (if ?b then _ else _) = _ => destruct b
           | match (if ?b then _ else _) with _ => _ end = _ =>
               destruct b; cbv beta iota in Happly
           end;
    try discriminate; injection Happly as _ <-; seqs_solve.
Qed.

(** What a SET clause of [UpdateAppointment] leaves alone: the key, and the
    references unless it writes a row and has checked them. *)
Lemma assignment_keeps t written values clause set :
  Crud.assignment t written values clause = inr set ->
  forall a,
    a_id (set a) = a_id a
    /\ (written = true ->
        Store.has_customer t (a_customer_id a) = true ->
        Store.has_customer t (a_customer_id (set a)) = true)
    /\ (written = true ->
        Store.has_service t (a_service_id a) = true ->
        Store.has_service t (a_service_id (set a)) = true).
Proof.
  unfold Crud.assignment. destruct clause as [column n].
  destruct (Crud.placeholder values n) as [value|]; [|discriminate].
  repeat match goal with
         | |- (if ?b then _ else _) = _ -> _ => destruct b
         end;
    unfold Crud.reference, Crud.number, Crud.text, Crud.text50, Crud.day,
      Crud.hour;
    destruct value; try discriminate;
    repeat match goal with
           | |- (if ?b then _ else _) = _ -> _ => destruct b eqn:?
           | |- match ?x with _ => _ end = _ -> _ => destruct x eqn:?
           end;
    try discriminate; intros [= <-] a; cbn;
    (split; [reflexivity|]); split; intros Hw; subst written;
    rewrite ?orb_false_r in *; auto.
Qed.

Lemma assignments_keep t written values clauses :
  forall set,
    Crud.assignments t written values clauses = inr set ->
    forall a,
      a_id (set a) = a_id a
      /\ (written = true ->
          Store.has_customer t (a_customer_id a) = true ->
          Store.has_customer t (a_customer_id (set a)) = true)
      /\ (written = true ->
          Store.has_service t (a_service_id a) = true ->
          Store.has_service t (a_service_id (set a)) = true).
Proof.
  induction clauses as [|clause rest IH]; intros set; cbn [Crud.assignments].
  - intros [= <-] a. auto.
  - destruct (Crud.assignment t written values clause) as [e | first] eqn:E;
      [discriminate|].
    destruct (Crud.assignments t written values rest) as [e | sets];
      [discriminate|].
    intros [= <-] a.
    destruct (assignment_keeps _ _ _ _ _ E a) as (H1 & H2 & H3).
    destruct (IH sets eq_refl (first a)) as (I1 & I2 & I3).
    split; [congruence|]. split; auto.
Qed.

Lemma crud_apply_keys {A} (d : Crud.Data A) t q a t' q' :
  Crud.apply d t q = inr (a, t', q') ->
  keys_ok t q = true ->
  keys_ok t' q' = true /\ seqs_le q q'.
Proof.
  intros Happly Hk.
  destruct d; cbn [Crud.apply] in Happly;
    repeat match type of Happly with
           | (if ?b then _ else _) = _ => destruct b
           | match ?x with _ => _ end = _ => destruct x eqn:?
           end;
    try discriminate; injection Happly as <- <- <-;
    try match goal with
        | H : Crud.assignments _ _ _ _ = inr _ |- _ =>
            pose proof (fun a => proj1 (assignments_keep _ _ _ _ _ H a))
              as Hid
        end;
    keys_solve.
Qed.

Lemma crud_apply_error_seqs {A} (d : Crud.Data A) t q e q' :
  Crud.apply d t q = inl (e, q') -> seqs_le q q'.
Proof.
  intros Happly.
  destruct d; cbn [Crud.apply] in Happly;
    repeat match type of Happly with
           | (if ?b then _ else _) = _ => destruct b
           | match ?x with _ => _ end = _ => destruct x eqn:?
           end;
    try discriminate; injection Happly as _ <-; seqs_solve.
Qed.

(** ** References *)

Lemma existsb_key {A} (key : A -> Z) (id : Z) (l : list A) :
  existsb (fun a => key a =? id) l = true <-> In id (map key l).
Proof.
  rewrite existsb_exists, in_map_iff.
  split; intros (a & H1 & H2); exists a.
  - split; [now apply Z.eqb_eq | exact H1].
  - split; [exact H2 | now apply Z.eqb_eq].
Qed.

Lemma references_ok_spec (t : Store.Tables) :
  references_ok t = true <-> refs t.
Proof.
  unfold references_ok, refs, Store.has_customer, Store.has_service,
    Store.has_sale, has_appointment.
  rewrite !andb_true_iff, !forallb_forall.
  split.
  - intros ((H1 & H2) & H3). split; [|split].
    + intros a Hin. apply H1 in Hin. apply andb_true_iff in Hin as [Hc Hs].
      split; [now apply (existsb_key c_id) | now apply (existsb_key s_id)].
    + intros s Hin. apply H2 in Hin. apply andb_true_iff in Hin as [Hc Ha].
      split.
      * intros c Hsome. rewrite Hsome in Hc. now apply (existsb_key c_id).
      * intros a Hsome. rewrite Hsome in Ha. now apply (existsb_key a_id).
    + intros item Hin. apply H3 in Hin. now apply (existsb_key sale_id).
  - intros (R1 & R2 & R3). split; [split|].
    + intros a Hin. destruct (R1 a Hin) as [Hc Hs]. apply andb_true_iff.
      split; [now apply (existsb_key c_id) | now apply (existsb_key s_id)].
    + intros s Hin. destruct (R2 s Hin) as [Hc Ha]. apply andb_true_iff.
      split.
      * destruct (sale_customer_id s) as [c|]; [|reflexivity].
        now apply (existsb_key c_id), Hc.
      * destruct (sale_appointment_id s) as [a|]; [|reflexivity].
        now apply (existsb_key a_id), Ha.
    + intros item Hin. now apply (existsb_key sale_id), R3.
Qed.

(** Rows that keep their references when the customers and services they
    point to stay. *)
Lemma refs_mono (t t' : Store.Tables) :
  Store.appointments t' = Store.appointments t ->
  Store.sales t' = Store.sales t ->
  Store.sale_items t' = Store.sale_items t ->
  incl (map c_id (Store.customers t)) (map c_id (Store.customers t')) ->
  incl (map s_id (Store.services t)) (map s_id (Store.services t')) ->
  refs t -> refs t'.
Proof.
  intros Ha Hs Hi Hc Hsv (R1 & R2 & R3). unfold refs. rewrite Ha, Hs, Hi.
  split; [|split].
  - intros a Hin. destruct (R1 a Hin). split; [apply Hc | apply Hsv]; assumption.
  - intros s Hin. destruct (R2 s Hin) as [Q1 Q2].
    split; [intros c Hsome; apply Hc, Q1, Hsome | exact Q2].
  - exact R3.
Qed.

Lemma refs_delete_appointments (dead : Appointment -> bool) (t : Store.Tables) :
  refs t -> refs (Store.delete_appointments dead t).
Proof.
  intros (R1 & R2 & R3). unfold refs, Store.delete_appointments. store_proj.
  split; [|split].
  - intros a Hin. apply filter_In in Hin as [Hin _]. now apply R1.
  - intros s' Hin. apply in_map_iff in Hin as (s & <- & Hin).
    destruct (R2 s Hin) as [Q1 Q2]. cbn. split; [exact Q1|].
    intros a Hsome. destruct (sale_appointment_id s) as [a0|]; [|discriminate].
    destruct (existsb _ _) eqn:Hgone; [discriminate|].
    injection Hsome as ->.
    specialize (Q2 a eq_refl). apply in_map_iff in Q2 as (x & Hx & Hinx).
    apply in_map_iff. exists x. split; [exact Hx|].
    apply filter_In. split; [exact Hinx|].
    destruct (dead x) eqn:Hdead; [|reflexivity]. exfalso.
    assert (existsb (Z.eqb a)
              (map a_id (List.filter dead (Store.appointments t))) = true)
      as Hyes.
    { apply existsb_exists. exists a. split; [|apply Z.eqb_refl].
      apply in_map_iff. exists x. split; [exact Hx|].
      apply filter_In. now split. }
    congruence.
  - intros item Hin. rewrite map_key_map by reflexivity. now apply R3.
Qed.

Lemma in_map_filter_ne {A} (key : A -> Z) (id other : Z) (l : list A) :
  In other (map key l) -> other <> id ->
  In other (map key (List.filter (fun a => negb (key a =? id)) l)).
Proof.
  intros Hin Hne. apply in_map_iff in Hin as (a & Ha & Hin).
  apply in_map_iff. exists a. split; [exact Ha|].
  apply filter_In. split; [exact Hin|].
  apply negb_true_iff, Z.eqb_neq. congruence.
Qed.

Ltac incl_solve :=
  store_proj;
  first [ apply incl_refl
        | rewrite map_key_map by key_kept; apply incl_refl
        | rewrite map_app; apply incl_appl, incl_refl ].

Ltac refs_by_mono H :=
  revert H; apply refs_mono;
  [reflexivity | reflexivity | reflexivity | incl_solve | incl_solve].

Lemma store_apply_refs {A} (d : Store.Data A) t q a t' q' :
  Store.apply d t q = inr (a, t', q') -> refs t -> refs t'.
Proof.
  intros Happly H.
  destruct d as [id | | id | | id | id | cid sid dt tm dur st nt pst | lv id
                | qty id | cid total pm dt | sale iid ity nm pr qty
                | sale sid pr | id | id | id | id];
    unfold Store.apply in Happly; cbn [Store.refused Store.run] in Happly;
    repeat match type of Happly with
           | (if ?b then _ else _) = _ => destruct b eqn:?
           | match (if ?b then _ else _) with _ => _ end = _ =>
               destruct b eqn:?; cbv beta iota in Happly
           end;
    try discriminate; injection Happly as <- <- <-;
    try exact H; try (refs_by_mono H).
  - (* InsertAppointment *)
    match goal with
    | Hfk : Store.has_customer _ _ && Store.has_service _ _ = true |- _ =>
        apply andb_true_iff in Hfk as [Hc Hs]
    end.
    apply (existsb_key c_id) in Hc. apply (existsb_key s_id) in Hs.
    destruct H as (R1 & R2 & R3). unfold refs. store_proj.
    split; [|split].
    + intros a Hin. apply in_app_iff in Hin as [Hin | [<- | []]];
        [now apply R1 | now split].
    + intros s Hin. destruct (R2 s Hin) as [Q1 Q2]. split; [exact Q1|].
      intros a Hsome. rewrite map_app. apply in_or_app. left. now apply Q2.
    + exact R3.
  - (* InsertSale *)
    match goal with
    | Hc : Store.has_customer _ _ = true |- _ =>
        apply (existsb_key c_id) in Hc; rename Hc into Hcustomer
    end.
    destruct H as (R1 & R2 & R3). unfold refs. store_proj.
    split; [|split].
    + exact R1.
    + intros s Hin. apply in_app_iff in Hin as [Hin | [<- | []]];
        [now apply R2|]. cbn.
      split; [intros c [= <-]; exact Hcustomer | discriminate].
    + intros item Hin. rewrite map_app. apply in_or_app. left. now apply R3.
  - (* InsertSaleItem *)
    match goal with
    | Hs : Store.has_sale _ _ = true |- _ =>
        apply (existsb_key sale_id) in Hs; rename Hs into Hsale
    end.
    destruct H as (R1 & R2 & R3). unfold refs. store_proj.
    split; [exact R1 | split; [exact R2|]].
    intros item Hin. apply in_app_iff in Hin as [Hin | [<- | []]];
      [now apply R3 | exact Hsale].
  - (* DeleteCustomer *)
    apply (refs_delete_appointments (fun a => a_customer_id a =? id)) in H.
    destruct H as (R1 & R2 & R3). unfold refs. store_proj.
    split; [|split].
    + intros a Hin. destruct (R1 a Hin) as [Hc Hs]. split; [|exact Hs].
      apply in_map_filter_ne; [exact Hc|].
      cbn in Hin. apply filter_In in Hin as [_ Hlive].
      apply negb_true_iff, Z.eqb_neq in Hlive. exact Hlive.
    + intros s' Hin. apply in_map_iff in Hin as (s & <- & Hin).
      destruct (R2 s Hin) as [Q1 Q2]. cbn [Store.forget_customer
        sale_customer_id sale_appointment_id]. split; [|exact Q2].
      intros c Hsome. destruct (sale_customer_id s) as [c0|]; [|discriminate].
      destruct (c0 =? id) eqn:Hne; [discriminate|]. injection Hsome as ->.
      apply in_map_filter_ne; [now apply Q1 | now apply Z.eqb_neq].
    + intros item Hin. rewrite map_key_map by reflexivity. now apply R3.
  - (* DeleteService *)
    apply (refs_delete_appointments (fun a => a_service_id a =? id)) in H.
    destruct H as (R1 & R2 & R3). unfold refs. store_proj.
    split; [|split; [exact R2 | exact R3]].
    intros a Hin. destruct (R1 a Hin) as [Hc Hs]. split; [exact Hc|].
    apply in_map_filter_ne; [exact Hs|].
    cbn in Hin. apply filter_In in Hin as [_ Hlive].
    apply negb_true_iff, Z.eqb_neq in Hlive. exact Hlive.
  - (* DeleteAppointment *)
    now apply refs_delete_appointments.
Qed.

Lemma crud_apply_refs {A} (d : Crud.Data A) t q a t' q' :
  Crud.apply d t q = inr (a, t', q') -> refs t -> refs t'.
Proof.
  intros Happly H.
  destruct d as [nm ph em vs lv | nm ph em id | nm dur pr ds
                | nm dur pr ds id | nm cat pr stk ds | nm cat pr stk ds id
                | id | id | clauses values wid | pm id | cid dt total pm
                | sale iid nm pr | id | sale | dt | | | dt];
    cbn [Crud.apply] in Happly;
    repeat match type of Happly with
           | (if ?b then _ else _) = _ => destruct b eqn:?
           | match ?x with _ => _ end = _ => destruct x eqn:?
           end;
    try discriminate; injection Happly as <- <- <-;
    try exact H; try (refs_by_mono H).
  - (* UpdateAppointment *)
    match goal with
    | Hset : Crud.assignments _ _ _ _ = inr _ |- _ =>
        pose proof (assignments_keep _ _ _ _ _ Hset) as Hkeep
    end.
    destruct H as (R1 & R2 & R3). unfold refs. store_proj.
    split; [|split; [|exact R3]].
    + intros a' Hin. apply in_map_iff in Hin as (a & <- & Hin).
      destruct (R1 a Hin) as [Hc Hs].
      destruct (a_id a =? _) eqn:Hid; [|now split].
      destruct (Hkeep a) as (_ & Kc & Ks).
      assert (existsb (fun a => a_id a =? n) (Store.appointments t) = true)
        as Hwritten
        by (apply existsb_exists; exists a; now split).
      split.
      * apply (existsb_key c_id), Kc;
          [exact Hwritten | now apply (existsb_key c_id)].
      * apply (existsb_key s_id), Ks;
          [exact Hwritten | now apply (existsb_key s_id)].
    + intros s Hin. destruct (R2 s Hin) as [Q1 Q2]. split; [exact Q1|].
      rewrite map_key_map; [exact Q2|].
      intros a. destruct (a_id a =? _); [apply Hkeep | reflexivity].
  - (* UpdateAppointmentPaid *)
    destruct H as (R1 & R2 & R3). unfold refs. store_proj.
    split; [|split; [|exact R3]].
    + intros a' Hin. apply in_map_iff in Hin as (a & <- & Hin).
      destruct (R1 a Hin). now destruct (a_id a =? id).
    + intros s Hin. destruct (R2 s Hin) as [Q1 Q2]. split; [exact Q1|].
      rewrite map_key_map by key_kept. exact Q2.
  - (* InsertServiceSaleItem *)
    match goal with
    | Hs : Store.has_sale _ _ = true |- _ => apply (existsb_key sale_id) in Hs;
        rename Hs into Hsale
    end.
    destruct H as (R1 & R2 & R3). unfold refs. store_proj.
    split; [exact R1 | split; [exact R2|]].
    intros item Hin. apply in_app_iff in Hin as [Hin | [<- | []]];
      [now apply R3 | exact Hsale].
Qed.

(** ** A database in order stays in order *)

Lemma sound_spec (db : Store.Db) :
  sound db = true
  <-> (keys_ok (Store.tables db) (Store.seqs db) = true
       /\ refs (Store.tables db))
      /\ match Store.txn db with
         | Store.Idle => True
         | Store.Open snapshot =>
             keys_ok snapshot (Store.seqs db) = true /\ refs snapshot
         end.
Proof.
  unfold sound. rewrite !andb_true_iff, references_ok_spec.
  destruct (Store.txn db) as [|snapshot];
    rewrite ?andb_true_iff, ?references_ok_spec; tauto.
Qed.

(** One statement: what it writes is in order, and when it fails the
    tables go back to the snapshot, which the sequences are still ahead
    of. *)
Lemma apply_sound {E A} (t : Store.Tables) (q : Store.Sequences)
    (block : Store.Txn)
    (result : E * Store.Sequences + A * Store.Tables * Store.Sequences) :
  sound {| Store.tables := t; Store.seqs := q; Store.txn := block |} = true ->
  match result with
  | inr (_, t', q') => keys_ok t' q' = true /\ seqs_le q q' /\ refs t'
  | inl (_, q') => seqs_le q q'
  end ->
  match result with
  | inr (_, t', q') =>
      sound {| Store.tables := t'; Store.seqs := q'; Store.txn := block |}
  | inl (_, q') =>
      sound {| Store.tables :=
                 Store.rolled_back
                   {| Store.tables := t; Store.seqs := q;
                      Store.txn := block |};
               Store.seqs := q'; Store.txn := Store.Idle |}
  end = true.
Proof.
  rewrite sound_spec. store_proj. intros [[Hk Hr] Hb].
  destruct result as [[e q'] | [[a t'] q']]; rewrite sound_spec; store_proj.
  - intros Hle. split; [|exact I].
    destruct block as [|snapshot]; store_proj.
    + split; [eapply keys_ok_mono; eassumption | exact Hr].
    + split; [eapply keys_ok_mono; [exact Hle | apply Hb] | apply Hb].
  - intros (Hk' & Hle & Hr'). split; [now split|].
    destruct block as [|snapshot]; [exact I|].
    split; [eapply keys_ok_mono; [exact Hle | apply Hb] | apply Hb].
Qed.

Lemma store_exec_sound {A} (text : Store.Stmt A) (db : Store.Db) :
  sound db = true -> sound (snd (Store.exec A text db)) = true.
Proof.
  destruct db as [t q block]. intros Hs.
  destruct text as [c | A d]; cbn [Store.exec].
  - revert Hs. rewrite !sound_spec. store_proj.
    destruct c, block; cbn; tauto.
  - unfold Store.data. store_proj.
    pose proof (apply_sound t q block (Store.apply d t q) Hs) as H.
    pose proof (sound_spec
                  {| Store.tables := t; Store.seqs := q;
                     Store.txn := block |}) as Hspec.
    apply Hspec in Hs as [[Hk Hr] _]. store_proj.
    destruct (Store.apply d t q) as [[e q'] | [[a t'] q']] eqn:E;
      cbn [snd]; apply H.
    + eapply store_apply_error_seqs, E.
    + destruct (store_apply_keys _ _ _ _ _ _ E Hk) as [Hk' Hle].
      pose proof (store_apply_refs _ _ _ _ _ _ E Hr). auto.
Qed.

Lemma crud_exec_sound {A} (d : Crud.Data A) (db : Store.Db) :
  sound db = true -> sound (snd (Crud.exec A d db)) = true.
Proof.
  destruct db as [t q block]. intros Hs. unfold Crud.exec. store_proj.
  pose proof (apply_sound t q block (Crud.apply d t q) Hs) as H.
  pose proof (sound_spec
                {| Store.tables := t; Store.seqs := q;
                   Store.txn := block |}) as Hspec.
  apply Hspec in Hs as [[Hk Hr] _]. store_proj.
  destruct (Crud.apply d t q) as [[e q'] | [[a t'] q']] eqn:E;
    cbn [snd]; apply H.
  - eapply crud_apply_error_seqs, E.
  - destruct (crud_apply_keys _ _ _ _ _ _ E Hk) as [Hk' Hle].
    pose proof (crud_apply_refs _ _ _ _ _ _ E Hr). auto.
Qed.

Section OtherActions.

Variable P : Store.Db -> Prop.

Hypothesis Hsql :
  forall A (d : Store.Data A), preserves P (Store.query (Store.Sql d)).
Hypothesis Hcrud : forall A (d : Crud.Data A), preserves P (Crud.query d).
Hypothesis Hsale :
  forall today customerId items paymentMethod,
    preserves P (createProductSale today customerId items paymentMethod).

(** Every action is built from statements with binds, catches, branches,
    returns and throws. *)
Lemma perform_preserves (zone : TimeZone) (call : Call) (db : Store.Db) :
  P db -> P (perform zone db call).
Proof.
  revert db.
  destruct call; cbn [perform];
    match goal with
    | |- forall db, P db -> P (snd (?m db)) => change (preserves P m)
    end;
    try apply Hsale;
    try apply (deleteEntity_preserves P Hsql);
    try apply (createAppointment_preserves P Hsql);
    unfold getCustomerById, createCustomer, updateCustomer, getServiceById,
      createService, updateService, getProductById, createProduct,
      updateProduct, getAppointmentById, updateAppointment, uninitialized,
      processAppointmentPayment, getSaleById, getDashboardStats;
    repeat first
      [ apply preserves_ret
      | apply preserves_throw
      | apply Hsql
      | apply Hcrud
      | apply preserves_bind; [|intros ?]
      | apply preserves_try_catch; [|intros ?]
      | match goal with
        | |- preserves _ (match ?x with _ => _ end) => destruct x
        | |- preserves _ (let b := _ in _) => cbv zeta
        end ].
Qed.

Lemma history_preserves (zone : TimeZone) (calls : list Call) :
  forall db, P db -> P (history zone calls db).
Proof.
  unfold history. induction calls as [|call calls IH]; intros db H.
  - exact H.
  - cbn [fold_left]. apply IH. now apply perform_preserves.
Qed.

End OtherActions.

(** X9.  A database whose keys and references are in order stays so through
    every history of action calls, in whatever time zone the process runs:
    in each table the keys remain pairwise distinct and behind the table's
    sequence, every appointment keeps an existing customer and service,
    every sale an existing customer and appointment unless the reference is
    NULL, every sale item an existing sale; and the session is handed back
    without a transaction open. *)
Theorem history_keeps_keys_and_references :
  forall (zone : TimeZone) (calls : list Call) (db : Store.Db),
    sound db = true ->
    Store.txn db = Store.Idle ->
    sound (history zone calls db) = true
    /\ Store.txn (history zone calls db) = Store.Idle.
Proof.
  intros zone calls db Hsound Hidle. split.
  - apply (history_preserves (fun db => sound db = true)); [| | |exact Hsound].
    + intros A d db0 H. rewrite store_query_exec. cbn [snd].
      now apply store_exec_sound.
    + intros A d db0 H. rewrite crud_query_exec. cbn [snd].
      now apply crud_exec_sound.
    + intros today customerId items paymentMethod.
      apply createProductSale_preserves.
      * intros A d db0 H. rewrite store_query_exec. cbn [snd].
        now apply store_exec_sound.
      * intros c db0 H. rewrite store_query_exec. cbn [snd].
        now apply store_exec_sound.
  - apply (history_preserves (fun db => Store.txn db = Store.Idle));
      [| | |exact Hidle].
    + intros A d [t q block] H. cbn in H. subst block.
      rewrite store_query_data. store_proj.
      now destruct (Store.apply d t q) as [[e q'] | [[a t'] q']].
    + intros A d [t q block] H. cbn in H. subst block.
      rewrite crud_query_data. store_proj.
      now destruct (Crud.apply d t q) as [[e q'] | [[a t'] q']].
    + intros today customerId items paymentMethod db0 _.
      apply createProductSale_leaves_idle.
Qed.

Lemma history_keeps_keys_and_references_witness :
  let calls :=
    [CreateCustomer {| nc_name := "Mehmet Kaya"; nc_phone := "";
                       nc_email := "mehmet@example.com" |};
     CreateAppointment walk_in;
     CreateProductSale "2025-03-28" 1 [{| productId := 1; quantity := 3 |}]
       card;
     UpdateAppointment 1
       {| ac_customer_id := Some 2; ac_service_id := None; ac_date := None;
          ac_time := Some "11:30"; ac_duration := None; ac_status := None;
          ac_notes := None; ac_payment_status := None;
          ac_payment_method := None |};
     DeleteEntity CustomerEntity 1;
     ProcessAppointmentPayment "2025-03-29" 1 cash] in
  sound (history istanbul calls shop) = true
  /\ Store.txn (history istanbul calls shop) = Store.Idle.
Proof.
  intros calls.
  apply (history_keeps_keys_and_references istanbul calls shop); reflexivity.
Defined.

(** ** Defaults of the create actions *)



(** ** Creating a row and reading it back *)

Lemma sound_keys (db : Store.Db) :
  sound db = true -> keys_ok (Store.tables db) (Store.seqs db) = true.
Proof. intros H. apply sound_spec in H. tauto. Qed.

(** The next key of a table is not in the table. *)
Lemma filter_key_new {A} (key : A -> Z) (l : list A) (next : Z) (row : A) :
  keyed (map key l) next = true ->
  key row = next ->
  List.filter (fun a => key a =? next) (l ++ [row]) = [row].
Proof.
  unfold keyed. rewrite andb_true_iff. intros [_ Hlt] Hrow.
  rewrite List.filter_app. cbn [List.filter]. rewrite Hrow, Z.eqb_refl.
  rewrite filter_existsb_false; [reflexivity|].
  apply not_true_is_false. intros Hex.
  apply existsb_exists in Hex as (a & Hin & Ha).
  rewrite forallb_forall in Hlt. specialize (Hlt (key a) (in_map key l a Hin)).
  lia.
Qed.








(** ** Reading a row by its key *)




(** ** The update actions *)

Lemma try_catch_ret_returns {W A} (m : Async W A) (fallback : A) (w : W) :
  exists result w',
    try_catch m (fun _ => ret fallback) w = (Returned result, w').
Proof.
  unfold try_catch, ret. destruct (m w) as [[a | e] w']; eauto.
Qed.

(** X13.  Updating a customer, service or product whose id matches no row
    returns a [{success: false, message}] object and leaves the database as
    it was, in every state of the session; and whatever the id and the
    changes, an update action never throws. *)
Theorem update_missing_id_changes_nothing :
  forall (id : Z) (db : Store.Db),
    (has_row CustomerEntity (Store.tables db) id = false ->
     forall changes, exists text,
       updateCustomer id changes db
       = (Returned (inl {| success := false; message := text |}), db))
    /\ (has_row ServiceEntity (Store.tables db) id = false ->
        forall changes, exists text,
          updateService id changes db
          = (Returned (inl {| success := false; message := text |}), db))
    /\ (has_row ProductEntity (Store.tables db) id = false ->
        forall changes, exists text,
          updateProduct id changes db
          = (Returned (inl {| success := false; message := text |}), db))
    /\ (forall changes, exists result db',
          updateCustomer id changes db = (Returned result, db'))
    /\ (forall changes, exists result db',
          updateService id changes db = (Returned result, db'))
    /\ (forall changes, exists result db',
          updateProduct id changes db = (Returned result, db')).
Proof.
  intros id [t q x].
  split; [|split; [|split; [|split; [|split]]]];
    try (intros changes; apply try_catch_ret_returns);
    intros Hmissing changes; apply delete_select_empty in Hmissing;
    cbn in Hmissing;
    unfold updateCustomer, updateService, updateProduct, try_catch, bind;
    await_query; rewrite Hmissing; cbn; eauto.
Qed.

Lemma update_missing_id_changes_nothing_witness :
  exists text,
    updateCustomer 7
      {| cc_name := Some "Mehmet Kaya"; cc_phone := None; cc_email := None |}
      shop
    = (Returned (inl {| success := false; message := text |}), shop).
Proof.
  apply (proj1 (update_missing_id_changes_nothing 7 shop)). reflexivity.
Defined.








(** The same customer read in a process at UTC: the stored day. *)
Example getCustomerById_at_utc :
  fst (getCustomerById utc 2 shop) = Returned (Some ayse).
Proof. reflexivity. Qed.





(** ** Deleting a row that exists *)

Lemma existsb_filter_cons {A} (f : A -> bool) (l : list A) :
  existsb f l = true -> exists a rest, List.filter f l = a :: rest.
Proof.
  intros H. destruct (List.filter f l) as [|a rest] eqn:E; [|eauto].
  apply existsb_exists in H as (a & Hin & Ha).
  assert (In a (List.filter f l)) as Hin' by (apply filter_In; now split).
  rewrite E in Hin'. destruct Hin'.
Qed.

Lemma existsb_key_filter_out {A} (key : A -> Z) (id : Z) (l : list A) :
  existsb (fun a => key a =? id)
    (List.filter (fun a => negb (key a =? id)) l) = false.
Proof.
  induction l as [|a l IH]; [reflexivity|]. cbn [List.filter].
  destruct (key a =? id) eqn:E; cbn [negb existsb]; [exact IH|].
  now rewrite E, IH.
Qed.

Lemma existsb_key_filter_other {A} (key : A -> Z) (id other : Z) (l : list A) :
  other <> id ->
  existsb (fun a => key a =? other)
    (List.filter (fun a => negb (key a =? id)) l)
  = existsb (fun a => key a =? other) l.
Proof.
  intros Hne. induction l as [|a l IH]; [reflexivity|]. cbn [List.filter].
  destruct (key a =? id) eqn:E; cbn [negb existsb]; rewrite IH.
  - destruct (key a =? other) eqn:E'; [lia | reflexivity].
  - reflexivity.
Qed.

Lemma delete_missing_row (entity : Entity) (id : Z) (db : Store.Db) :
  has_row entity (Store.tables db) id = false ->
  exists text,
    deleteEntity entity id db
    = (Returned {| success := false; message := text |}, db).
Proof.
  destruct db as [t q x]. intros Hmissing.
  apply delete_select_empty in Hmissing. cbn in Hmissing.
  destruct entity;
    unfold deleteEntity, deleteCustomer, deleteService, deleteAppointment,
      deleteProduct, try_catch, bind;
    await_query; rewrite Hmissing; cbn; eauto.
Qed.

Lemma forget_customer_forgets id s :
  sale_customer_id (Store.forget_customer id s) <> Some id.
Proof.
  cbn. destruct (sale_customer_id s) as [c|]; [|discriminate].
  destruct (c =? id) eqn:E; [discriminate|]. intros [= ->]. lia.
Qed.

Lemma forget_appointments_forgets gone id s :
  In id gone ->
  sale_appointment_id (Store.forget_appointments gone s) <> Some id.
Proof.
  intros Hin. cbn. destruct (sale_appointment_id s) as [a|]; [|discriminate].
  destruct (existsb (Z.eqb a) gone) eqn:E; [discriminate|]. intros [= ->].
  assert (existsb (Z.eqb id) gone = true) as Hyes.
  { apply existsb_exists. exists id. split; [exact Hin | apply Z.eqb_refl]. }
  congruence.
Qed.

(** X17.  Deleting a customer, service, appointment or product that exists
    succeeds and removes exactly that key from its table.  With a customer or
    a service go the appointments that point to it; sales are never deleted:
    the sales of a deleted customer or appointment stay, with that reference
    set to NULL, and the sale items are untouched.  A second delete of the
    same id finds nothing and fails softly. *)
Theorem delete_existing_row :
  forall (entity : Entity) (id : Z) (db : Store.Db),
    has_row entity (Store.tables db) id = true ->
    exists text db',
      deleteEntity entity id db
      = (Returned {| success := true; message := text |}, db')
      /\ has_row entity (Store.tables db') id = false
      /\ (forall other, other <> id ->
            has_row entity (Store.tables db') other
            = has_row entity (Store.tables db) other)
      /\ unreferenced entity id (Store.tables db')
      /\ map sale_id (Store.sales (Store.tables db'))
         = map sale_id (Store.sales (Store.tables db))
      /\ Store.sale_items (Store.tables db')
         = Store.sale_items (Store.tables db)
      /\ (exists text',
            deleteEntity entity id db'
            = (Returned {| success := false; message := text' |}, db')).
Proof.
  intros entity id [t q block] Hrow. cbn [Store.tables Store.txn] in *.
  assert (exists text db',
             deleteEntity entity id
               {| Store.tables := t; Store.seqs := q; Store.txn := block |}
             = (Returned {| success := true; message := text |}, db')
             /\ has_row entity (Store.tables db') id = false
             /\ (forall other, other <> id ->
                   has_row entity (Store.tables db') other
                   = has_row entity t other)
             /\ unreferenced entity id (Store.tables db')
             /\ map sale_id (Store.sales (Store.tables db'))
                = map sale_id (Store.sales t)
             /\ Store.sale_items (Store.tables db') = Store.sale_items t)
    as (text & db' & Hrun & Hgone & Hframe & Hrefs & Hsales & Hitems).
  { destruct entity; cbn [has_row] in Hrow;
      destruct (existsb_filter_cons _ _ Hrow) as (found & rest & Hrows);
      unfold deleteEntity, deleteCustomer, deleteService, deleteAppointment,
        deleteProduct, try_catch, bind;
      await_query; rewrite Hrows; cbn [length Nat.eqb];
      await_query; cbn [ret];
      (eexists; eexists; split; [reflexivity|]);
      unfold unreferenced, Store.delete_appointments; cbn [has_row];
      store_proj.
    - (* customer *)
      split; [apply (existsb_key_filter_out c_id)|].
      split; [intros other Hne; now apply (existsb_key_filter_other c_id)|].
      split; [split|].
      + intros a Hin. apply filter_In in Hin as [_ Hlive'].
        now apply negb_true_iff, Z.eqb_neq in Hlive'.
      + intros s Hin. apply in_map_iff in Hin as (s0 & <- & _).
        apply forget_customer_forgets.
      + split; [|reflexivity]. now rewrite !map_key_map by reflexivity.
    - (* service *)
      split; [apply (existsb_key_filter_out s_id)|].
      split; [intros other Hne; now apply (existsb_key_filter_other s_id)|].
      split; [split|].
      + intros a Hin. apply filter_In in Hin as [_ Hlive'].
        now apply negb_true_iff, Z.eqb_neq in Hlive'.
      + intros s _. exact I.
      + split; [|reflexivity]. now rewrite map_key_map by reflexivity.
    - (* appointment *)
      split; [apply (existsb_key_filter_out a_id)|].
      split; [intros other Hne; now apply (existsb_key_filter_other a_id)|].
      split; [split|].
      + intros a Hin. apply filter_In in Hin as [_ Hlive'].
        now apply negb_true_iff, Z.eqb_neq in Hlive'.
      + intros s Hin. apply in_map_iff in Hin as (s0 & <- & _).
        apply forget_appointments_forgets. rewrite Hrows.
        left. assert (In found (found :: rest)) as Hin by now left.
        rewrite <- Hrows in Hin. apply filter_In in Hin as [_ Hid]. lia.
      + split; [|reflexivity]. now rewrite map_key_map by reflexivity.
    - (* product *)
      split; [apply (existsb_key_filter_out p_id)|].
      split; [intros other Hne; now apply (existsb_key_filter_other p_id)|].
      split; [split; intros; exact I|]. split; reflexivity. }
  exists text, db'. repeat (split; [assumption|]).
  now apply delete_missing_row.
Qed.

Lemma delete_existing_row_witness :
  exists text db',
    deleteEntity CustomerEntity 1 shop
    = (Returned {| success := true; message := text |}, db')
    /\ has_row CustomerEntity (Store.tables db') 1 = false
    /\ (forall other, other <> 1 ->
          has_row CustomerEntity (Store.tables db') other
          = has_row CustomerEntity (Store.tables shop) other)
    /\ unreferenced CustomerEntity 1 (Store.tables db')
    /\ map sale_id (Store.sales (Store.tables db'))
       = map sale_id (Store.sales (Store.tables shop))
    /\ Store.sale_items (Store.tables db')
       = Store.sale_items (Store.tables shop)
    /\ (exists text',
          deleteEntity CustomerEntity 1 db'
          = (Returned {| success := false; message := text' |}, db')).
Proof.
  apply (delete_existing_row CustomerEntity 1 shop); reflexivity.
Defined.

(** ** Paying for an appointment *)





(** ** Reading a sale back *)

Lemma filter_map_key {A} (key : A -> Z) (f : A -> A) (id : Z) (l : list A) :
  (forall a, key (f a) = key a) ->
  List.filter (fun a => key a =? id) (map f l)
  = map f (List.filter (fun a => key a =? id) l).
Proof.
  intros Hkey. induction l as [|a l IH]; [reflexivity|].
  cbn [map List.filter]. rewrite Hkey.
  destruct (key a =? id); cbn [map]; now rewrite IH.
Qed.






(** ** The dashboard *)

Lemma tally_closed (c : string -> Z) (g : list string) :
  forall init,
    fold_left tally (map (fun s => (s, c s)) g) init
    = {| ta_count := ta_count init + fold_right (fun s sum => c s + sum) 0 g;
         ta_pending :=
           if existsb (fun s => String.eqb s "beklemede") g
           then c "beklemede" else ta_pending init;
         ta_confirmed :=
           if existsb (fun s => String.eqb s "onaylandı") g
           then c "onaylandı" else ta_confirmed init |}.
Proof.
  induction g as [|s g IH]; intros init.
  - destruct init. cbn. f_equal. lia.
  - cbn [map fold_left fold_right existsb]. rewrite IH.
    cbn [tally ta_count ta_pending ta_confirmed]. f_equal.
    + lia.
    + destruct (String.eqb s "beklemede") eqn:E; cbn [orb]; [|reflexivity].
      apply String.eqb_eq in E. subst s.
      match goal with |- (if ?b then _ else _) = _ => now destruct b end.
    + destruct (String.eqb s "onaylandı") eqn:E; cbn [orb]; [|reflexivity].
      apply String.eqb_eq in E. subst s.
      match goal with |- (if ?b then _ else _) = _ => now destruct b end.
Qed.

Lemma groups_in (l : list string) (s : string) :
  In s l -> In s (Crud.groups l).
Proof.
  induction l as [|x l IH]; [intros []|]. cbn [Crud.groups].
  intros [-> | Hin]; [now left|].
  destruct (String.eqb s x) eqn:E.
  - apply String.eqb_eq in E. now left.
  - right. apply filter_In. split; [now apply IH | cbn; now rewrite E].
Qed.

Lemma groups_NoDup (l : list string) : List.NoDup (Crud.groups l).
Proof.
  induction l as [|x l IH]; cbn [Crud.groups]; constructor.
  - intros Hin. apply filter_In in Hin as [_ Hne]. cbn in Hne.
    now rewrite String.eqb_refl in Hne.
  - now apply List.NoDup_filter.
Qed.

Lemma sum_of_zeros {A} (g : list A) :
  fold_right (fun _ sum => 0 + sum) 0 g = 0.
Proof. induction g as [|s g IH]; cbn; [reflexivity | exact IH]. Qed.

Lemma sum_of_one_hit (g : list string) (x : string) :
  List.NoDup g -> In x g ->
  fold_right (fun s sum => (if String.eqb x s then 1 else 0) + sum) 0 g = 1.
Proof.
  induction g as [|s g IH]; [intros _ []|].
  intros Hnd Hin. apply List.NoDup_cons_iff in Hnd as [Hnot Hnd].
  cbn [fold_right]. destruct (String.eqb x s) eqn:E.
  - apply String.eqb_eq in E. subst s.
    assert (fold_right
              (fun s sum => (if String.eqb x s then 1 else 0) + sum) 0 g = 0)
      as ->; [|reflexivity].
    clear IH Hin Hnd. induction g as [|s g IH]; [reflexivity|].
    cbn [fold_right]. destruct (String.eqb x s) eqn:E.
    + apply String.eqb_eq in E. subst s. destruct Hnot. now left.
    + rewrite IH; [reflexivity|]. intros Hin. apply Hnot. now right.
  - destruct Hin as [-> | Hin]; [now rewrite String.eqb_refl in E|].
    now rewrite IH.
Qed.

Lemma sum_of_sums {A} (f h : A -> Z) (g : list A) :
  fold_right (fun s sum => (f s + h s) + sum) 0 g
  = fold_right (fun s sum => f s + sum) 0 g
    + fold_right (fun s sum => h s + sum) 0 g.
Proof. induction g as [|s g IH]; cbn [fold_right]; [reflexivity | lia]. Qed.

Lemma sum_ext {A} (f h : A -> Z) (g : list A) :
  (forall s, f s = h s) ->
  fold_right (fun s sum => f s + sum) 0 g
  = fold_right (fun s sum => h s + sum) 0 g.
Proof.
  intros H. induction g as [|s g IH]; cbn [fold_right]; [reflexivity|].
  now rewrite H, IH.
Qed.

(** The counts of the groups add up to the number of rows. *)
Lemma group_counts_sum (rows : list Appointment) :
  forall g,
    List.NoDup g ->
    (forall a, In a rows -> In (a_status a) g) ->
    fold_right
      (fun s sum =>
         Crud.count_rows (fun a => String.eqb (a_status a) s) rows + sum) 0 g
    = Z.of_nat (length rows).
Proof.
  unfold Crud.count_rows.
  induction rows as [|a rows IH]; intros g Hnd Hin.
  - cbn [List.filter length]. apply sum_of_zeros.
  - transitivity
      (fold_right
         (fun s sum =>
            ((if String.eqb (a_status a) s then 1 else 0)
             + Z.of_nat
                 (length
                    (List.filter (fun a => String.eqb (a_status a) s) rows)))
            + sum) 0 g).
    { apply sum_ext. intros s. cbn [List.filter].
      destruct (String.eqb (a_status a) s); cbn [length]; lia. }
    rewrite (sum_of_sums
               (fun s => if String.eqb (a_status a) s then 1 else 0)).
    rewrite sum_of_one_hit by (try exact Hnd; apply Hin; now left).
    rewrite IH by (try exact Hnd; intros b Hb; apply Hin; now right).
    cbn [length]. lia.
Qed.

Lemma count_rows_absent (rows : list Appointment) (s : string) :
  ~ In s (map a_status rows) ->
  Crud.count_rows (fun a => String.eqb (a_status a) s) rows = 0.
Proof.
  intros Hnot. unfold Crud.count_rows.
  rewrite filter_existsb_false; [reflexivity|].
  apply not_true_is_false. intros Hex.
  apply existsb_exists in Hex as (a & Hin & Ha). apply String.eqb_eq in Ha.
  apply Hnot. rewrite <- Ha. now apply in_map.
Qed.

Lemma filter_true_all {R} (rows : list R) :
  List.filter (fun _ => true) rows = rows.
Proof. induction rows as [|a rows IH]; cbn; [reflexivity | now rewrite IH]. Qed.

Lemma count_rows_disjoint {R} (p r : R -> bool) (rows : list R) :
  (forall a, p a = true -> r a = false) ->
  Crud.count_rows p rows + Crud.count_rows r rows <= Z.of_nat (length rows).
Proof.
  intros Hdis. unfold Crud.count_rows.
  induction rows as [|a rows IH]; [cbn; lia|].
  cbn [List.filter length]. specialize (Hdis a).
  destruct (p a); [rewrite Hdis by reflexivity|destruct (r a)];
    cbn [length]; lia.
Qed.

(** X20.  [getDashboardStats], in every state of the session, changes
    nothing and reports: as today's count the
    number of appointments dated today, as pending and confirmed the number
    of those with status "beklemede" and "onaylandı" (together at most the
    count), the numbers of all appointments and of all customers, as new
    customers those with a last visit on or after the given day (at most all
    customers), and as weekly revenue the constant 1250.00 whatever the
    sales table holds. *)
Theorem getDashboardStats_counts :
  forall (today oneWeekAgoStr : string) (db : Store.Db),
    let todays :=
      List.filter (fun a => String.eqb (a_date a) today)
        (Store.appointments (Store.tables db)) in
    exists stats,
      getDashboardStats today oneWeekAgoStr db = (Returned stats, db)
      /\ ta_count (todayAppointments stats) = Z.of_nat (length todays)
      /\ ta_pending (todayAppointments stats)
         = Crud.count_rows (fun a => String.eqb (a_status a) "beklemede")
             todays
      /\ ta_confirmed (todayAppointments stats)
         = Crud.count_rows (fun a => String.eqb (a_status a) "onaylandı")
             todays
      /\ ta_pending (todayAppointments stats)
         + ta_confirmed (todayAppointments stats)
         <= ta_count (todayAppointments stats)
      /\ totalAppointments stats
         = Z.of_nat (length (Store.appointments (Store.tables db)))
      /\ totalCustomers stats
         = Z.of_nat (length (Store.customers (Store.tables db)))
      /\ newCustomers stats
         = Crud.count_rows
             (fun c => match c_last_visit c with
                       | Some day => String.leb oneWeekAgoStr day
                       | None => false
                       end)
             (Store.customers (Store.tables db))
      /\ 0 <= newCustomers stats <= totalCustomers stats
      /\ weeklyRevenue stats = 125000.
Proof.
  intros today oneWeekAgoStr [t q block] todays.
  cbn [Store.tables Store.txn] in *.
  unfold getDashboardStats, try_catch, bind.
  rewrite crud_query_data. store_proj. cbn [Crud.apply].
  rewrite crud_query_data. store_proj. cbn [Crud.apply].
  rewrite crud_query_data. store_proj. cbn [Crud.apply].
  rewrite crud_query_data. store_proj. cbn [Crud.apply ret].
  fold todays.
  rewrite (tally_closed
             (fun status =>
                Crud.count_rows (fun a => String.eqb (a_status a) status)
                  todays)).
  cbn [ta_count ta_pending ta_confirmed].
  rewrite (group_counts_sum todays)
    by (try apply groups_NoDup; intros a Hin;
        now apply groups_in, in_map).
  eexists. split; [reflexivity|].
  cbn [todayAppointments totalAppointments totalCustomers newCustomers
       weeklyRevenue ta_count ta_pending ta_confirmed first_count].
  assert (forall s,
             (if existsb (fun x => String.eqb x s)
                   (Crud.groups (map a_status todays))
              then Crud.count_rows (fun a => String.eqb (a_status a) s) todays
              else 0)
             = Crud.count_rows (fun a => String.eqb (a_status a) s) todays)
    as Hcount.
  { intros s. destruct (existsb _ _) eqn:E; [reflexivity|].
    symmetry. apply count_rows_absent. intros Hin.
    apply groups_in in Hin.
    assert (existsb (fun x => String.eqb x s)
              (Crud.groups (map a_status todays)) = true) as Hyes
      by (apply existsb_exists; exists s; split;
          [exact Hin | apply String.eqb_refl]).
    congruence. }
  rewrite !Hcount.
  split; [lia|]. split; [reflexivity|]. split; [reflexivity|].
  split.
  { etransitivity; [apply count_rows_disjoint|lia].
    intros a Ha. apply String.eqb_eq in Ha. now rewrite Ha. }
  split; [unfold Crud.count_rows; now rewrite filter_true_all|].
  split; [unfold Crud.count_rows; now rewrite filter_true_all|].
  split; [reflexivity|]. split; [|reflexivity].
  unfold Crud.count_rows. rewrite filter_true_all.
  match goal with
  | |- context [List.filter ?p ?l] =>
      pose proof (List.filter_length_le p l)
  end.
  lia.
Qed.

Lemma getDashboardStats_counts_witness :
  let booked := snd (createAppointment walk_in shop) in
  exists stats,
    getDashboardStats "2025-03-28" "2025-03-21" booked
    = (Returned stats, booked)
    /\ ta_count (todayAppointments stats) = 1
    /\ ta_confirmed (todayAppointments stats) = 1
    /\ totalCustomers stats = 2
    /\ weeklyRevenue stats = 125000.
Proof.
  intros booked.
  destruct (getDashboardStats_counts "2025-03-28" "2025-03-21" booked)
    as (stats & Hrun & Hcount & _ & Hconfirmed & _ & _ & Hcustomers & _ & _
        & Hrevenue).
  exists stats. split; [exact Hrun|].
  rewrite Hcount, Hconfirmed, Hcustomers, Hrevenue.
  repeat split; reflexivity.
Defined.

(** ** Reading an appointment back *)

(** X21.  After [createAppointment] succeeds on a database in order,
    [getAppointmentById] of the new key returns the row that was inserted,
    with the names of the customer and the service it was booked for, on the
    fallback path as well; as in the source, [getAppointmentById] shows
    "Unknown Customer" or "Unknown Service" for a name that is empty. *)
Theorem getAppointmentById_after_createAppointment :
  forall (appointment : NewAppointment) (db : Store.Db)
         (created : AppointmentView) (db' : Store.Db),
    sound db = true ->
    createAppointment appointment db = (Returned created, db') ->
    getAppointmentById (a_id (row created)) db'
    = (Returned
         (Some {| row := row created;
                  customer_name :=
                    or_text (customer_name created) "Unknown Customer";
                  service_name :=
                    or_text (service_name created) "Unknown Service" |}),
       db').
Proof.
  intros appointment [[cs ss aps ps sls its] q block] created db' Hsound.
  apply sound_keys in Hsound. unfold keys_ok in Hsound.
  rewrite !andb_true_iff in Hsound.
  destruct Hsound as (((((_ & _) & Hk) & _) & _) & _).
  cbn [Store.tables Store.seqs Store.appointments] in Hk.
  unfold createAppointment, try_catch, bind.
  await_query. await_query.
  destruct (List.filter _ cs) as [|found cs'] eqn:Hc;
    destruct (List.filter _ ss) as [|sfound ss'] eqn:Hs.
  all: repeat first
         [ progress cbn [firstn ret length Nat.ltb Nat.leb]
         | match goal with
           | |- context [firstn 1 ?l] => is_var l; destruct l
           | |- context [Store.query (Store.Sql Store.SelectCustomerLimit1)] =>
               await_query
           | |- context [Store.query (Store.Sql Store.SelectServiceLimit1)] =>
               await_query
           end ].
  all: appointment_inserted.
  all: destruct (Store.has_customer _ _ && Store.has_service _ _) eqn:Hfk;
       [|discriminate].
  all: cbn [length Nat.ltb Nat.leb ret].
  all: try (await_query;
            (destruct (Column.date (date appointment)); cbn [negb];
             [|discriminate]);
            match goal with
            | |- context [if existsb ?f ?l then inl _ else _] =>
                destruct (existsb f l); [discriminate|]
            end; cbn [ret]).
  all: unfold Store.has_customer, Store.has_service in Hfk;
       cbn [existsb Store.customers Store.services] in Hfk;
       rewrite ?andb_false_r in Hfk; try discriminate.
  all: intros [= <- <-]; cbn [row customer_name service_name a_id];
       unfold getAppointmentById, try_catch, bind;
       rewrite crud_query_data; store_proj; cbn [Crud.apply];
       unfold Crud.joined; store_proj;
       match goal with
       | |- context [List.filter _ (?old ++ [?new])] =>
           rewrite (filter_key_new a_id old _ new Hk eq_refl)
       end;
       cbn [flat_map a_customer_id a_service_id app];
       rewrite ?(filter_map_key c_id)
         by (intros a; now destruct (c_id a =? _));
       rewrite ?Hc, ?Hs; cbn [List.filter];
       rewrite ?Z.eqb_refl;
       cbn [map Crud.left_join flat_map app option_map
            Crud.na_row Crud.na_customer_name Crud.na_service_name name_or];
       repeat match goal with
              | |- context [c_name (if ?b then _ else _)] => destruct b
              end;
       reflexivity.
Qed.

Lemma getAppointmentById_after_createAppointment_witness :
  let booked := createAppointment walk_in shop in
  exists created,
    fst booked = Returned created
    /\ getAppointmentById 1 (snd booked)
       = (Returned (Some {| row := row created;
                            customer_name := "Ahmet Yılmaz";
                            service_name := "Saç Kesimi" |}), snd booked).
Proof.
  intros booked.
  pose proof (getAppointmentById_after_createAppointment walk_in shop _ _
                eq_refl eq_refl) as Hread.
  eexists. split; [reflexivity | exact Hread].
Defined.

(** ** Starting the application *)

(** A column check and its ALTER TABLE, when the table is there and the
    columns to add are not. *)
Lemma guarded_alter_runs {B} (table column : string) (columns : list string)
    (rest : Async Catalog.t B) (db : Catalog.t) (old : gset string) :
  Catalog.tables db !! table = Some old ->
  (column ∉ old -> Forall (fun c => c ∉ old) columns) ->
  exists journal',
    bind (Catalog.query (Catalog.SelectColumn table column))
      (fun rows =>
         bind (if Catalog.empty rows
               then Catalog.query (Catalog.AlterTableAddColumns table columns)
               else ret [])
           (fun _ => rest)) db
    = rest {| Catalog.tables :=
                if bool_decide (column ∈ old) then Catalog.tables db
                else <[table := old ∪ list_to_set columns]> (Catalog.tables db);
              Catalog.keys := Catalog.keys db;
              Catalog.functions := Catalog.functions db;
              Catalog.journal := journal' |}.
Proof.
  intros Hold Hnew. unfold bind at 1. rewrite catalog_query_exec.
  cbn [Catalog.apply Catalog.keys_after]. unfold Catalog.has_column at 1. rewrite Hold.
  destruct (bool_decide (column ∈ old)) eqn:E;
    cbn [Catalog.empty length Nat.eqb]; unfold bind.
  - cbn [ret]. eauto.
  - rewrite catalog_query_exec.
    cbn [Catalog.apply Catalog.keys_after Catalog.tables Catalog.keys
         Catalog.functions Catalog.journal].
    rewrite Hold.
    assert (existsb
              (Catalog.has_column
                 {| Catalog.tables := Catalog.tables db;
                    Catalog.keys := Catalog.keys db;
              Catalog.functions := Catalog.functions db;
                    Catalog.journal :=
                      Catalog.journal db
                      ++ [Catalog.SelectColumn table column] |} table)
              columns = false) as ->.
    { apply bool_decide_eq_false in E. specialize (Hnew E).
      induction Hnew as [|c cs Hc _ IH]; [reflexivity|].
      cbn [existsb]. rewrite IH, orb_false_r.
      unfold Catalog.has_column. cbn [Catalog.tables]. rewrite Hold.
      now apply bool_decide_eq_false. }
    eauto.
Qed.

(** A table check whose CREATE TABLE is skipped. *)
Lemma guarded_create_skipped {B} (table : string) (create : Catalog.Sql)
    (rest : Async Catalog.t B) (db : Catalog.t) (old : gset string) :
  Catalog.tables db !! table = Some old ->
  exists journal',
    bind (Catalog.query (Catalog.SelectTable table))
      (fun rows =>
         bind (if Catalog.empty rows then Catalog.query create else ret [])
           (fun _ => rest)) db
    = rest {| Catalog.tables := Catalog.tables db;
              Catalog.keys := Catalog.keys db;
              Catalog.functions := Catalog.functions db;
              Catalog.journal := journal' |}.
Proof.
  intros Hold. unfold bind at 1. rewrite catalog_query_exec.
  cbn [Catalog.apply Catalog.keys_after]. unfold Catalog.has_table at 1. rewrite Hold.
  cbn [Catalog.empty length Nat.eqb]. unfold bind. cbn [ret]. eauto.
Qed.

Lemma bind_assoc {W A B C} (m : Async W A) (k : A -> Async W B)
    (h : B -> Async W C) (w : W) :
  bind (bind m k) h w = bind m (fun a => bind (k a) h) w.
Proof. unfold bind. now destruct (m w) as [[a | e] w']. Qed.

(** The checks of [sale_items], when the table is there. *)
Lemma guarded_sale_items_runs {B} (rest : Async Catalog.t B) (db : Catalog.t)
    (old : gset string) :
  Catalog.tables db !! "sale_items" = Some old ->
  ("item_id" ∉ old ->
   Forall (fun c => c ∉ old) ["item_id"; "item_type"; "name"; "quantity"]) ->
  exists tables' journal',
    bind (Catalog.query (Catalog.SelectTable "sale_items"))
      (fun rows =>
         bind (if Catalog.empty rows
               then Catalog.query Catalog.create_sale_items
               else
                 bind (Catalog.query
                         (Catalog.SelectColumn "sale_items" "item_id"))
                   (fun itemIdExists =>
                      if Catalog.empty itemIdExists
                      then Catalog.query
                             (Catalog.AlterTableAddColumns "sale_items"
                                ["item_id"; "item_type"; "name"; "quantity"])
                      else ret []))
           (fun _ => rest)) db
    = rest {| Catalog.tables := tables';
              Catalog.keys := Catalog.keys db;
              Catalog.functions := Catalog.functions db;
              Catalog.journal := journal' |}.
Proof.
  intros Hold Hnew. unfold bind at 1. rewrite catalog_query_exec.
  cbn [Catalog.apply Catalog.keys_after]. unfold Catalog.has_table at 1. rewrite Hold.
  cbn [Catalog.empty length Nat.eqb]. rewrite bind_assoc.
  destruct (guarded_alter_runs "sale_items" "item_id"
              ["item_id"; "item_type"; "name"; "quantity"] rest
              {| Catalog.tables := Catalog.tables db;
                 Catalog.keys := Catalog.keys db;
              Catalog.functions := Catalog.functions db;
                 Catalog.journal :=
                   Catalog.journal db
                   ++ [Catalog.SelectTable "sale_items"] |}
              old Hold Hnew) as [journal' Hrun].
  rewrite Hrun. cbn [Catalog.keys Catalog.functions]. eauto.
Qed.

Lemma initialization_additive : additive Catalog.initialization.
Proof.
  unfold Catalog.initialization, Catalog.create_products,
    Catalog.create_sales, Catalog.create_sale_items.
  repeat additive_step.
Qed.

Lemma migration_additive : additive Catalog.migration.
Proof. unfold Catalog.migration. repeat additive_step. Qed.

(** After [initDatabase] the migrator goes through, unless [sale_items] is
    an old table that lacks [item_id] and has one of the columns that are
    added along with it. *)
Lemma migration_after_initialization (db : Catalog.t) :
  Catalog.referable db = true ->
  (Catalog.has_table db "sale_items" = true ->
   Catalog.has_column db "sale_items" "item_id" = false ->
   Catalog.has_column db "sale_items" "item_type" = false
   /\ Catalog.has_column db "sale_items" "name" = false
   /\ Catalog.has_column db "sale_items" "quantity" = false) ->
  exists db',
    Catalog.migration (snd (Catalog.initialization db)) = (Returned tt, db').
Proof.
  intros Href Hitems. rewrite (initialization_closed db Href). cbn [snd].
  destruct (initialized_lookup (Catalog.tables db)) as [Hin _].
  pose proof (Hin "appointments" Catalog.appointments_columns
                ltac:(right; right; left; reflexivity)) as Happ.
  pose proof (Hin "products" Catalog.products_columns
                ltac:(right; right; right; left; reflexivity)) as Hpro.
  pose proof (Hin "sales" Catalog.sales_columns
                ltac:(right; right; right; right; left; reflexivity)) as Hsal.
  pose proof (Hin "sale_items" Catalog.sale_items_columns
                ltac:(do 5 right; left; reflexivity)) as Hite.
  clear Hin.
  set (m := initialized (Catalog.tables db)) in *.
  set (A := default (list_to_set Catalog.appointments_columns)
              (Catalog.tables db !! "appointments")) in *.
  set (I := default (list_to_set Catalog.sale_items_columns)
              (Catalog.tables db !! "sale_items")) in *.
  assert ("item_id" ∉ I ->
          Forall (fun c => c ∉ I) ["item_id"; "item_type"; "name"; "quantity"])
    as HI.
  { subst I. unfold Catalog.has_table, Catalog.has_column in Hitems.
    destruct (Catalog.tables db !! "sale_items") as [old|]; cbn [default].
    - intros Hno.
      destruct Hitems as (H1 & H2 & H3);
        [reflexivity | now apply bool_decide_eq_false|].
      apply bool_decide_eq_false in H1, H2, H3.
      repeat constructor; assumption.
    - intros Hno. exfalso. apply Hno. vm_compute. set_solver. }
  assert (forall (old : gset string) (column : string),
             column ∉ old -> Forall (fun c => c ∉ old) [column]) as Hone
    by (intros old column Hno; repeat constructor; exact Hno).
  unfold Catalog.migration.
  match goal with
  | |- exists _, bind _ (fun _ => bind _ (fun _ => ?rest)) ?d = _ =>
      destruct (guarded_alter_runs "appointments" "payment_status"
                  ["payment_status"] rest d A Happ (Hone A _)) as [j1 ->]
  end.
  cbn [Catalog.tables Catalog.keys Catalog.functions].
  set (m1 := if bool_decide ("payment_status" ∈ A) then m
             else <["appointments" := A ∪ list_to_set ["payment_status"]]> m).
  assert (exists A1, m1 !! "appointments" = Some A1) as [A1 Happ1].
  { subst m1. destruct (bool_decide ("payment_status" ∈ A)); [eauto|].
    rewrite lookup_insert_eq. eauto. }
  assert (forall t, t <> "appointments" -> m1 !! t = m !! t) as Hframe1.
  { intros t Hne. subst m1.
    destruct (bool_decide ("payment_status" ∈ A)); [reflexivity|].
    now rewrite lookup_insert_ne. }
  match goal with
  | |- exists _, bind _ (fun _ => bind _ (fun _ => ?rest)) ?d = _ =>
      destruct (guarded_alter_runs "appointments" "payment_method"
                  ["payment_method"] rest d A1 Happ1 (Hone A1 _)) as [j2 ->]
  end.
  cbn [Catalog.tables Catalog.keys Catalog.functions].
  set (m2 := if bool_decide ("payment_method" ∈ A1) then m1
             else <["appointments" := A1 ∪ list_to_set ["payment_method"]]> m1).
  assert (forall t, t <> "appointments" -> m2 !! t = m !! t) as Hframe2.
  { intros t Hne. subst m2.
    destruct (bool_decide ("payment_method" ∈ A1));
      [|rewrite lookup_insert_ne by congruence]; now apply Hframe1. }
  rewrite <- (Hframe2 "products") in Hpro by discriminate.
  rewrite <- (Hframe2 "sales") in Hsal by discriminate.
  rewrite <- (Hframe2 "sale_items") in Hite by discriminate.
  match goal with
  | |- exists _, bind _ (fun _ => bind _ (fun _ => ?rest)) ?d = _ =>
      destruct (guarded_create_skipped "products" Catalog.create_products
                  rest d _ Hpro) as [j3 ->]
  end.
  cbn [Catalog.tables Catalog.keys Catalog.functions].
  match goal with
  | |- exists _, bind _ (fun _ => bind _ (fun _ => ?rest)) ?d = _ =>
      destruct (guarded_create_skipped "sales" Catalog.create_sales
                  rest d _ Hsal) as [j4 ->]
  end.
  cbn [Catalog.tables Catalog.keys Catalog.functions].
  match goal with
  | |- exists _, bind _ (fun _ => bind _ (fun _ => ?rest)) ?d = _ =>
      destruct (guarded_sale_items_runs rest d I Hite HI) as (m3 & j5 & ->)
  end.
  unfold bind. rewrite catalog_query_exec. cbn. eauto.
Qed.

(** X22.  When the application starts, [initializeDatabaseWithMigrations]
    brings the schema up to date from whatever it finds, an empty database
    or one of an earlier release in which the tables that others reference
    have their primary key: it reports completion, all six tables exist,
    every check of the migrator now finds its column or table, and nothing
    that was there is lost.  One more exception is excluded by a hypothesis:
    a [sale_items] table without [item_id] that already has one of the
    columns the migrator adds along with it. *)
Theorem startup_brings_schema_up_to_date :
  forall db : Catalog.t,
    Catalog.referable db = true ->
    (Catalog.has_table db "sale_items" = true ->
     Catalog.has_column db "sale_items" "item_id" = false ->
     Catalog.has_column db "sale_items" "item_type" = false
     /\ Catalog.has_column db "sale_items" "name" = false
     /\ Catalog.has_column db "sale_items" "quantity" = false) ->
    let db' := snd (initializeDatabaseWithMigrations db) in
    fst (initializeDatabaseWithMigrations db)
    = "Database initialization and migration completed successfully"
    /\ migrated db'
    /\ (forall t columns, In (t, columns) schema ->
                          Catalog.has_table db' t = true)
    /\ extends db db'.
Proof.
  intros db Href Hitems.
  destruct (migration_after_initialization db Href Hitems) as [db2 Hrun].
  pose proof (initialization_additive db) as Hext1.
  pose proof (migration_additive (snd (Catalog.initialization db))) as Hext2.
  assert (forall t columns,
             In (t, columns) schema ->
             Catalog.has_table (snd (Catalog.initialization db)) t = true)
    as Htables.
  { intros t columns Hin. rewrite (initialization_closed db Href). cbn [snd].
    unfold Catalog.has_table. cbn [Catalog.tables].
    destruct (initialized_lookup (Catalog.tables db)) as [Hlookup _].
    now rewrite (Hlookup t columns Hin). }
  unfold initializeDatabaseWithMigrations, Catalog.initDatabase,
    Catalog.migrateDatabase.
  rewrite (initialization_closed db Href) in *. cbn [snd negb] in *.
  rewrite Hrun in *. cbn [fst snd negb] in *.
  split; [reflexivity|].
  split; [exact (proj1 (migration_migrated _ _ _ Hrun))|].
  split.
  - intros t columns Hin. destruct Hext2 as [Ht _].
    now apply Ht, (Htables t columns).
  - exact (extends_trans _ _ _ Hext1 Hext2).
Qed.

Lemma startup_brings_schema_up_to_date_witness :
  let db' := snd (initializeDatabaseWithMigrations first_release) in
  fst (initializeDatabaseWithMigrations first_release)
  = "Database initialization and migration completed successfully"
  /\ migrated db'
  /\ (forall t columns, In (t, columns) schema ->
                        Catalog.has_table db' t = true)
  /\ extends first_release db'.
Proof.
  apply (startup_brings_schema_up_to_date first_release).
  - vm_compute. reflexivity.
  - intros _ _. repeat split; vm_compute; reflexivity.
Defined.

(** A customers table without its key: the appointments table cannot
    reference it, and the application starts without its schema. *)
Example startup_without_key :
  fst (initializeDatabaseWithMigrations customers_without_key)
  = "Failed to initialize database tables".
Proof. vm_compute. reflexivity. Qed.

(** ** [updateAppointment] *)

(** X23.  [updateAppointment] never updates an appointment.  For an id that
    matches an appointment, whatever fields are given, the first field test
    reads [appointment] before the [const] of the same block has set it; the
    error is caught, no UPDATE is sent, the action returns its failure
    message, and the appointment reads as before. *)
Theorem updateAppointment_never_updates :
  forall (id : Z) (changes : AppointmentChanges) (db : Store.Db)
         (old : Appointment),
    appointment_by_id (Store.tables db) id = Some old ->
    updateAppointment id changes db
    = (Returned
         (NotUpdated
            {| success := false;
               message := "Randevu güncellenirken bir hata oluştu." |}),
       db)
    /\ appointment_by_id
         (Store.tables (snd (updateAppointment id changes db))) id
       = Some old.
Proof.
  intros id changes [t q block] old Hold. cbn [Store.tables] in Hold.
  assert (updateAppointment id changes
            {| Store.tables := t; Store.seqs := q; Store.txn := block |}
          = (Returned
               (NotUpdated
                  {| success := false;
                     message := "Randevu güncellenirken bir hata oluştu." |}),
             {| Store.tables := t; Store.seqs := q; Store.txn := block |}))
    as Hrun.
  { unfold appointment_by_id in Hold.
    destruct (List.filter (fun a => a_id a =? id) (Store.appointments t))
      as [|found rest] eqn:Hrows; [discriminate|].
    unfold updateAppointment, uninitialized, try_catch, bind.
    await_query. rewrite Hrows. reflexivity. }
  rewrite Hrun. split; [reflexivity | exact Hold].
Qed.

Lemma updateAppointment_never_updates_witness :
  let booked := snd (createAppointment walk_in shop) in
  let changes :=
    {| ac_customer_id := Some 2; ac_service_id := None; ac_date := None;
       ac_time := Some "11:30"; ac_duration := None; ac_status := None;
       ac_notes := None; ac_payment_status := None;
       ac_payment_method := None |} in
  updateAppointment 1 changes booked
  = (Returned
       (NotUpdated
          {| success := false;
             message := "Randevu güncellenirken bir hata oluştu." |}),
     booked)
  /\ option_map a_time
       (appointment_by_id
          (Store.tables (snd (updateAppointment 1 changes booked))) 1)
     = Some "10:00:00".
Proof.
  intros booked changes.
  destruct (updateAppointment_never_updates 1 changes booked
              {| a_id := 1; a_customer_id := 1; a_service_id := 1;
                 a_date := "2025-03-28"; a_time := "10:00:00";
                 a_duration := 30; a_status := "onaylandı"; a_notes := "";
                 a_payment_status := "unpaid"; a_payment_method := None |}
              eq_refl) as [Hrun Hread].
  split; [exact Hrun|]. now rewrite Hread.
Defined.



(** ** The dashboard endpoint *)

Lemma getDashboardStats_live today oneWeekAgoStr (db : Store.Db) :
  exists stats,
    getDashboardStats today oneWeekAgoStr db = (Returned stats, db).
Proof.
  destruct db as [t q block]. unfold getDashboardStats, try_catch, bind.
  rewrite crud_query_data. store_proj. cbn [Crud.apply].
  rewrite crud_query_data. store_proj. cbn [Crud.apply].
  rewrite crud_query_data. store_proj. cbn [Crud.apply].
  rewrite crud_query_data. store_proj. cbn [Crud.apply ret].
  eauto.
Qed.

(** X25.  The dashboard endpoint always answers with status 200 and the
    statistics that [getDashboardStats] returns, and the database is as it
    was: [getDashboardStats] catches every error itself, so the handler's
    own [catch], with its status 500, is never reached. *)
Theorem dashboard_endpoint_always_answers_200 :
  forall (today oneWeekAgoStr : string) (db : Store.Db),
    exists stats,
      getDashboardStats today oneWeekAgoStr db = (Returned stats, db)
      /\ DashboardStatsRoute.GET (getDashboardStats today oneWeekAgoStr) db
         = (Returned {| DashboardStatsRoute.code := 200;
                        DashboardStatsRoute.payload := inl stats |}, db).
Proof.
  intros today oneWeekAgoStr db.
  destruct (getDashboardStats_live today oneWeekAgoStr db) as (stats & Hrun).
  exists stats. split; [exact Hrun|].
  unfold DashboardStatsRoute.GET, try_catch, bind. now rewrite Hrun.
Qed.

(** Whatever computes the statistics, the handler answers 500 only when it
    throws. *)
Lemma dashboard_endpoint_500 {World : Type}
    (stats : Async World DashboardStats) (w : World) response w' :
  DashboardStatsRoute.GET stats w = (Returned response, w') ->
  DashboardStatsRoute.code response = 500 ->
  exists error, stats w = (Thrown error, w').
Proof.
  unfold DashboardStatsRoute.GET, try_catch, bind.
  destruct (stats w) as [[found | error] w1]; cbn [ret].
  - intros [= <- <-]. discriminate.
  - intros [= _ <-] _. eauto.
Qed.

Example dashboard_of_the_shop :
  DashboardStatsRoute.GET (getDashboardStats "2025-03-28" "2025-03-21") shop
  = (Returned
       {| DashboardStatsRoute.code := 200;
          DashboardStatsRoute.payload :=
            inl {| todayAppointments :=
                     {| ta_count := 0; ta_pending := 0; ta_confirmed := 0 |};
                   totalAppointments := 0;
                   totalCustomers := 2;
                   newCustomers := 0;
                   weeklyRevenue := 125000 |} |},
     shop).
Proof. reflexivity. Qed.
